(** * MagiayEstilo: the inventory ingestion pipeline of [src/index.tsx]

    A shallow embedding of [parseGvizData], [fetchSheet] and
    [updateProductStock], together with the part of the JavaScript
    run-time these three functions rely on, and of what the views do
    with the snapshot: the filter of [CatalogView], the size buttons and
    the WhatsApp link of [DetailModal], the unit buttons of [AdminView]
    and the password gate of [App].

    - A JavaScript string is the list of its UTF-16 code units ([list N]).
    - A JavaScript number is a binary64 value, held in the Standard
      Library's [spec_float]; decimal text is rounded to it with
      [binary_round_aux].
    - A decoded JSON document is a [JSValue]; property reads, truthiness
      and the conversions [String(v)] and [ToNumber] are written out.
    - Exceptions are a sum type; the identifiers drawn from
      [Math.random] are read from an oracle through a counter. *)

From Stdlib Require Import ZArith NArith List String Ascii Lia SpecFloat.
From stdpp Require Import base tactics option list numbers.

Abbreviation jsstring := (list N) (only parsing).
Abbreviation number := spec_float (only parsing).

(** ** Strings *)

Module JS.

(** A literal of the source, as code units.  Every literal taken this way
    is plain ASCII, where the byte and the code unit coincide. *)
Definition lit (s : string) : jsstring :=
  map N_of_ascii (list_ascii_of_string s).

Arguments lit : simpl never.

Definition nonEmpty (s : jsstring) : bool :=
  match s with [] => false | _ => true end.

(** WhiteSpace and LineTerminator code units (the set [trim] and
    [parseFloat] strip). *)
Definition isWhiteSpace (c : N) : bool :=
  ((9 <=? c) && (c <=? 13) || (c =? 32) || (c =? 160) || (c =? 5760)
   || (8192 <=? c) && (c <=? 8202) || (c =? 8232) || (c =? 8233)
   || (c =? 8239) || (c =? 8287) || (c =? 12288) || (c =? 65279))%N.

Fixpoint takeWhile {A} (f : A -> bool) (l : list A) : list A :=
  match l with
  | [] => []
  | x :: l' => if f x then x :: takeWhile f l' else []
  end.

Fixpoint dropWhile {A} (f : A -> bool) (l : list A) : list A :=
  match l with
  | [] => []
  | x :: l' => if f x then dropWhile f l' else l
  end.

Definition trimStart (s : jsstring) : jsstring := dropWhile isWhiteSpace s.
Definition trimEnd (s : jsstring) : jsstring :=
  rev (dropWhile isWhiteSpace (rev s)).
Definition trim (s : jsstring) : jsstring := trimEnd (trimStart s).

(** [s.split(re)] for a regular expression that is a class of single
    code units, given as its membership test. *)
Fixpoint split (sep : N -> bool) (s : jsstring) : list jsstring :=
  match s with
  | [] => [[]]
  | c :: s' =>
      if sep c then [] :: split sep s'
      else match split sep s' with
           | [] => [[c]]
           | p :: ps => (c :: p) :: ps
           end
  end.

Fixpoint isPrefixOf (p s : jsstring) : bool :=
  match p, s with
  | [], _ => true
  | _ :: _, [] => false
  | a :: p', b :: s' => (a =? b)%N && isPrefixOf p' s'
  end.

Fixpoint indexOfFrom (needle s : jsstring) (i : Z) : Z :=
  if isPrefixOf needle s then i
  else match s with
       | [] => (-1)%Z
       | _ :: s' => indexOfFrom needle s' (i + 1)%Z
       end.

Definition indexOf (s needle : jsstring) : Z := indexOfFrom needle s 0.

Fixpoint lastIndexOfFrom (needle s : jsstring) (i : Z) : Z :=
  match s with
  | [] => if isPrefixOf needle [] then i else (-1)%Z
  | _ :: s' =>
      let r := lastIndexOfFrom needle s' (i + 1)%Z in
      if (r =? -1)%Z then (if isPrefixOf needle s then i else (-1)%Z) else r
  end.

Definition lastIndexOf (s needle : jsstring) : Z := lastIndexOfFrom needle s 0.

Definition includes (s needle : jsstring) : bool :=
  negb (indexOf s needle =? -1)%Z.

(** [s.substring(a, b)]: both ends are clamped to [0 .. length] and
    swapped when they come in the wrong order. *)
Definition clampIndex (len x : Z) : Z := Z.min (Z.max x 0) len.

Definition substring (s : jsstring) (a b : Z) : jsstring :=
  let len := Z.of_nat (length s) in
  let a' := clampIndex len a in
  let b' := clampIndex len b in
  let from := Z.min a' b' in
  let to := Z.max a' b' in
  take (Z.to_nat (to - from)) (drop (Z.to_nat from) s).

(** Decimal digits of a non-negative integer. *)
Fixpoint digitsOf (fuel : nat) (z : Z) (acc : jsstring) : jsstring :=
  match fuel with
  | O => acc
  | S f =>
      let acc' := (Z.to_N (z mod 10) + 48)%N :: acc in
      if (z <? 10)%Z then acc' else digitsOf f (z / 10)%Z acc'
  end.

Definition decimalString (z : Z) : jsstring :=
  digitsOf (S (Z.to_nat (Z.log2 z))) z [].

(** Template-literal rendering of an integer such as a time stamp. *)
Definition integerString (z : Z) : jsstring :=
  if (z <? 0)%Z then 45%N :: decimalString (- z) else decimalString z.

End JS.

(** ** Numbers *)

Module Num.
Import JS.

Local Open Scope Z_scope.

Definition NaN : number := S754_nan.
Definition ofZ (z : Z) : number := binary_normalize 53 1024 z 0 false.

(** Decimal text [m * 10^e], [0 < m], rounded to the nearest binary64
    value, ties to even. *)
Definition roundDecimal (neg : bool) (m e : Z) : number :=
  if 0 <=? e then binary_normalize 53 1024 (cond_Zopp neg (m * 10 ^ e)) 0 neg
  else
    let d := 10 ^ (- e) in
    let sh := Z.max 0 (Z.log2 d + 56 - Z.log2 m) in
    let q := (m * 2 ^ sh) / d in
    let r := (m * 2 ^ sh) mod d in
    let loc := if r =? 0 then loc_Exact else loc_Inexact (2 * r ?= d) in
    binary_round_aux 53 1024 neg q (- sh) loc.

(** The value a [StrDecimalLiteral] denotes, before rounding. *)
Inductive StrDecimal :=
  | SInfinity (neg : bool)
  | SDecimal (neg : bool) (m e : Z).

Definition numericValue (l : StrDecimal) : number :=
  match l with
  | SInfinity neg => S754_infinity neg
  | SDecimal neg m e => if m =? 0 then S754_zero neg else roundDecimal neg m e
  end.

Definition isDigit (c : N) : bool := ((48 <=? c) && (c <=? 57))%N.

Fixpoint digitsValue (acc : Z) (ds : jsstring) : Z :=
  match ds with
  | [] => acc
  | d :: r => digitsValue (10 * acc + Z.of_N (d - 48)) r
  end.

(** [ExponentPart]: an [e] or [E], an optional sign and at least one
    digit; when that is not what follows, nothing is consumed. *)
Definition scanExponent (s : jsstring) : Z * jsstring :=
  match s with
  | c :: s1 =>
      if ((c =? 101) || (c =? 69))%N then
        let '(neg, s2) :=
          match s1 with
          | 43%N :: r => (false, r)
          | 45%N :: r => (true, r)
          | _ => (false, s1)
          end in
        match takeWhile isDigit s2 with
        | [] => (0, s)
        | ds => (cond_Zopp neg (digitsValue 0 ds), dropWhile isDigit s2)
        end
      else (0, s)
  | [] => (0, s)
  end.

(** The longest prefix that is a [StrUnsignedDecimalLiteral], with the
    text left over. *)
Definition scanUnsigned (neg : bool) (s : jsstring) : option (StrDecimal * jsstring) :=
  if isPrefixOf (lit "Infinity") s then Some (SInfinity neg, drop 8 s)
  else
    let ip := takeWhile isDigit s in
    let r1 := dropWhile isDigit s in
    match ip with
    | [] =>
        match r1 with
        | 46%N :: r2 =>
            match takeWhile isDigit r2 with
            | [] => None
            | fp =>
                let '(e, r3) := scanExponent (dropWhile isDigit r2) in
                Some (SDecimal neg (digitsValue 0 fp) (e - Z.of_nat (length fp)), r3)
            end
        | _ => None
        end
    | _ =>
        let '(fp, r2) :=
          match r1 with
          | 46%N :: r => (takeWhile isDigit r, dropWhile isDigit r)
          | _ => ([], r1)
          end in
        let '(e, r3) := scanExponent r2 in
        Some (SDecimal neg (digitsValue 0 (ip ++ fp)) (e - Z.of_nat (length fp)), r3)
    end.

Definition scanStrDecimalLiteral (s : jsstring) : option (StrDecimal * jsstring) :=
  match s with
  | 43%N :: r => scanUnsigned false r
  | 45%N :: r => scanUnsigned true r
  | _ => scanUnsigned false s
  end.

(** [parseFloat(s)]: leading white space is skipped, the longest numeric
    prefix is read, anything after it is ignored; no numeric prefix gives
    [NaN]. *)
Definition parseFloat (s : jsstring) : number :=
  match scanStrDecimalLiteral (trimStart s) with
  | Some (l, _) => numericValue l
  | None => NaN
  end.

(** [Math.floor]. *)
Definition floorZ (s : bool) (m : positive) (e : Z) : Z :=
  if 0 <=? e then cond_Zopp s (Zpos m * 2 ^ e)
  else Z.shiftr (cond_Zopp s (Zpos m)) (- e).

Definition Math_floor (x : number) : number :=
  match x with
  | S754_finite s m e =>
      if 0 <=? e then x else binary_normalize 53 1024 (floorZ s m e) 0 s
  | _ => x
  end.

(** The integer a number is, when it is one. *)
Definition integerValue (x : number) : option Z :=
  match x with
  | S754_zero _ => Some 0
  | S754_finite s m e =>
      if 0 <=? e then Some (cond_Zopp s (Zpos m * 2 ^ e))
      else if Zpos m mod 2 ^ (- e) =? 0 then Some (cond_Zopp s (Zpos m / 2 ^ (- e)))
      else None
  | _ => None
  end.

(** [ToBoolean] of a number, and [x || 0]. *)
Definition truthy (x : number) : bool :=
  match x with
  | S754_nan | S754_zero _ => false
  | _ => true
  end.

Definition orZero (x : number) : number :=
  if truthy x then x else S754_zero false.

(** [x < y] on numbers. *)
Definition lessThan (x y : number) : bool := SFltb x y.

(** *** [Number::toString]

    The digits are the shortest decimal [s * 10^(n-k)], [k] digits
    long, that rounds back to the number; of two such the nearer one. *)

(** [10^n <= p/q] *)
Definition pow10_le (n p q : Z) : bool :=
  if 0 <=? n then 10 ^ n * q <=? p else q <=? p * 10 ^ (- n).

Fixpoint raiseWhile (fuel : nat) (p q n : Z) : Z :=
  match fuel with
  | O => n
  | S f => if pow10_le n p q then raiseWhile f p q (n + 1) else n
  end.

(** The [n] with [10^(n-1) <= p/q < 10^n]. *)
Definition decimalExponent (p q : Z) : Z :=
  raiseWhile 8 p q ((Z.log2 p - Z.log2 q) * 30103 / 100000 - 2).

Definition roundsTo (x : number) (s n k : Z) : bool :=
  SFeqb (roundDecimal false s (n - k)) x.

Fixpoint shortestDigits (fuel : nat) (x : number) (p q n0 k : Z) : Z * Z * Z :=
  match fuel with
  | O => (0, 0, 0)
  | S f =>
      let '(sp, sq) :=
        if 0 <=? k - n0 then (p * 10 ^ (k - n0), q) else (p, q * 10 ^ (n0 - k)) in
      let lo := sp / sq in
      let r := sp mod sq in
      let '(hi, hn) :=
        if lo + 1 =? 10 ^ k then (10 ^ (k - 1), n0 + 1) else (lo + 1, n0) in
      match roundsTo x lo n0 k, roundsTo x hi hn k with
      | true, true =>
          match 2 * r ?= sq with
          | Lt => (lo, n0, k)
          | Gt => (hi, hn, k)
          | Eq => if Z.even lo then (lo, n0, k) else (hi, hn, k)
          end
      | true, false => (lo, n0, k)
      | false, true => (hi, hn, k)
      | false, false => shortestDigits f x p q n0 (k + 1)
      end
  end.

Definition zeros (n : Z) : jsstring := repeat 48%N (Z.to_nat n).

Definition formatDigits (ds : jsstring) (n k : Z) : jsstring :=
  if (k <=? n) && (n <=? 21) then ds ++ zeros (n - k)
  else if (0 <? n) && (n <=? 21) then
    take (Z.to_nat n) ds ++ lit "." ++ drop (Z.to_nat n) ds
  else if (-6 <? n) && (n <=? 0) then lit "0." ++ zeros (- n) ++ ds
  else
    let e := n - 1 in
    let es := lit (if e <? 0 then "e-" else "e+") ++ decimalString (Z.abs e) in
    if k =? 1 then ds ++ es else take 1 ds ++ lit "." ++ drop 1 ds ++ es.

Definition toString (x : number) : jsstring :=
  match x with
  | S754_nan => lit "NaN"
  | S754_zero _ => lit "0"
  | S754_infinity s => lit (if s then "-Infinity" else "Infinity")
  | S754_finite s m e =>
      let '(p, q) := if 0 <=? e then (Zpos m * 2 ^ e, 1) else (Zpos m, 2 ^ (- e)) in
      let '(sd, n, k) :=
        shortestDigits 17 (S754_finite false m e) p q (decimalExponent p q) 1 in
      (if s then lit "-" else []) ++ formatDigits (decimalString sd) n k
  end.

(** *** [StringToNumber], the conversion behind [Number(s)] and [<]

    White space is trimmed on both sides; the empty string is [0]; the
    whole of what is left must be a decimal literal, or an unsigned
    hexadecimal, octal or binary one. *)

Definition digitOfBase (base : Z) (c : N) : option Z :=
  let v :=
    if isDigit c then Some (Z.of_N (c - 48))
    else if ((97 <=? c) && (c <=? 102))%N then Some (Z.of_N (c - 87))
    else if ((65 <=? c) && (c <=? 70))%N then Some (Z.of_N (c - 55))
    else None in
  match v with
  | Some d => if d <? base then Some d else None
  | None => None
  end.

Fixpoint baseValue (base acc : Z) (ds : jsstring) : option Z :=
  match ds with
  | [] => Some acc
  | c :: r =>
      match digitOfBase base c with
      | Some d => baseValue base (base * acc + d) r
      | None => None
      end
  end.

Definition nonDecimalBase (c : N) : option Z :=
  if ((c =? 120) || (c =? 88))%N then Some 16
  else if ((c =? 111) || (c =? 79))%N then Some 8
  else if ((c =? 98) || (c =? 66))%N then Some 2
  else None.

Definition nonDecimalLiteral (s : jsstring) : option number :=
  match s with
  | 48%N :: c :: d :: ds =>
      match nonDecimalBase c with
      | Some base => ofZ <$> baseValue base 0 (d :: ds)
      | None => None
      end
  | _ => None
  end.

Definition StringToNumber (s : jsstring) : number :=
  match trim s with
  | [] => S754_zero false
  | t =>
      match nonDecimalLiteral t with
      | Some x => x
      | None =>
          match scanStrDecimalLiteral t with
          | Some (l, []) => numericValue l
          | _ => NaN
          end
      end
  end.

End Num.

(** ** Values, exceptions and conversions *)

Inductive Exn :=
  | TypeError
  | RangeError
  | SyntaxError
  | URIError
  | Error (message : jsstring).

(** What [JSON.parse] can return, and [undefined], which reading an
    absent property gives.  An object is the list of its own properties;
    a name occurs once, and a lookup takes the first binding. *)
#[local] Unset Elimination Schemes.
Inductive JSValue :=
  | JUndefined
  | JNull
  | JBool (b : bool)
  | JNumber (x : number)
  | JString (s : jsstring)
  | JArray (items : list JSValue)
  | JObject (fields : list (jsstring * JSValue)).
#[local] Set Elimination Schemes.

Definition Res (A : Type) : Type := Exn + A.

Definition bindR {A B} (c : Res A) (k : A -> Res B) : Res B :=
  match c with
  | inl e => inl e
  | inr a => k a
  end.

Notation "x <-! c ;; k" := (bindR c (fun x => k))
  (at level 100, c at next level, right associativity).

Module Value.
Import JS.

Definition ToBoolean (v : JSValue) : bool :=
  match v with
  | JUndefined | JNull => false
  | JBool b => b
  | JNumber x => Num.truthy x
  | JString s => nonEmpty s
  | JArray _ | JObject _ => true
  end.

Fixpoint ownProperty (k : jsstring) (fs : list (jsstring * JSValue)) : option JSValue :=
  match fs with
  | [] => None
  | (k', v) :: fs' => if bool_decide (k = k') then Some v else ownProperty k fs'
  end.

(** [v.k] for a property name [k].  The program reads the names [table],
    [rows], [c], [v], [contents] and [length]; no prototype object
    defines any of them except [length] on strings and arrays, so a name
    that is not an own property reads as [undefined].  Reading a property
    of [null] or [undefined] throws. *)
Definition Get (v : JSValue) (k : jsstring) : Res JSValue :=
  match v with
  | JUndefined | JNull => inl TypeError
  | JBool _ | JNumber _ => inr JUndefined
  | JString s =>
      inr (if bool_decide (k = lit "length")
           then JNumber (Num.ofZ (Z.of_nat (length s))) else JUndefined)
  | JArray items =>
      inr (if bool_decide (k = lit "length")
           then JNumber (Num.ofZ (Z.of_nat (length items))) else JUndefined)
  | JObject fs => inr (default JUndefined (ownProperty k fs))
  end.

(** [v[i]] for an array index [i]. *)
Definition GetIndex (v : JSValue) (i : nat) : Res JSValue :=
  match v with
  | JUndefined | JNull => inl TypeError
  | JBool _ | JNumber _ => inr JUndefined
  | JString s => inr (from_option (fun c => JString [c]) JUndefined (s !! i))
  | JArray items => inr (default JUndefined (items !! i))
  | JObject fs => inr (default JUndefined (ownProperty (decimalString (Z.of_nat i)) fs))
  end.

(** [String(v)].  An array is its elements joined by commas, [null] and
    [undefined] elements giving the empty string.  A decoded object is
    ["[object Object]"], unless an own property hides [toString]: then
    there is no callable conversion left and a [TypeError] is thrown. *)
Fixpoint ToString (v : JSValue) : Res jsstring :=
  match v with
  | JUndefined => inr (lit "undefined")
  | JNull => inr (lit "null")
  | JBool b => inr (lit (if b then "true" else "false"))
  | JNumber x => inr (Num.toString x)
  | JString s => inr s
  | JArray items =>
      (fix join (l : list JSValue) : Res jsstring :=
         match l with
         | [] => inr []
         | x :: l' =>
             sx <-! match x with
                    | JUndefined | JNull => inr []
                    | _ => ToString x
                    end ;;
             match l' with
             | [] => inr sx
             | _ => r <-! join l' ;; inr (sx ++ lit "," ++ r)
             end
         end) items
  | JObject fs =>
      match ownProperty (lit "toString") fs with
      | Some _ => inl TypeError
      | None => inr (lit "[object Object]")
      end
  end.

(** [ToNumber], as the comparison [<] applies it to its operands. *)
Definition ToNumber (v : JSValue) : Res number :=
  match v with
  | JUndefined => inr Num.NaN
  | JNull => inr (S754_zero false)
  | JBool b => inr (if b then Num.ofZ 1 else S754_zero false)
  | JNumber x => inr x
  | JString s => inr (Num.StringToNumber s)
  | JArray _ | JObject _ => s <-! ToString v ;; inr (Num.StringToNumber s)
  end.

(** [v < z] for an integer literal [z]. *)
Definition lessThan (v : JSValue) (z : Z) : Res bool :=
  x <-! ToNumber v ;; inr (Num.lessThan x (Num.ofZ z)).

End Value.

(** ** The host

    Parts of the run-time the program calls and this development leaves
    open: the Unicode case mappings, the JSON decoder, the identifiers
    [generateId] draws from [Math.random] (the [n]-th draw is
    [randomId n]) and the message an engine puts in the errors it throws
    itself.  Everything below holds for every host. *)

Class Host := {
  toUpperCase : jsstring -> jsstring;
  toLowerCase : jsstring -> jsstring;
  JSON_parse : jsstring -> Res JSValue;
  randomId : nat -> jsstring;
  engineMessage : Exn -> jsstring;
}.

(** Computations that may throw and may draw identifiers: the state is
    the number of identifiers drawn so far. *)
Definition M (A : Type) : Type := nat -> Res (A * nat).

Definition ret {A} (a : A) : M A := fun n => inr (a, n).

Definition bind {A B} (c : M A) (k : A -> M B) : M B :=
  fun n => match c n with
           | inl e => inl e
           | inr (a, n') => k a n'
           end.

Definition lift {A} (r : Res A) : M A :=
  fun n => match r with
           | inl e => inl e
           | inr a => inr (a, n)
           end.

Notation "x <- c ;; k" := (bind c (fun x => k))
  (at level 100, c at next level, right associativity).

(** [rows.map(f)], the callback run on the elements in order. *)
Fixpoint Array_map {A B} (f : A -> M B) (l : list A) : M (list B) :=
  match l with
  | [] => ret []
  | x :: l' => y <- f x ;; ys <- Array_map f l' ;; ret (y :: ys)
  end.

(** [.filter(p => p !== null)] *)
Fixpoint nonNull {A} (l : list (option A)) : list A :=
  match l with
  | [] => []
  | Some a :: l' => a :: nonNull l'
  | None :: l' => nonNull l'
  end.

(** ** Types of [src/index.tsx] *)

Inductive UnitStatus := available | sold.

Record StockUnit := { unitId : jsstring; status : UnitStatus }.

Record ProductSize := { sizeName : jsstring; units : list StockUnit }.

(** [gender] is declared [Gender], but the value stored is whatever
    string the cast [as Gender] is applied to; [price] is optional. *)
Record Product := {
  productId : jsstring;
  name : jsstring;
  description : jsstring;
  gender : jsstring;
  imageUrl : jsstring;
  price : option jsstring;
  sizes : list ProductSize;
}.

(** [type Gender = "niño" | "niña" | "unisex"] *)
Definition Gender : list jsstring :=
  [ [110; 105; 241; 111]%N; [110; 105; 241; 97]%N; JS.lit "unisex" ].

Definition isGender (s : jsstring) : bool := bool_decide (s ∈ Gender).

(** ** [parseGvizData] *)

Section Parser.
Context `{Host}.
Import JS Value.

(** [Math.random().toString(36).substr(2, 9)] *)
Definition generateId : M jsstring := fun n => inr (randomId n, S n).

(** [Array(len)]: the length must be an integer in [0 .. 2^32 - 1]. *)
Definition Array_ (len : number) : Res nat :=
  match Num.integerValue len with
  | Some z => if (0 <=? z)%Z && (z <? 2 ^ 32)%Z then inr (Z.to_nat z) else inl RangeError
  | None => inl RangeError
  end.

(** [.fill(null).map(() => ({ id: generateId(), status: 'available' }))] *)
Fixpoint fillUnits (len : nat) : M (list StockUnit) :=
  match len with
  | O => ret []
  | S k =>
      i <- generateId ;;
      us <- fillUnits k ;;
      ret ({| unitId := i; status := available |} :: us)
  end.

Definition getVal (c : JSValue) (idx : nat) : Res jsstring :=
  cell <-! GetIndex c idx ;;
  if negb (ToBoolean cell) then inr []
  else
    v <-! Get cell (lit "v") ;;
    match v with
    | JNull => inr []
    | _ => ToString v
    end.

Definition NOMBRE_PRODUCTO : jsstring := lit "NOMBRE PRODUCTO".

(** The class [[,/]] of the separator expression. *)
Definition isSeparator (c : N) : bool := ((c =? 44) || (c =? 47))%N.

Definition sizeListOf (rawSizes : jsstring) : list jsstring :=
  List.filter nonEmpty (map trim (split isSeparator rawSizes)).

Definition stockQtyOf (rawStock : jsstring) : number :=
  Num.orZero (Num.parseFloat rawStock).

Fixpoint buildSizes (stockQty : number) (sizeList : list jsstring) : M (list ProductSize) :=
  match sizeList with
  | [] => ret []
  | sizeName :: rest =>
      len <- lift (Array_ (Num.Math_floor stockQty)) ;;
      units <- fillUnits len ;;
      others <- buildSizes stockQty rest ;;
      ret ({| sizeName := sizeName; units := units |} :: others)
  end.

(** The seven cells a row is read at, as [getVal] returns them. *)
Record RawRecord := {
  rawId : jsstring;
  rawName : jsstring;
  rawDesc : jsstring;
  rawGender : jsstring;
  rawUrl : jsstring;
  rawSizes : jsstring;
  rawStock : jsstring;
}.

Definition project (c : JSValue) : Res RawRecord :=
  rawId <-! getVal c 0 ;;
  rawName <-! getVal c 1 ;;
  rawDesc <-! getVal c 2 ;;
  rawGender <-! getVal c 3 ;;
  rawUrl <-! getVal c 4 ;;
  rawSizes <-! getVal c 5 ;;
  rawStock <-! getVal c 6 ;;
  inr {| rawId := rawId; rawName := rawName; rawDesc := rawDesc;
         rawGender := rawGender; rawUrl := rawUrl; rawSizes := rawSizes;
         rawStock := rawStock |}.

(** [!rawName || rawName.toUpperCase().includes("NOMBRE PRODUCTO")] *)
Definition skipped (r : RawRecord) : bool :=
  negb (nonEmpty (rawName r)) || includes (toUpperCase (rawName r)) NOMBRE_PRODUCTO.

(** [(rawGender.toLowerCase() as Gender) || "unisex"] *)
Definition genderOf (rawGender : jsstring) : jsstring :=
  let g := toLowerCase rawGender in
  if nonEmpty g then g else lit "unisex".

(** From the header test to the object returned. *)
Definition build (r : RawRecord) : M (option Product) :=
  if skipped r then ret None
  else
    sizes <- buildSizes (stockQtyOf (rawStock r)) (sizeListOf (rawSizes r)) ;;
    id <- (if nonEmpty (rawId r) then ret (rawId r) else generateId) ;;
    ret (Some {| productId := id;
                 name := rawName r;
                 description := rawDesc r;
                 gender := genderOf (rawGender r);
                 imageUrl := rawUrl r;
                 price := Some [];
                 sizes := sizes |}).

(** The callback of [rows.map]. *)
Definition rowToProduct (row : JSValue) : M (option Product) :=
  c <- lift (Get row (lit "c")) ;;
  if negb (ToBoolean c) then ret None
  else
    len <- lift (Get c (lit "length")) ;;
    short <- lift (lessThan len 2) ;;
    if short then ret None
    else
      r <- lift (project c) ;;
      build r.

(** [jsonData.table?.rows || []], which must be an array for [.map]
    to be callable. *)
Definition rowsOf (jsonData : JSValue) : Res (list JSValue) :=
  table <-! Get jsonData (lit "table") ;;
  rows <-! match table with
           | JUndefined | JNull => inr JUndefined
           | _ => Get table (lit "rows")
           end ;;
  match (if ToBoolean rows then rows else JArray []) with
  | JArray items => inr items
  | _ => inl TypeError
  end.

Definition parseGvizData (jsonData : JSValue) : M (list Product) :=
  rows <- lift (rowsOf jsonData) ;;
  ps <- Array_map rowToProduct rows ;;
  ret (nonNull ps).

End Parser.

(** ** A host to run examples on

    Case mappings that are exact on ASCII text, identifiers [id0],
    [id1], ..., and a decoder that knows two documents: the empty object
    and a table of one row. *)

Module Sample.
Import JS.

Definition upper (c : N) : N :=
  if ((97 <=? c) && (c <=? 122))%N then (c - 32)%N else c.
Definition lower (c : N) : N :=
  if ((65 <=? c) && (c <=? 90))%N then (c + 32)%N else c.

(** A cell [{ v: s }], a row [{ c: [...] }] and a decoded table. *)
Definition cell (s : string) : JSValue :=
  JObject [(lit "v", JString (lit s))].
Definition row (cells : list JSValue) : JSValue :=
  JObject [(lit "c", JArray cells)].
Definition table (rows : list JSValue) : JSValue :=
  JObject [(lit "table", JObject [(lit "rows", JArray rows)])].

(** A quoted JSON string. *)
Definition q (s : string) : jsstring := [34%N] ++ lit s ++ [34%N].

(** The text of a table whose one row has the cells [null], "Camisa",
    [null], [null], [null], "S" and "2". *)
Definition shirtJson : jsstring :=
  lit "{" ++ q "table" ++ lit ":{" ++ q "rows" ++ lit ":[{" ++ q "c"
  ++ lit ":[null,{" ++ q "v" ++ lit ":" ++ q "Camisa" ++ lit "},null,null,null,{"
  ++ q "v" ++ lit ":" ++ q "S" ++ lit "},{" ++ q "v" ++ lit ":" ++ q "2"
  ++ lit "}]}]}}".

Definition shirtTable : JSValue :=
  table [ row [ JNull; cell "Camisa"; JNull; JNull; JNull; cell "S"; cell "2" ] ].

#[export] Instance host : Host := {|
  toUpperCase := map upper;
  toLowerCase := map lower;
  JSON_parse := fun s =>
    if bool_decide (s = lit "{}") then inr (JObject [])
    else if bool_decide (s = shirtJson) then inr shirtTable
    else inl SyntaxError;
  randomId := fun n => lit "id" ++ decimalString (Z.of_nat n);
  engineMessage := fun e =>
    match e with
    | TypeError => lit "Cannot read properties of undefined"
    | RangeError => lit "Invalid array length"
    | SyntaxError => lit "Unexpected token"
    | URIError => lit "URI malformed"
    | Error m => m
    end;
|}.

End Sample.

(** ** [fetchSheet]

    One ingestion cycle.  What it does to the component is the sequence
    of state setters it calls; requests and console output are recorded
    in the same sequence. *)

Inductive Event :=
  | setLoading (b : bool)
  | setError (e : option jsstring)
  | setDebugData (s : jsstring)
  | setProducts (ps : list Product)
  | fetch (url : jsstring)
  | consoleWarn (err : Exn)
  | consoleError (err : Exn)
  | consoleLog (v : JSValue).

(** A response: its [ok] flag and its body, or the exception reading
    the body ends in. *)
Record Response := { ok : bool; body : Res jsstring }.

(** The world outside: what each request is answered with, and the
    clock, [now k] being the [k]-th reading of the cycle. *)
Record World := {
  respond : jsstring -> Res Response;
  now : nat -> Z;
}.

(** Computations that emit events and may throw; what was emitted
    before a throw stays emitted. *)
Definition IO (A : Type) : Type := list Event * Res A.

Definition emit (e : Event) : IO unit := ([e], inr tt).
Definition throw {A} (e : Exn) : IO A := ([], inl e).
Definition pure {A} (a : A) : IO A := ([], inr a).
Definition liftR {A} (r : Res A) : IO A := ([], r).

Definition bindIO {A B} (c : IO A) (k : A -> IO B) : IO B :=
  match c with
  | (ev, inl e) => (ev, inl e)
  | (ev, inr a) => let '(ev', r) := k a in (ev ++ ev', r)
  end.

Definition tryCatch {A} (c : IO A) (handler : Exn -> IO A) : IO A :=
  match c with
  | (ev, inl e) => let '(ev', r) := handler e in (ev ++ ev', r)
  | (ev, inr a) => (ev, inr a)
  end.

(** [try { c } finally { k }] for a [k] that does not throw. *)
Definition andFinally {A} (c : IO A) (k : IO unit) : IO A :=
  (fst c ++ fst k, snd c).

Notation "x <~ c ;; k" := (bindIO c (fun x => k))
  (at level 100, c at next level, right associativity).
Notation "c ;;; k" := (bindIO c (fun _ => k))
  (at level 100, right associativity).

Section Ingestion.
Context `{Host}.
Import JS Value.

Definition SHEET_ID : jsstring := lit "1Tf8ob7GSg8AytO-JdOL7HKCQYRaCu56-NrTaYsXkYak".
Definition SHEET_GID : jsstring := lit "1156577664".

Definition INITIAL_PRODUCTS : list Product :=
  [ {| productId := lit "p1";
       name := lit "Cargando inventario...";
       description := lit "Conectando con Google Sheets...";
       gender := lit "unisex";
       imageUrl := [];
       price := None;
       sizes := [] |} ].

(** [err.message]: the text given to [new Error(...)], or the engine's
    own for the errors it throws itself. *)
Definition messageOf (err : Exn) : jsstring :=
  match err with
  | Error m => m
  | _ => engineMessage err
  end.

(** *** [encodeURIComponent] *)

Definition isUnreserved (c : N) : bool :=
  ((65 <=? c) && (c <=? 90) || (97 <=? c) && (c <=? 122) || (48 <=? c) && (c <=? 57)
   || (c =? 45) || (c =? 95) || (c =? 46) || (c =? 33) || (c =? 126)
   || (c =? 42) || (c =? 39) || (c =? 40) || (c =? 41))%N.

Definition hexDigit (n : N) : N := (if n <? 10 then n + 48 else n + 55)%N.

Definition percent (b : N) : jsstring :=
  [37%N; hexDigit (b / 16); hexDigit (b mod 16)].

Definition utf8 (cp : N) : list N :=
  (if cp <? 128 then [cp]
   else if cp <? 2048 then [192 + cp / 64; 128 + cp mod 64]
   else if cp <? 65536 then
     [224 + cp / 4096; 128 + (cp / 64) mod 64; 128 + cp mod 64]
   else
     [240 + cp / 262144; 128 + (cp / 4096) mod 64;
      128 + (cp / 64) mod 64; 128 + cp mod 64])%N.

Definition escape (cp : N) : jsstring := concat (map percent (utf8 cp)).

Definition isLeadSurrogate (c : N) : bool := ((55296 <=? c) && (c <=? 56319))%N.
Definition isTrailSurrogate (c : N) : bool := ((56320 <=? c) && (c <=? 57343))%N.

Fixpoint encodeURIComponent (s : jsstring) : Res jsstring :=
  match s with
  | [] => inr []
  | c :: s' =>
      if isUnreserved c then r <-! encodeURIComponent s' ;; inr (c :: r)
      else if isTrailSurrogate c then inl URIError
      else if isLeadSurrogate c then
        match s' with
        | lo :: s'' =>
            if isTrailSurrogate lo then
              r <-! encodeURIComponent s'' ;;
              inr (escape (65536 + (c - 55296) * 1024 + (lo - 56320))%N ++ r)
            else inl URIError
        | [] => inl URIError
        end
      else r <-! encodeURIComponent s' ;; inr (escape c ++ r)
  end.

(** *** Retrieval *)

Definition gvizUrl : jsstring :=
  lit "https://docs.google.com/spreadsheets/d/" ++ SHEET_ID
  ++ lit "/gviz/tq?tqx=out:json&gid=" ++ SHEET_GID.

(** [`${gvizUrl}&_=${new Date().getTime()}`] *)
Definition noCacheUrl (t : Z) : jsstring :=
  gvizUrl ++ lit "&_=" ++ integerString t.

Definition allOrigins : jsstring := lit "https://api.allorigins.win/get?url=".
Definition corsProxy : jsstring := lit "https://corsproxy.io/?".

Definition json (response : Response) : Res JSValue :=
  text <-! body response ;; JSON_parse text.

(** Strategy: AllOrigins (Primary) *)
Definition primary (W : World) : IO JSValue :=
  encoded <~ liftR (encodeURIComponent (noCacheUrl (now W 0))) ;;
  let proxyUrl := allOrigins ++ encoded in
  emit (fetch proxyUrl) ;;;
  response <~ liftR (respond W proxyUrl) ;;
  if negb (ok response) then throw (Error (lit "AllOrigins Error"))
  else
    data <~ liftR (json response) ;;
    contents <~ liftR (Get data (lit "contents")) ;;
    if ToBoolean contents then pure contents
    else throw (Error (lit "No content")).

(** Strategy: CorsProxy (Backup) *)
Definition backup (W : World) : IO JSValue :=
  encoded <~ liftR (encodeURIComponent (noCacheUrl (now W 1))) ;;
  let proxyUrl := corsProxy ++ encoded in
  emit (fetch proxyUrl) ;;;
  response <~ liftR (respond W proxyUrl) ;;
  if negb (ok response) then throw (Error (lit "CorsProxy Error"))
  else
    text <~ liftR (body response) ;;
    pure (JString text).

(** "No se pudo conectar. Verifica que la hoja esté compartida como
    'Cualquiera con el enlace puede ver'." *)
Definition retrievalMessage : jsstring :=
  lit "No se pudo conectar. Verifica que la hoja est" ++ [233%N]
  ++ lit " compartida como 'Cualquiera con el enlace puede ver'.".

Definition retrieve (W : World) : IO JSValue :=
  tryCatch (primary W) (fun err1 =>
    emit (consoleWarn err1) ;;;
    tryCatch (backup W) (fun err2 =>
      emit (consoleError err2) ;;;
      throw (Error retrievalMessage))).

(** *** Envelope and snapshot *)

Definition MARKER : jsstring := lit "google.visualization.Query.setResponse(".

(** "Conexión exitosa a la pestaña 'Inventario', pero no se encontraron
    filas de productos. Revisa que haya datos debajo de los
    encabezados." *)
Definition emptyMessage : jsstring :=
  lit "Conexi" ++ [243%N] ++ lit "n exitosa a la pesta" ++ [241%N]
  ++ lit "a 'Inventario', pero no se encontraron filas de productos. "
  ++ lit "Revisa que haya datos debajo de los encabezados.".

Definition formatMessage : jsstring :=
  lit "Respuesta inesperada de Google. Verifica permisos de la hoja.".

(** "Error de conexión. " *)
Definition connectionPrefix : jsstring :=
  lit "Error de conexi" ++ [243%N] ++ lit "n. ".

(** The text handed to [JSON.parse]. *)
Definition cleanJsonOf (text : jsstring) (jsonStart : Z) : jsstring :=
  substring text (jsonStart + 39) (lastIndexOf text (lit ")")).

(** From the builder to the end of the [try] block; [n] identifiers
    have been drawn before. *)
Definition store (parsed : JSValue) (n : nat) : IO unit :=
  built <~ liftR (parseGvizData parsed n) ;;
  let sheetProducts := fst built in
  if (0 <? length sheetProducts)%nat then
    emit (setProducts sheetProducts) ;;; emit (setError None)
  else
    emit (consoleLog parsed) ;;; emit (setError (Some emptyMessage)).

(** From [setDebugData] on.  Anything but a string has no [substring]
    method to call. *)
Definition ingest (jsonText : JSValue) (n : nat) : IO unit :=
  match jsonText with
  | JString text =>
      emit (setDebugData (substring text 0 500 ++ lit "...")) ;;;
      let jsonStart := indexOf text MARKER in
      if negb (jsonStart =? -1)%Z then
        parsed <~ liftR (JSON_parse (cleanJsonOf text jsonStart)) ;;
        store parsed n
      else emit (setError (Some formatMessage))
  | _ => throw TypeError
  end.

Definition fetchSheet (W : World) (n : nat) : list Event :=
  fst (andFinally
         (tryCatch
            (emit (setLoading true) ;;;
             emit (setError None) ;;;
             jsonText <~ retrieve W ;;
             ingest jsonText n)
            (fun err =>
               emit (consoleError err) ;;;
               emit (setError (Some (connectionPrefix ++ messageOf err)))))
         (emit (setLoading false))).

End Ingestion.

Arguments gvizUrl : simpl never.
Arguments allOrigins : simpl never.
Arguments corsProxy : simpl never.
Arguments MARKER : simpl never.
Arguments retrievalMessage : simpl never.
Arguments emptyMessage : simpl never.
Arguments formatMessage : simpl never.
Arguments connectionPrefix : simpl never.

(** ** The component's state *)

Record AppState := {
  products : list Product;
  loading : bool;
  error : option jsstring;
  debugData : option jsstring;
}.

Definition apply (st : AppState) (e : Event) : AppState :=
  match e with
  | setLoading b =>
      {| products := products st; loading := b; error := error st; debugData := debugData st |}
  | setError m =>
      {| products := products st; loading := loading st; error := m; debugData := debugData st |}
  | setDebugData s =>
      {| products := products st; loading := loading st; error := error st; debugData := Some s |}
  | setProducts ps =>
      {| products := ps; loading := loading st; error := error st; debugData := debugData st |}
  | _ => st
  end.

Definition run (st : AppState) (evs : list Event) : AppState := fold_left apply evs st.

(** The state the component starts in. *)
Definition initialState : AppState :=
  {| products := INITIAL_PRODUCTS; loading := true; error := None; debugData := None |}.

(** ** Worlds to run examples on *)

Module SampleWorld.
Import JS.

Definition clock (k : nat) : Z := 1700000000000 + Z.of_nat k.

Definition failed : Res Response := inl TypeError.

(** No relay answers. *)
Definition offline : World := {| respond := fun _ => failed; now := clock |}.

(** The first relay is down; the second answers with [text]. *)
Definition viaBackup (text : jsstring) : World :=
  {| respond := fun url =>
       if isPrefixOf allOrigins url then failed
       else inr {| ok := true; body := inr text |};
     now := clock |}.

(** "/*O_o*/", a line feed, and the call around [payload]. *)
Definition envelope (payload : jsstring) : jsstring :=
  lit "/*O_o*/" ++ [10%N] ++ MARKER ++ payload ++ lit ");".

End SampleWorld.

(** ** [updateProductStock] *)

Section Stock.
Import JS.

(** [a[i]] for a number [i]: only a non-negative integer below the
    length names an element. *)
Definition element {A} (a : list A) (i : number) : option (nat * A) :=
  match Num.integerValue i with
  | Some z => if (0 <=? z)%Z then (fun x => (Z.to_nat z, x)) <$> a !! Z.to_nat z else None
  | None => None
  end.

Definition setStatus (unitId' : jsstring) (newStatus : UnitStatus) (u : StockUnit) : StockUnit :=
  if bool_decide (unitId u = unitId') then {| unitId := unitId u; status := newStatus |} else u.

(** The callback of [products.map].  [newSizes[sizeIndex].units] throws
    when [newSizes[sizeIndex]] is [undefined]. *)
Definition updateProduct (productId' : jsstring) (sizeIndex : number)
    (unitId' : jsstring) (newStatus : UnitStatus) (p : Product) : Res Product :=
  if negb (bool_decide (productId p = productId')) then inr p
  else
    let newSizes := sizes p in
    match element newSizes sizeIndex with
    | None => inl TypeError
    | Some (i, s) =>
        let newUnits := map (setStatus unitId' newStatus) (units s) in
        inr {| productId := productId p;
               name := name p;
               description := description p;
               gender := gender p;
               imageUrl := imageUrl p;
               price := price p;
               sizes := <[i := {| sizeName := sizeName s; units := newUnits |}]> newSizes |}
    end.

Fixpoint mapRes {A B} (f : A -> Res B) (l : list A) : Res (list B) :=
  match l with
  | [] => inr []
  | x :: l' => y <-! f x ;; ys <-! mapRes f l' ;; inr (y :: ys)
  end.

(** The setter is reached only when the [map] did not throw. *)
Definition updateProductStock (st : AppState) (productId' : jsstring)
    (sizeIndex : number) (unitId' : jsstring) (newStatus : UnitStatus) : IO unit :=
  ps <~ liftR (mapRes (updateProduct productId' sizeIndex unitId' newStatus) (products st)) ;;
  emit (setProducts ps).

End Stock.

(** ** [CatalogView]: the filter *)

Section Catalog.
Context `{Host}.
Import JS.

(** [filter === 'all' || p.gender.toLowerCase() === filter
     || p.gender.toLowerCase() === 'unisex'] *)
Definition gMatch (filter : jsstring) (p : Product) : bool :=
  bool_decide (filter = lit "all")
  || bool_decide (toLowerCase (gender p) = filter)
  || bool_decide (toLowerCase (gender p) = lit "unisex").

(** [p.name.toLowerCase().includes(search.toLowerCase())] *)
Definition sMatch (search : jsstring) (p : Product) : bool :=
  includes (toLowerCase (name p)) (toLowerCase search).

Definition filtered (products : list Product) (filter search : jsstring) : list Product :=
  List.filter (fun p => gMatch filter p && sMatch search p) products.

End Catalog.

(** ** [DetailModal]: stock, size selection and the WhatsApp link *)

Section Detail.
Import JS.

Definition isAvailable (u : StockUnit) : bool :=
  match status u with
  | available => true
  | sold => false
  end.

(** [s.units.filter(u => u.status === 'available').length] *)
Definition stock (s : ProductSize) : nat := length (List.filter isAvailable (units s)).

(** [stock === 0] *)
Definition isOut (s : ProductSize) : bool := (stock s =? 0)%nat.

(** A click on the button of the size at index [j]: [setSize(s.size)],
    unless the button is disabled. *)
Definition clickSize (product : Product) (j : nat) (size : option jsstring) : option jsstring :=
  match sizes product !! j with
  | Some s => if isOut s then size else Some (sizeName s)
  | None => size
  end.

Definition whatsAppLink : jsstring := lit "https://wa.me/573012419467?text=".

(** "Hola, me interesa *name* en talla *size*. ¿Podrían darme más
    información?" *)
Definition whatsAppMessage (productName size : jsstring) : jsstring :=
  lit "Hola, me interesa *" ++ productName ++ lit "* en talla *" ++ size
  ++ lit "*. " ++ [191%N] ++ lit "Podr" ++ [237%N] ++ lit "an darme m" ++ [225%N]
  ++ lit "s informaci" ++ [243%N] ++ lit "n?".

(** The address [window.open] is called with, if it is called. *)
Definition handleWhatsApp (product : Product) (size : option jsstring) : Res (option jsstring) :=
  match size with
  | None => inr None
  | Some size =>
      if negb (nonEmpty size) then inr None
      else
        let msg := whatsAppMessage (name product) size in
        encoded <-! encodeURIComponent msg ;;
        inr (Some (whatsAppLink ++ encoded))
  end.

End Detail.

Arguments whatsAppLink : simpl never.

(** ** [AdminView]: the unit buttons and the rejected actions *)

Section Admin.
Import JS.

(** [u.status === 'available' ? 'sold' : 'available'] *)
Definition toggled (s : UnitStatus) : UnitStatus :=
  match s with
  | available => sold
  | sold => available
  end.

(** A click on the button of the unit at index [k] of the size at index
    [j] of the product at index [i], as the view renders them:
    [actions.updateProductStock(p.id, sIdx, u.id, ...)]. *)
Definition clickUnit (st : AppState) (i j k : nat) : IO unit :=
  match products st !! i with
  | Some p =>
      match sizes p !! j with
      | Some s =>
          match units s !! k with
          | Some u =>
              updateProductStock st (productId p) (Num.ofZ (Z.of_nat j))
                                 (unitId u) (toggled (status u))
          | None => pure tt
          end
      | None => pure tt
      end
  | None => pure tt
  end.

(** "Acción no permitida: ..." *)
Definition notAllowed (what : string) : jsstring :=
  lit "Acci" ++ [243%N] ++ lit "n no permitida: " ++ lit what.

(** The entries of [actions] that work on the snapshot alone. *)
Inductive Action :=
  | addProduct (product : JSValue)
  | editProduct (product : Product)
  | deleteProduct (id : jsstring)
  | updateProductStock_ (productId' : jsstring) (sizeIndex : number)
                        (unitId' : jsstring) (newStatus : UnitStatus)
  | addSizeToProduct
  | updateSizeName
  | deleteSize
  | addUnitToSize.

(** What an action shows with [alert], if anything. *)
Definition alertOf (a : Action) : option jsstring :=
  match a with
  | addProduct _ => Some (notAllowed "Agrega productos directamente en tu Google Sheet.")
  | editProduct _ => Some (notAllowed "Edita tu Google Sheet para cambiar detalles.")
  | deleteProduct _ => Some (notAllowed "Borra la fila en tu Google Sheet.")
  | _ => None
  end.

(** The state after an action; an exception leaves the handler and the
    state as it was. *)
Definition perform (st : AppState) (a : Action) : AppState :=
  match a with
  | updateProductStock_ productId' sizeIndex unitId' newStatus =>
      run st (fst (updateProductStock st productId' sizeIndex unitId' newStatus))
  | _ => st
  end.

Definition performAll (st : AppState) (actions : list Action) : AppState :=
  fold_left perform actions st.

End Admin.

(** ** [App]: the view and the password gate *)

Section Gate.
Import JS.

Definition ADMIN_PASSWORD : jsstring := lit "admin2025".

Inductive View := catalog | admin.

(** [view], [showAuthModal] and, while the modal is mounted, its
    [password] field. *)
Record Shell := {
  view : View;
  showAuthModal : bool;
  password : jsstring;
}.

Definition initialShell : Shell :=
  {| view := catalog; showAuthModal := false; password := [] |}.

(** "Contraseña incorrecta. Intenta de nuevo." *)
Definition wrongPassword : jsstring :=
  lit "Contrase" ++ [241%N] ++ lit "a incorrecta. Intenta de nuevo.".

(** The new state and what [alert] shows, if anything. *)
Definition handleAdminAuth (sh : Shell) (pass : jsstring) : Shell * option jsstring :=
  if bool_decide (pass = ADMIN_PASSWORD)
  then ({| view := admin; showAuthModal := false; password := password sh |}, None)
  else (sh, Some wrongPassword).

(** What the visitor can do: the logo, the Admin/Tienda button, and,
    while the modal is shown, typing, Enter or "Entrar", and "Cancelar" or
    the backdrop. *)
Inductive Gesture :=
  | clickLogo
  | clickNav
  | typePassword (text : jsstring)
  | submit
  | close.

Definition gesture (sh : Shell) (g : Gesture) : Shell * option jsstring :=
  match g with
  | clickLogo =>
      ({| view := catalog; showAuthModal := showAuthModal sh; password := password sh |}, None)
  | clickNav =>
      match view sh with
      | catalog =>
          (* the modal mounts with an empty field, unless it is mounted already *)
          ({| view := catalog; showAuthModal := true;
              password := if showAuthModal sh then password sh else [] |}, None)
      | admin =>
          ({| view := catalog; showAuthModal := showAuthModal sh; password := password sh |}, None)
      end
  | typePassword text =>
      if showAuthModal sh
      then ({| view := view sh; showAuthModal := true; password := text |}, None)
      else (sh, None)
  | submit =>
      if showAuthModal sh then handleAdminAuth sh (password sh) else (sh, None)
  | close =>
      if showAuthModal sh
      then ({| view := view sh; showAuthModal := false; password := password sh |}, None)
      else (sh, None)
  end.

Definition gestures (sh : Shell) (gs : list Gesture) : Shell :=
  fold_left (fun sh g => fst (gesture sh g)) gs sh.

End Gate.

(** * Definitions the statements use *)

(** Pieces and separators woven back together. *)
Fixpoint weave (pieces : list jsstring) (seps : list N) : jsstring :=
  match pieces with
  | [] => []
  | p :: pieces' =>
      match seps with
      | [] => p
      | c :: seps' => p ++ c :: weave pieces' seps'
      end
  end.

(** Text of code units below the surrogate range. *)
Definition isPlain (s : jsstring) : bool := forallb (fun c => (c <? 55296)%N) s.

(** A code unit that is no surrogate: one below U+D800, or one from
    U+E000 to U+FFFF. *)
Definition nonSurrogate (c : N) : bool :=
  ((c <? 55296) || (57343 <? c) && (c <? 65536))%N.

(** Text without surrogate code units. *)
Definition surrogateFree (s : jsstring) : bool := forallb nonSurrogate s.

(** [t] is [s] without the white space at its two ends: [s] is [t]
    between two runs of white space, and [t] neither starts nor ends
    with white space. *)
Definition stripped (s t : jsstring) : Prop :=
  exists l r,
    s = l ++ t ++ r /\
    Forall (fun c => JS.isWhiteSpace c = true) l /\
    Forall (fun c => JS.isWhiteSpace c = true) r /\
    (forall c u, t = c :: u -> JS.isWhiteSpace c = false) /\
    (forall c u, t = u ++ [c] -> JS.isWhiteSpace c = false).

(** Requests and console output do not touch the state. *)
Definition quiet (e : Event) : bool :=
  match e with
  | fetch _ | consoleWarn _ | consoleError _ | consoleLog _ => true
  | _ => false
  end.

(** A cell of the documented shape: [null], or an object whose [v], if
    it has one, is [null], a string, a number or a boolean. *)
Definition scalarCell (cell : JSValue) : bool :=
  match cell with
  | JNull => true
  | JObject fields =>
      match Value.ownProperty (JS.lit "v") fields with
      | Some (JArray _) | Some (JObject _) => false
      | _ => true
      end
  | _ => false
  end.

Section Described.
Context `{Host}.

(** A record the builder gets through: it is skipped, or it has no size
    label, or its unit count is one [Array] accepts. *)
Definition admissible (r : RawRecord) : Prop :=
  skipped r = true \/ sizeListOf (rawSizes r) = []
  \/ exists len, Array_ (Num.Math_floor (stockQtyOf (rawStock r))) = inr len.

(** A row of the documented shape with an admissible record. *)
Definition goodRow (row : JSValue) : Prop :=
  exists cells,
    Value.Get row (JS.lit "c") = inr (JArray cells) /\
    forallb scalarCell cells = true /\
    forall r, project (JArray cells) = inr r -> admissible r.

(** The units [fillUnits] makes when [n] identifiers were drawn before. *)
Definition unitsFrom (n len : nat) : list StockUnit :=
  map (fun k => {| unitId := randomId k; status := available |}) (seq n len).

(** The buckets [buildSizes] makes: one per label, [len] units each. *)
Fixpoint bucketsFrom (n len : nat) (labels : list jsstring) : list ProductSize :=
  match labels with
  | [] => []
  | l :: labels' =>
      {| sizeName := l; units := unitsFrom n len |} :: bucketsFrom (n + len) len labels'
  end.

(** What the [catch] block emits. *)
Definition caught (err : Exn) : list Event :=
  [consoleError err; setError (Some (connectionPrefix ++ messageOf err))].

End Described.

(** A code unit that may stand in a query string as it is: an
    unreserved mark, a letter, a digit, or the percent sign of an
    escape. *)
Definition urlSafe (c : N) : bool := isUnreserved c || (c =? 37)%N.

(** The snapshot with the status of one unit replaced: the unit at
    index [k] of the size at index [j] of the product at index [i]. *)
Definition withUnit (ps : list Product) (i j k : nat) (u' : StockUnit) : list Product :=
  match ps !! i with
  | Some p =>
      match sizes p !! j with
      | Some s =>
          <[i := {| productId := productId p; name := name p; description := description p;
                    gender := gender p; imageUrl := imageUrl p; price := price p;
                    sizes := <[j := {| sizeName := sizeName s;
                                       units := <[k := u']> (units s) |}]> (sizes p) |}]> ps
      | None => ps
      end
  | None => ps
  end.

(** A snapshot with every status forgotten: what is left is the
    products, their fields, the labels and the unit identifiers. *)
Definition blankUnit (u : StockUnit) : StockUnit := {| unitId := unitId u; status := available |}.
Definition blankSize (s : ProductSize) : ProductSize :=
  {| sizeName := sizeName s; units := map blankUnit (units s) |}.
Definition blankProduct (p : Product) : Product :=
  {| productId := productId p; name := name p; description := description p;
     gender := gender p; imageUrl := imageUrl p; price := price p;
     sizes := map blankSize (sizes p) |}.
Definition skeleton (ps : list Product) : list Product := map blankProduct ps.

(** The selection after a run of clicks on size buttons. *)
Definition clickSizes (product : Product) (js : list nat) (size : option jsstring) : option jsstring :=
  fold_left (fun size j => clickSize product j size) js size.

(** What every product of a fresh snapshot satisfies: a name that is
    not empty and does not hold the header caption, a category, the empty
    price, labels that are not empty, hold no separator and neither start
    nor end in white space, and buckets of one common length whose units
    are all available. *)
Definition freshProduct `{Host} (p : Product) : Prop :=
  name p <> [] /\
  JS.includes (toUpperCase (name p)) NOMBRE_PRODUCTO = false /\
  gender p <> [] /\
  price p = Some [] /\
  (exists len, Forall (fun s => length (units s) = len
                                /\ Forall (fun u => status u = available) (units s))
                      (sizes p)) /\
  Forall (fun s => sizeName s <> []
                   /\ Forall (fun c => isSeparator c = false) (sizeName s)
                   /\ (forall c t, sizeName s = c :: t -> JS.isWhiteSpace c = false)
                   /\ (forall c t, sizeName s = t ++ [c] -> JS.isWhiteSpace c = false))
         (sizes p).

(** ** Inputs of the examples *)

Definition shirt : RawRecord :=
  {| rawId := JS.lit "A1"; rawName := JS.lit "Camisa"; rawDesc := [];
     rawGender := JS.lit "Unisex"; rawUrl := []; rawSizes := JS.lit "S, M/L";
     rawStock := JS.lit "3.7" |}.

Definition cap : RawRecord :=
  {| rawId := JS.lit "B2"; rawName := JS.lit "Gorra"; rawDesc := [];
     rawGender := []; rawUrl := []; rawSizes := JS.lit "S";
     rawStock := JS.lit "-1" |}.

Definition adult : RawRecord :=
  {| rawId := JS.lit "C3"; rawName := JS.lit "Chaqueta"; rawDesc := [];
     rawGender := JS.lit "Adulto"; rawUrl := []; rawSizes := JS.lit "M";
     rawStock := JS.lit "1" |}.

(** The labels of [shirt] with a quantity below zero. *)
Definition owed : RawRecord :=
  {| rawId := JS.lit "A1"; rawName := JS.lit "Camisa"; rawDesc := [];
     rawGender := JS.lit "Unisex"; rawUrl := []; rawSizes := JS.lit "S, M/L";
     rawStock := JS.lit "-3.7" |}.

(** A record whose size labels come with white space around them (a
    space, a tab, a no-break space, a line feed), with empty pieces and
    with a repeated label. *)
Definition padded : RawRecord :=
  {| rawId := JS.lit "K1"; rawName := JS.lit "Media"; rawDesc := [];
     rawGender := []; rawUrl := [];
     rawSizes := 32%N :: 9%N :: JS.lit "S " ++ 160%N :: JS.lit ",S, X L /,/ M" ++ [10%N];
     rawStock := JS.lit "2" |}.

(** A record with no size label and a quantity below zero. *)
Definition unsized : RawRecord :=
  {| rawId := JS.lit "H8"; rawName := JS.lit "Bolso"; rawDesc := [];
     rawGender := JS.lit "Adulto"; rawUrl := []; rawSizes := JS.lit " , /";
     rawStock := JS.lit "-1" |}.

Definition headerRow : JSValue :=
  Sample.row [ Sample.cell "ID"; Sample.cell "Nombre Producto" ].

Definition shirtRow : JSValue :=
  Sample.row [ Sample.cell "A1"; Sample.cell "Camisa"; JNull; Sample.cell "Unisex"; JNull;
               Sample.cell "S, M/L"; Sample.cell "3.7" ].

Definition capRow : JSValue :=
  Sample.row [ Sample.cell "B2"; Sample.cell "Gorra"; JNull; JNull; JNull;
               Sample.cell "S"; Sample.cell "1" ].

Definition stocked : AppState :=
  {| products :=
       [ {| productId := JS.lit "A1"; name := JS.lit "Camisa"; description := [];
            gender := JS.lit "unisex"; imageUrl := []; price := Some [];
            sizes := [ {| sizeName := JS.lit "S";
                          units := [ {| unitId := JS.lit "u1"; status := available |};
                                     {| unitId := JS.lit "u2"; status := available |} ] |} ] |};
         {| productId := JS.lit "B2"; name := JS.lit "Gorra"; description := [];
            gender := JS.lit "unisex"; imageUrl := []; price := Some [];
            sizes := [] |} ];
     loading := false; error := None; debugData := None |}.

(** The text of a response cut off before the closing parenthesis. *)
Definition truncated : jsstring := MARKER ++ JS.lit "{}".

(** The first product of [stocked]. *)
Definition camisa : Product :=
  {| productId := JS.lit "A1"; name := JS.lit "Camisa"; description := [];
     gender := JS.lit "unisex"; imageUrl := []; price := Some [];
     sizes := [ {| sizeName := JS.lit "S";
                   units := [ {| unitId := JS.lit "u1"; status := available |};
                              {| unitId := JS.lit "u2"; status := available |} ] |} ] |}.

(** Two products under one identifier, the second with fewer sizes. *)
Definition twins : AppState :=
  {| products :=
       [ {| productId := JS.lit "A1"; name := JS.lit "Camisa"; description := [];
            gender := JS.lit "unisex"; imageUrl := []; price := Some [];
            sizes := [ {| sizeName := JS.lit "S";
                          units := [ {| unitId := JS.lit "u1"; status := available |} ] |};
                       {| sizeName := JS.lit "M";
                          units := [ {| unitId := JS.lit "u2"; status := available |} ] |} ] |};
         {| productId := JS.lit "A1"; name := JS.lit "Camisa"; description := [];
            gender := JS.lit "unisex"; imageUrl := []; price := Some [];
            sizes := [ {| sizeName := JS.lit "S";
                          units := [ {| unitId := JS.lit "u3"; status := sold |} ] |} ] |} ];
     loading := false; error := None; debugData := None |}.

(** A product whose name ends in a trail surrogate with no lead before it. *)
Definition unpaired : Product :=
  {| productId := JS.lit "F6"; name := JS.lit "Gorra" ++ [56832%N]; description := [];
     gender := JS.lit "unisex"; imageUrl := []; price := Some [];
     sizes := [ {| sizeName := JS.lit "U";
                   units := [ {| unitId := JS.lit "u1"; status := available |} ] |} ] |}.

(** A product whose name holds the fullwidth exclamation mark U+FF01. *)
Definition fullwidth : Product :=
  {| productId := JS.lit "I9"; name := JS.lit "Gorra" ++ [65281%N]; description := [];
     gender := JS.lit "unisex"; imageUrl := []; price := Some [];
     sizes := [ {| sizeName := JS.lit "U";
                   units := [ {| unitId := JS.lit "u1"; status := available |} ] |} ] |}.

(** A product whose name ends in a lead surrogate, after U+FF01. *)
Definition halved : Product :=
  {| productId := JS.lit "J0"; name := 65281%N :: JS.lit "Gorra" ++ [55357%N];
     description := []; gender := JS.lit "unisex"; imageUrl := []; price := Some [];
     sizes := [ {| sizeName := JS.lit "U";
                   units := [ {| unitId := JS.lit "u1"; status := available |} ] |} ] |}.

(** A record whose quantity is not a number. *)
Definition scarf : RawRecord :=
  {| rawId := JS.lit "D4"; rawName := JS.lit "Bufanda"; rawDesc := [];
     rawGender := []; rawUrl := []; rawSizes := JS.lit "U";
     rawStock := JS.lit "agotado" |}.

(** The cells of a row whose name cell is an object without [v]. *)
Definition namelessCells : list JSValue :=
  [ Sample.cell "E5"; JObject []; JNull; JNull; JNull; Sample.cell "S"; Sample.cell "1" ].

(** The cells of a row whose stock cell holds the number 3. *)
Definition numericCells : list JSValue :=
  [ Sample.cell "G7"; Sample.cell "Falda"; JNull; JNull; JNull; Sample.cell "S, M";
    JObject [(JS.lit "v", JNumber (Num.ofZ 3))] ].

(** A relay that answers every request with a document whose
    [contents] is an object, and a host that decodes that document. *)
Definition relayBody : jsstring :=
  JS.lit "{" ++ Sample.q "contents" ++ JS.lit ":{}}".

Definition relayHost : Host := {|
  toUpperCase := map Sample.upper;
  toLowerCase := map Sample.lower;
  JSON_parse := fun s =>
    if bool_decide (s = relayBody) then inr (JObject [(JS.lit "contents", JObject [])])
    else inl SyntaxError;
  randomId := fun n => JS.lit "id" ++ JS.decimalString (Z.of_nat n);
  engineMessage := fun _ => JS.lit "jsonText.substring is not a function";
|}.

Definition relayWorld : World :=
  {| respond := fun _ => inr {| ok := true; body := inr relayBody |};
     now := SampleWorld.clock |}.

(** * Properties *)

(** ** Integers as binary64 numbers *)

Section NumberFacts.
Import Num.
Local Open Scope Z_scope.

Lemma digits2_pos_iter_xO (p k : positive) :
  digits2_pos (Pos.iter xO p k) = (digits2_pos p + k)%positive.
Proof.
  induction k as [|k IH] using Pos.peano_ind.
  - simpl. lia.
  - rewrite Pos.iter_succ. simpl. rewrite IH. lia.
Qed.

Lemma Zpos_iter_xO (p k : positive) :
  Zpos (Pos.iter xO p k) = Zpos p * 2 ^ Zpos k.
Proof.
  induction k as [|k IH] using Pos.peano_ind.
  - simpl. lia.
  - rewrite Pos.iter_succ, Pos2Z.inj_xO, IH, Pos2Z.inj_succ, Z.pow_succ_r by lia. lia.
Qed.

Lemma digits2_pos_bound (p : positive) :
  2 ^ (Zpos (digits2_pos p) - 1) <= Zpos p < 2 ^ Zpos (digits2_pos p).
Proof.
  induction p as [p IH|p IH|]; simpl digits2_pos.
  - rewrite Pos2Z.inj_succ, Z.pow_succ_r by lia.
    replace (Z.succ (Zpos (digits2_pos p)) - 1) with (Z.succ (Zpos (digits2_pos p) - 1)) by lia.
    rewrite Z.pow_succ_r by lia. lia.
  - rewrite Pos2Z.inj_succ, Z.pow_succ_r by lia.
    replace (Z.succ (Zpos (digits2_pos p)) - 1) with (Z.succ (Zpos (digits2_pos p) - 1)) by lia.
    rewrite Z.pow_succ_r by lia. lia.
  - simpl. lia.
Qed.

(** A 53-bit mantissa with an exponent in range is kept as it is. *)
Lemma binary_round_aux_canonical (sx : bool) (m : positive) (e : Z) :
  Zpos (digits2_pos m) = 53 -> -1074 <= e <= 971 ->
  binary_round_aux 53 1024 sx (Zpos m) e loc_Exact = S754_finite sx m e.
Proof.
  intros Hm He.
  assert (Hf : fexp 53 1024 (53 + e) - e = 0) by (unfold fexp, emin; lia).
  unfold binary_round_aux, shr_fexp. cbn [Zdigits2]. rewrite Hm, Hf.
  cbn [shr shr_record_of_loc shr_m loc_of_shr_record round_nearest_even Zdigits2].
  rewrite Hm, Hf. cbn [shr shr_m].
  destruct (Z.leb_spec e (1024 - 53)); [reflexivity | lia].
Qed.

(** An integer of at most 53 bits is its own binary64 value. *)
Lemma binary_round_small (sx : bool) (p : positive) :
  Zpos (digits2_pos p) <= 53 ->
  exists mz,
    binary_round 53 1024 sx p 0 = S754_finite sx mz (Zpos (digits2_pos p) - 53) /\
    Zpos mz = Zpos p * 2 ^ (53 - Zpos (digits2_pos p)).
Proof.
  intros Hd. unfold binary_round.
  assert (Hf : fexp 53 1024 (Zpos (digits2_pos p) + 0) = Zpos (digits2_pos p) - 53)
    by (unfold fexp, emin; lia).
  rewrite Hf. unfold shl_align.
  destruct (Zpos (digits2_pos p) - 53 - 0) as [|q|q] eqn:E; [|lia|].
  - exists p. assert (Hd53 : Zpos (digits2_pos p) = 53) by lia.
    rewrite binary_round_aux_canonical by lia.
    rewrite Hd53. split; [reflexivity | simpl; lia].
  - exists (Pos.iter xO p q).
    assert (Hq : Zpos (digits2_pos p) + Zpos q = 53) by lia.
    rewrite binary_round_aux_canonical.
    + split; [reflexivity|]. rewrite Zpos_iter_xO. f_equal. f_equal. lia.
    + rewrite digits2_pos_iter_xO, Pos2Z.inj_add. exact Hq.
    + lia.
Qed.

Lemma integerValue_binary_normalize (z : Z) (s : bool) :
  - 2 ^ 53 < z < 2 ^ 53 ->
  integerValue (binary_normalize 53 1024 z 0 s) = Some z.
Proof.
  intros Hz.
  assert (Hpos : forall sx p, Zpos p < 2 ^ 53 ->
            integerValue (binary_round 53 1024 sx p 0) = Some (cond_Zopp sx (Zpos p))).
  { intros sx p Hp. pose proof (digits2_pos_bound p) as [Hlo _].
    assert (Hd : Zpos (digits2_pos p) <= 53).
    { destruct (Z.le_gt_cases (Zpos (digits2_pos p)) 53) as [|Hgt]; [done|].
      assert (2 ^ 53 <= 2 ^ (Zpos (digits2_pos p) - 1)) by (apply Z.pow_le_mono_r; lia).
      lia. }
    destruct (binary_round_small sx p Hd) as (mz & -> & Hmz).
    unfold integerValue.
    destruct (Z.leb_spec 0 (Zpos (digits2_pos p) - 53)) as [Hge|Hlt].
    - assert (Hd53 : Zpos (digits2_pos p) = 53) by lia.
      rewrite Hd53 in Hmz |- *. rewrite Hmz. do 2 f_equal. simpl. lia.
    - replace (- (Zpos (digits2_pos p) - 53)) with (53 - Zpos (digits2_pos p)) by lia.
      rewrite Hmz, Z.mod_mul by lia. cbn [Z.eqb].
      rewrite Z.div_mul by lia. reflexivity. }
  destruct z as [|p|p]; cbn [binary_normalize].
  - reflexivity.
  - rewrite Hpos; [reflexivity | lia].
  - rewrite Hpos; [reflexivity | lia].
Qed.

(** [floorZ] is the floor of [±m * 2^e]. *)
Lemma floorZ_spec (s : bool) (m : positive) (e : Z) :
  if 0 <=? e then floorZ s m e = cond_Zopp s (Zpos m) * 2 ^ e
  else floorZ s m e * 2 ^ (- e) <= cond_Zopp s (Zpos m)
                                < (floorZ s m e + 1) * 2 ^ (- e).
Proof.
  unfold floorZ. destruct (Z.leb_spec 0 e) as [He|He].
  - destruct s; simpl; lia.
  - rewrite Z.shiftr_div_pow2 by lia.
    assert (Hp : 0 < 2 ^ (- e)) by (apply Z.pow_pos_nonneg; lia).
    pose proof (Z.div_mod (cond_Zopp s (Zpos m)) (2 ^ (- e)) ltac:(lia)) as Hdm.
    pose proof (Z.mod_pos_bound (cond_Zopp s (Zpos m)) (2 ^ (- e)) Hp) as Hmod.
    nia.
Qed.

(** [Math.floor] of a finite number is the floor of its value, as long
    as that stays below [2^53] in size. *)
Lemma integerValue_Math_floor (s : bool) (m : positive) (e : Z) :
  - 2 ^ 53 < floorZ s m e < 2 ^ 53 ->
  integerValue (Math_floor (S754_finite s m e)) = Some (floorZ s m e).
Proof.
  intros Hz. cbn [Math_floor]. destruct (Z.leb_spec 0 e) as [He|He].
  - unfold integerValue, floorZ. by destruct (Z.leb_spec 0 e); [|lia].
  - by apply integerValue_binary_normalize.
Qed.

(** Comparing a length with 2. *)
Lemma lessThan_ofZ_2 (k : Z) :
  0 <= k < 2 ^ 53 -> lessThan (ofZ k) (ofZ 2) = (k <? 2).
Proof.
  intros Hk. destruct k as [|p|p]; [reflexivity| |lia].
  unfold ofZ at 1. cbn [binary_normalize].
  pose proof (digits2_pos_bound p) as [Hlo Hhi].
  assert (Hd : Zpos (digits2_pos p) <= 53).
  { destruct (Z.le_gt_cases (Zpos (digits2_pos p)) 53) as [|Hgt]; [done|].
    assert (2 ^ 53 <= 2 ^ (Zpos (digits2_pos p) - 1)) by (apply Z.pow_le_mono_r; lia).
    lia. }
  destruct (binary_round_small false p Hd) as (mz & -> & Hmz).
  change (ofZ 2) with (S754_finite false 4503599627370496 (-51)).
  unfold lessThan, SFltb, SFcompare.
  destruct (Z.compare_spec (Zpos (digits2_pos p) - 53) (-51)) as [He|He|He].
  - assert (Hd2 : Zpos (digits2_pos p) = 2) by lia. rewrite Hd2 in *.
    change (2 ^ (2 - 1)) with 2 in Hlo. change (2 ^ (53 - 2)) with 2251799813685248 in Hmz.
    rewrite Pos.compare_cont_spec. cbn [Pos.switch_Eq].
    destruct (Z.ltb_spec (Zpos p) 2) as [Hp|Hp]; [lia|].
    destruct (Pos.compare_spec mz 4503599627370496) as [Hc|Hc|Hc]; try reflexivity.
    exfalso. apply Pos2Z.pos_lt_pos in Hc. rewrite Hmz in Hc. clear Hk Hhi Hmz. lia.
  - assert (Hd1 : Zpos (digits2_pos p) = 1) by lia. rewrite Hd1 in *.
    change (2 ^ 1) with 2 in Hhi. destruct (Z.ltb_spec (Zpos p) 2); [reflexivity | lia].
  - assert (2 ^ 2 <= 2 ^ (Zpos (digits2_pos p) - 1)) by (apply Z.pow_le_mono_r; lia).
    change (2 ^ 2) with 4 in *.
    destruct (Z.ltb_spec (Zpos p) 2); [lia | reflexivity].
Qed.

End NumberFacts.

(** ** What [split] and [trim] compute *)

Section StringFacts.
Import JS.

Lemma split_not_nil (sep : N -> bool) (s : jsstring) : split sep s <> [].
Proof.
  destruct s as [|c s]; simpl; [discriminate|].
  destruct (sep c); [discriminate|].
  destruct (split sep s); discriminate.
Qed.

(** The pieces of [split], with the separators of the text put back
    between them in their order, are the text. *)
Lemma split_weave (sep : N -> bool) (s : jsstring) :
  weave (split sep s) (List.filter sep s) = s.
Proof.
  induction s as [|c s IH]; simpl; [reflexivity|].
  destruct (sep c) eqn:Hc; simpl.
  - by rewrite IH.
  - pose proof (split_not_nil sep s) as Hne.
    destruct (split sep s) as [|p ps]; [congruence|].
    simpl in *. destruct (List.filter sep s); simpl in *; by rewrite <- IH.
Qed.

Lemma split_length (sep : N -> bool) (s : jsstring) :
  length (split sep s) = S (length (List.filter sep s)).
Proof.
  induction s as [|c s IH]; simpl; [reflexivity|].
  destruct (sep c); simpl; [by rewrite IH|].
  pose proof (split_not_nil sep s) as Hne.
  destruct (split sep s); [congruence|]. simpl in *. lia.
Qed.

(** No piece holds a separator. *)
Lemma split_pieces (sep : N -> bool) (s : jsstring) :
  Forall (Forall (fun c => sep c = false)) (split sep s).
Proof.
  induction s as [|c s IH]; simpl.
  - repeat constructor.
  - destruct (sep c) eqn:Hc.
    + constructor; [constructor | exact IH].
    + destruct (split sep s) as [|p ps]; [repeat constructor; done|].
      inversion IH; subst. constructor; [constructor|]; done.
Qed.

Lemma dropWhile_decompose {A} (f : A -> bool) (l : list A) :
  l = takeWhile f l ++ dropWhile f l.
Proof.
  induction l as [|x l IH]; simpl; [reflexivity|].
  destruct (f x); simpl; congruence.
Qed.

Lemma takeWhile_all {A} (f : A -> bool) (l : list A) :
  Forall (fun x => f x = true) (takeWhile f l).
Proof.
  induction l as [|x l IH]; simpl; [constructor|].
  destruct (f x) eqn:Hx; constructor; done.
Qed.

Lemma dropWhile_head {A} (f : A -> bool) (l : list A) (x : A) (l' : list A) :
  dropWhile f l = x :: l' -> f x = false.
Proof.
  induction l as [|y l IH]; simpl; [discriminate|].
  destruct (f y) eqn:Hy; [exact IH|]. intros [= -> _]. exact Hy.
Qed.

(** [trim] removes a run of white space at each end, and what is left
    neither starts nor ends with white space. *)
Lemma trim_decompose (s : jsstring) :
  exists l r,
    s = l ++ trim s ++ r /\
    Forall (fun c => isWhiteSpace c = true) l /\
    Forall (fun c => isWhiteSpace c = true) r /\
    (forall c t, trim s = c :: t -> isWhiteSpace c = false) /\
    (forall c t, trim s = t ++ [c] -> isWhiteSpace c = false).
Proof.
  unfold trim, trimEnd, trimStart.
  set (m := dropWhile isWhiteSpace s).
  exists (takeWhile isWhiteSpace s), (rev (takeWhile isWhiteSpace (rev m))).
  assert (Hm : m = rev (dropWhile isWhiteSpace (rev m))
                   ++ rev (takeWhile isWhiteSpace (rev m))).
  { rewrite <- rev_app_distr, <- dropWhile_decompose. by rewrite rev_involutive. }
  assert (Hlast : forall c t, rev (dropWhile isWhiteSpace (rev m)) = t ++ [c] ->
                              isWhiteSpace c = false).
  { intros c t Ht. apply (f_equal (@rev N)) in Ht.
    rewrite rev_involutive, rev_app_distr in Ht. simpl in Ht.
    by apply dropWhile_head in Ht. }
  split; [|split; [|split; [|split]]].
  - rewrite <- Hm. apply dropWhile_decompose.
  - apply takeWhile_all.
  - apply Forall_rev, takeWhile_all.
  - intros c t Ht. rewrite Ht in Hm. simpl in Hm.
    eapply dropWhile_head. exact Hm.
  - exact Hlast.
Qed.

Lemma trim_stripped (s : jsstring) : stripped s (trim s).
Proof. exact (trim_decompose s). Qed.

Lemma dropWhile_app_all {A} (f : A -> bool) (l m : list A) :
  Forall (fun x => f x = true) l -> dropWhile f (l ++ m) = dropWhile f m.
Proof. induction 1 as [|x l Hx _ IH]; simpl; [reflexivity|]. by rewrite Hx. Qed.

(** There is one way only to strip a text: it is what [trim] returns. *)
Lemma stripped_trim (s t : jsstring) : stripped s t -> t = trim s.
Proof.
  intros (l & r & -> & Hl & Hr & Hfirst & Hlast).
  unfold trim, trimEnd, trimStart. rewrite dropWhile_app_all by exact Hl.
  destruct t as [|c u].
  - simpl. rewrite <- (app_nil_r r), dropWhile_app_all by exact Hr. reflexivity.
  - cbn [app dropWhile]. rewrite (Hfirst c u eq_refl).
    change (c :: u ++ r) with ((c :: u) ++ r).
    rewrite rev_app_distr, dropWhile_app_all by (by apply Forall_rev).
    destruct (rev (c :: u)) as [|d v] eqn:Hrev.
    + apply (f_equal (@rev N)) in Hrev. rewrite rev_involutive in Hrev. discriminate Hrev.
    + assert (Hcu : c :: u = rev v ++ [d]).
      { apply (f_equal (@rev N)) in Hrev. by rewrite rev_involutive in Hrev. }
      cbn [dropWhile]. rewrite (Hlast d (rev v) Hcu). by rewrite <- Hrev, rev_involutive.
Qed.

Lemma nonEmpty_decide (t : jsstring) : nonEmpty t = bool_decide (t <> []).
Proof. by destruct t. Qed.

End StringFacts.

(** ** The builder *)

Section BuilderFacts.
Context `{Host}.
Import JS Value.

Lemma fillUnits_eq (len n : nat) :
  fillUnits len n = inr (unitsFrom n len, n + len).
Proof.
  revert n. induction len as [|len IH]; intros n; simpl.
  - unfold ret, unitsFrom. simpl. do 2 f_equal. lia.
  - unfold bind, generateId. rewrite IH. unfold ret, unitsFrom. simpl.
    do 2 f_equal. lia.
Qed.

Lemma buildSizes_eq (q : number) (len : nat) (labels : list jsstring) (n : nat) :
  Array_ (Num.Math_floor q) = inr len ->
  buildSizes q labels n = inr (bucketsFrom n len labels, n + len * length labels).
Proof.
  intros Hlen. revert n. induction labels as [|l labels IH]; intros n; simpl.
  - unfold ret. do 2 f_equal. lia.
  - unfold bind, lift. rewrite Hlen, fillUnits_eq, IH. unfold ret.
    do 2 f_equal. lia.
Qed.

(** With no label, [Array] is not called at all. *)
Lemma buildSizes_nil (q : number) (n : nat) : buildSizes q [] n = inr ([], n).
Proof. reflexivity. Qed.

(** With a label and a length [Array] refuses, the [RangeError] leaves
    the builder. *)
Lemma buildSizes_throws (q : number) (e : Exn) (l : jsstring) (labels : list jsstring) (n : nat) :
  Array_ (Num.Math_floor q) = inl e ->
  buildSizes q (l :: labels) n = inl e.
Proof. intros He. simpl. unfold bind, lift. by rewrite He. Qed.

Lemma bucketsFrom_names (n len : nat) (labels : list jsstring) :
  map sizeName (bucketsFrom n len labels) = labels.
Proof.
  revert n. induction labels as [|l labels IH]; intros n; simpl; [reflexivity|].
  by rewrite IH.
Qed.

Lemma unitsFrom_length (n len : nat) : length (unitsFrom n len) = len.
Proof. unfold unitsFrom. by rewrite length_map, length_seq. Qed.

Lemma unitsFrom_available (n len : nat) :
  Forall (fun u => status u = available) (unitsFrom n len).
Proof. unfold unitsFrom. apply Forall_map, Forall_forall. done. Qed.

Lemma bucketsFrom_units (n len : nat) (labels : list jsstring) :
  Forall (fun b => length (units b) = len
                   /\ Forall (fun u => status u = available) (units b))
         (bucketsFrom n len labels).
Proof.
  revert n. induction labels as [|l labels IH]; intros n; simpl; constructor.
  - simpl. split; [apply unitsFrom_length | apply unitsFrom_available].
  - apply IH.
Qed.

(** A record that passes the header test, with a unit count [Array]
    accepts, becomes a product; this is the product. *)
Lemma build_kept (r : RawRecord) (n len : nat) :
  skipped r = false ->
  Array_ (Num.Math_floor (stockQtyOf (rawStock r))) = inr len ->
  let n1 := n + len * length (sizeListOf (rawSizes r)) in
  build r n =
    inr (Some {| productId := if nonEmpty (rawId r) then rawId r else randomId n1;
                 name := rawName r;
                 description := rawDesc r;
                 gender := genderOf (rawGender r);
                 imageUrl := rawUrl r;
                 price := Some [];
                 sizes := bucketsFrom n len (sizeListOf (rawSizes r)) |},
         if nonEmpty (rawId r) then n1 else S n1).
Proof.
  intros Hs Hlen. unfold build. rewrite Hs. unfold bind.
  rewrite (buildSizes_eq _ len) by exact Hlen.
  destruct (nonEmpty (rawId r)); reflexivity.
Qed.

Lemma build_skipped (r : RawRecord) (n : nat) :
  skipped r = true -> build r n = inr (None, n).
Proof. intros Hs. unfold build. by rewrite Hs. Qed.

(** The size list, with the test for the empty text spelled out. *)
Lemma sizeListOf_eq (rawSizes : jsstring) :
  sizeListOf rawSizes
  = List.filter (fun t => bool_decide (t <> [])) (map trim (split isSeparator rawSizes)).
Proof.
  unfold sizeListOf. induction (map trim (split isSeparator rawSizes)) as [|t ts IH];
    [reflexivity|].
  cbn [List.filter]. by rewrite IH, nonEmpty_decide.
Qed.

(** [Array] throws nothing but a [RangeError]. *)
Lemma Array_refusal (len : number) (e : Exn) : Array_ len = inl e -> e = RangeError.
Proof.
  unfold Array_. destruct (Num.integerValue len) as [z|]; [|by intros [= <-]].
  destruct ((0 <=? z)%Z && (z <? 2 ^ 32)%Z); [discriminate | by intros [= <-]].
Qed.

(** The three ways the builder ends: the record is skipped; or a
    product is returned, with one bucket of [len] units per label; or
    there is a label and [Array] refuses the unit count. *)
Lemma build_outcome (r : RawRecord) (n : nat) :
  match build r n with
  | inr (None, n') => skipped r = true /\ n' = n
  | inr (Some p, n') =>
      skipped r = false /\
      exists len,
        sizes p = bucketsFrom n len (sizeListOf (rawSizes r)) /\
        (sizeListOf (rawSizes r) <> [] ->
         Array_ (Num.Math_floor (stockQtyOf (rawStock r))) = inr len)
  | inl e =>
      skipped r = false /\ sizeListOf (rawSizes r) <> [] /\ e = RangeError /\
      Array_ (Num.Math_floor (stockQtyOf (rawStock r))) = inl RangeError
  end.
Proof.
  destruct (skipped r) eqn:Hs; [by rewrite build_skipped|].
  destruct (Array_ (Num.Math_floor (stockQtyOf (rawStock r)))) as [e|len] eqn:Hlen.
  - unfold build. rewrite Hs. unfold bind.
    destruct (sizeListOf (rawSizes r)) as [|l ls] eqn:Hl.
    + rewrite buildSizes_nil.
      destruct (nonEmpty (rawId r)); cbn; (split; [reflexivity|]); by exists 0.
    + rewrite (buildSizes_throws _ e) by exact Hlen.
      apply Array_refusal in Hlen as ->. done.
  - pose proof (build_kept r n len Hs Hlen) as Hb. cbn zeta in Hb. rewrite Hb.
    split; [reflexivity|]. exists len. done.
Qed.

End BuilderFacts.

(** *** C1 *)

(** C1.  For every raw record.  The size-labels field is cut at its
    commas and slashes: there is one piece more than there are
    separators, no piece holds one, and the pieces with the separators
    put back between them are the field.  Every piece is stripped of the
    white space at its two ends, which can be done in one way only, and
    the labels are the stripped pieces that are not empty, in the order
    of the pieces, repeats kept.  The builder then ends in one of three
    ways.  A record that fails the header test gives no product.
    Otherwise a product is returned whose buckets are labelled with the
    labels, one bucket a label; every bucket is filled on its own, from
    identifiers of its own, with the same number of units, all of them
    available, and with a label present that number is the one [Array]
    is given, the floor of the quantity.  Or else there is a label and
    [Array] refuses the floor of the quantity: the builder ends in the
    [RangeError] and there is no bucket at all.  For the labels
    "S, M/L" and the quantity "3.7" a record that passes the header test
    gets the three buckets S, M and L with three available units each. *)
Theorem C1_size_buckets `{Host} (r : RawRecord) (n : nat) :
  length (JS.split isSeparator (rawSizes r))
    = S (length (List.filter isSeparator (rawSizes r))) /\
  weave (JS.split isSeparator (rawSizes r)) (List.filter isSeparator (rawSizes r))
    = rawSizes r /\
  Forall (Forall (fun c => isSeparator c = false)) (JS.split isSeparator (rawSizes r)) /\
  (forall s t t', stripped s t -> stripped s t' -> t = t') /\
  exists tokens labels,
    Forall2 stripped (JS.split isSeparator (rawSizes r)) tokens /\
    labels = List.filter (fun t => bool_decide (t <> [])) tokens /\
    match build r n with
    | inr (None, n') => skipped r = true /\ n' = n
    | inr (Some p, n') =>
        skipped r = false /\
        map sizeName (sizes p) = labels /\
        exists len,
          sizes p = bucketsFrom n len labels /\
          Forall (fun b => length (units b) = len
                           /\ Forall (fun u => status u = available) (units b))
                 (sizes p) /\
          (labels <> [] ->
           Array_ (Num.Math_floor (stockQtyOf (rawStock r))) = inr len)
    | inl e =>
        skipped r = false /\ labels <> [] /\ e = RangeError /\
        Array_ (Num.Math_floor (stockQtyOf (rawStock r))) = inl RangeError
    end /\
    (skipped r = false ->
     rawSizes r = JS.lit "S, M/L" -> rawStock r = JS.lit "3.7" ->
     exists p n',
       build r n = inr (Some p, n') /\
       map (fun b => (sizeName b, map status (units b))) (sizes p)
         = [ (JS.lit "S", [available; available; available]);
             (JS.lit "M", [available; available; available]);
             (JS.lit "L", [available; available; available]) ]).
Proof.
  split; [apply split_length|]. split; [apply split_weave|]. split; [apply split_pieces|].
  split.
  { intros s t t' Ht Ht'. by rewrite (stripped_trim s t Ht), (stripped_trim s t' Ht'). }
  exists (map JS.trim (JS.split isSeparator (rawSizes r))), (sizeListOf (rawSizes r)).
  split.
  { induction (JS.split isSeparator (rawSizes r)) as [|piece pieces IH]; constructor;
      [apply trim_stripped | exact IH]. }
  split; [apply sizeListOf_eq|]. split.
  - pose proof (build_outcome r n) as Hb.
    destruct (build r n) as [e|[[p|] n']]; [exact Hb | | exact Hb].
    destruct Hb as (Hs & len & Hsizes & Hlen). split; [exact Hs|].
    rewrite Hsizes. split; [apply bucketsFrom_names|].
    exists len. split; [reflexivity|]. split; [apply bucketsFrom_units | exact Hlen].
  - intros Hs Hsizes Hstock.
    assert (Hlen : Array_ (Num.Math_floor (stockQtyOf (rawStock r))) = inr 3).
    { rewrite Hstock. reflexivity. }
    pose proof (build_kept r n 3 Hs Hlen) as Hb. cbn zeta in Hb.
    eexists _, _. split; [exact Hb|]. cbn [sizes]. rewrite Hsizes. reflexivity.
Qed.

(** Repeated labels give repeated buckets. *)
Example sizeList_keeps_duplicates :
  sizeListOf (JS.lit "S,S / S") = [JS.lit "S"; JS.lit "S"; JS.lit "S"].
Proof. reflexivity. Qed.

(** White space goes at both ends of a piece, and stays inside it. *)
Example sizeList_trims_both_ends :
  sizeListOf (rawSizes padded) = [JS.lit "S"; JS.lit "S"; JS.lit "X L"; JS.lit "M"].
Proof. reflexivity. Qed.

(** The record [shirt]; the record [padded], whose labels are stripped
    at both ends and kept when repeated; the record [owed], whose
    quantity [Array] refuses; the record [unsized], which has no
    label. *)
Lemma C1_size_buckets_witness :
  (exists p n',
     build (H := Sample.host) shirt 0 = inr (Some p, n') /\
     map (fun b => (sizeName b, map status (units b))) (sizes p)
       = [ (JS.lit "S", [available; available; available]);
           (JS.lit "M", [available; available; available]);
           (JS.lit "L", [available; available; available]) ]) /\
  (exists p n',
     build (H := Sample.host) padded 0 = inr (Some p, n') /\
     map (fun b => (sizeName b, map status (units b))) (sizes p)
       = [ (JS.lit "S", [available; available]);
           (JS.lit "S", [available; available]);
           (JS.lit "X L", [available; available]);
           (JS.lit "M", [available; available]) ]) /\
  build (H := Sample.host) owed 0 = inl RangeError /\
  (exists p n', build (H := Sample.host) unsized 0 = inr (Some p, n') /\ sizes p = []).
Proof.
  split; [|split; [|split]].
  - destruct (C1_size_buckets (H := Sample.host) shirt 0)
      as (_ & _ & _ & _ & tokens & labels & _ & _ & _ & Hex).
    exact (Hex eq_refl eq_refl eq_refl).
  - eexists _, _. split; reflexivity.
  - destruct (C1_size_buckets (H := Sample.host) owed 0)
      as (_ & _ & _ & _ & tokens & labels & _ & _ & Hout & _).
    destruct (build (H := Sample.host) owed 0) as [e|[[p|] n']] eqn:Hb.
    + destruct Hout as (_ & _ & -> & _). reflexivity.
    + vm_compute in Hb. discriminate Hb.
    + vm_compute in Hb. discriminate Hb.
  - eexists _, _. split; reflexivity.
Defined.

(** *** C2 *)

Section Quantity.
Context `{Host}.

(** A quantity field with no numeric prefix counts as zero: every
    bucket is empty, and the size list is built all the same. *)
Lemma quantity_unparsable (r : RawRecord) (n : nat) :
  skipped r = false ->
  Num.parseFloat (rawStock r) = Num.NaN ->
  exists p n',
    build r n = inr (Some p, n') /\
    map sizeName (sizes p) = sizeListOf (rawSizes r) /\
    Forall (fun b => units b = []) (sizes p).
Proof.
  intros Hs Hnan.
  assert (Hlen : Array_ (Num.Math_floor (stockQtyOf (rawStock r))) = inr 0).
  { unfold stockQtyOf. by rewrite Hnan. }
  eexists _, _. split; [apply build_kept; eassumption|]. simpl.
  split; [apply bucketsFrom_names|].
  eapply List.Forall_impl; [|apply bucketsFrom_units].
  intros b [Hb _]. by destruct (units b).
Qed.

(** The empty field and a field of letters have no numeric prefix. *)
Example parseFloat_no_prefix :
  Num.parseFloat [] = Num.NaN /\ Num.parseFloat (JS.lit "agotado") = Num.NaN.
Proof. split; reflexivity. Qed.

(** A quantity [±m * 2^e] whose floor lies in [0 .. 2^32 - 1] gives
    that many units in every bucket. *)
Lemma quantity_floored (r : RawRecord) (n : nat) (s : bool) (m : positive) (e : Z) :
  skipped r = false ->
  Num.parseFloat (rawStock r) = S754_finite s m e ->
  (0 <= Num.floorZ s m e < 2 ^ 32)%Z ->
  exists p n',
    build r n = inr (Some p, n') /\
    Forall (fun b => length (units b) = Z.to_nat (Num.floorZ s m e)) (sizes p).
Proof.
  intros Hs Hq Hrange.
  assert (Hlen : Array_ (Num.Math_floor (stockQtyOf (rawStock r)))
                 = inr (Z.to_nat (Num.floorZ s m e))).
  { unfold stockQtyOf. rewrite Hq. cbn [Num.orZero Num.truthy]. unfold Array_.
    rewrite integerValue_Math_floor by lia.
    destruct (Z.leb_spec 0 (Num.floorZ s m e)); [|lia].
    destruct (Z.ltb_spec (Num.floorZ s m e) (2 ^ 32)); [|lia]. reflexivity. }
  eexists _, _. split; [apply build_kept; eassumption|]. simpl.
  eapply List.Forall_impl; [|apply bucketsFrom_units]. by intros b [Hb _].
Qed.

(** With a size label and a length [Array] refuses, the builder ends in
    the [RangeError]. *)
Lemma build_refused (r : RawRecord) (n : nat) :
  skipped r = false ->
  sizeListOf (rawSizes r) <> [] ->
  Array_ (Num.Math_floor (stockQtyOf (rawStock r))) = inl RangeError ->
  build r n = inl RangeError.
Proof.
  intros Hs Hl Hlen. unfold build. rewrite Hs. unfold bind.
  destruct (sizeListOf (rawSizes r)) as [|l ls]; [congruence|].
  by rewrite (buildSizes_throws _ RangeError).
Qed.

End Quantity.

(** C2, where the code departs from it.  A record that passes the header
    test, has at least one size label and a quantity [±m * 2^e] whose
    floor is negative does not get zero units: [Array] refuses the
    negative length and the builder ends in a [RangeError].  The
    quantity "-1" is such a quantity. *)
Theorem C2_negative_quantity_throws `{Host} (r : RawRecord) (n : nat)
    (s : bool) (m : positive) (e : Z) :
  skipped r = false ->
  sizeListOf (rawSizes r) <> [] ->
  Num.parseFloat (rawStock r) = S754_finite s m e ->
  (- 2 ^ 53 < Num.floorZ s m e < 0)%Z ->
  build r n = inl RangeError.
Proof.
  intros Hs Hl Hq Hneg. apply build_refused; [exact Hs | exact Hl |].
  unfold stockQtyOf. rewrite Hq. cbn [Num.orZero Num.truthy]. unfold Array_.
  rewrite integerValue_Math_floor by lia.
  destruct (Z.leb_spec 0 (Num.floorZ s m e)); [lia | reflexivity].
Qed.

Lemma C2_negative_quantity_throws_witness :
  build (H := Sample.host) cap 0 = inl RangeError.
Proof.
  apply (C2_negative_quantity_throws (H := Sample.host) cap 0
           true 4503599627370496 (-52));
    [reflexivity | discriminate | reflexivity | vm_compute; split; reflexivity].
Defined.

(** *** C3 *)

(** C3, where the code departs from it.  A decoded table whose only row
    carries the quantity [-1] makes [parseGvizData] end in a
    [RangeError] instead of returning products; a [null] row makes it
    end in a [TypeError]. *)
Theorem C3_builder_throws :
  parseGvizData (H := Sample.host)
    (Sample.table
       [ Sample.row [ Sample.cell "B2"; Sample.cell "Gorra"; JNull; JNull; JNull;
                      Sample.cell "S"; JObject [(JS.lit "v", JNumber (Num.ofZ (-1)))] ] ]) 0
  = inl RangeError
  /\ parseGvizData (H := Sample.host) (Sample.table [ JNull ]) 0 = inl TypeError.
Proof. split; reflexivity. Qed.

(** *** C9 *)

(** C9 as stated fails: the category "Adulto" is stored as "adulto",
    which is none of the three values of [Gender]. *)
Lemma C9_counterexample :
  ~ (forall (r : RawRecord) (n : nat) (p : Product) (n' : nat),
       build (H := Sample.host) r n = inr (Some p, n') ->
       isGender (gender p) = true).
Proof.
  intros Hall.
  specialize (Hall adult 0 _ _ eq_refl). vm_compute in Hall. discriminate.
Qed.

(** C9, amended.  For every raw record that becomes a product: the
    stored category is the lower-cased raw value, and "unisex" when that
    is empty; nothing is checked against [Gender], so the stored category
    is one of its values exactly when the lower-cased raw value is empty
    or is one of them already. *)
Theorem C9_gender_lowercased `{Host} (r : RawRecord) (n : nat) (p : Product) (n' : nat) :
  build r n = inr (Some p, n') ->
  (toLowerCase (rawGender r) <> [] -> gender p = toLowerCase (rawGender r)) /\
  (toLowerCase (rawGender r) = [] -> gender p = JS.lit "unisex") /\
  (isGender (gender p) = true <->
     toLowerCase (rawGender r) = [] \/ toLowerCase (rawGender r) ∈ Gender).
Proof.
  intros Hb.
  assert (Hg : gender p = genderOf (rawGender r)).
  { unfold build in Hb. destruct (skipped r); [discriminate Hb|].
    unfold bind in Hb. destruct (buildSizes _ _ n) as [e|[ss n1]]; [discriminate Hb|].
    destruct (JS.nonEmpty (rawId r)); cbn in Hb; by injection Hb as <- _. }
  rewrite Hg. unfold genderOf, isGender.
  destruct (toLowerCase (rawGender r)) as [|c g] eqn:Hlow; simpl.
  - split; [done|]. split; [done|]. split; [by left|]. intros _. reflexivity.
  - split; [done|]. split; [done|]. rewrite bool_decide_eq_true.
    split; [by right | by intros [|]].
Qed.

(** The record [unsized] has no size label, so that its quantity, one
    [Array] would refuse, is never looked at: it becomes a product, of
    the category "adulto". *)
Lemma C9_gender_lowercased_witness :
  exists p n',
    build (H := Sample.host) unsized 0 = inr (Some p, n') /\
    gender p = JS.lit "adulto" /\
    isGender (gender p) = false /\
    Array_ (Num.Math_floor (stockQtyOf (rawStock unsized))) = inl RangeError.
Proof.
  destruct (build (H := Sample.host) unsized 0) as [e|[[p|] n']] eqn:Hb;
    [vm_compute in Hb; discriminate Hb | | vm_compute in Hb; discriminate Hb].
  destruct (C9_gender_lowercased (H := Sample.host) unsized 0 p n' Hb) as (Hlow & _ & _).
  exists p, n'. split; [reflexivity|].
  assert (Hg : gender p = JS.lit "adulto") by (apply Hlow; discriminate).
  split; [exact Hg|]. split; [by rewrite Hg | reflexivity].
Defined.

(** *** C8 *)

Section Rows.
Context `{Host}.
Import JS Value.

(** A row whose [c] is an array: the length test, then the builder. *)
Lemma rowToProduct_array (row : JSValue) (cells : list JSValue) (n : nat) :
  Get row (lit "c") = inr (JArray cells) ->
  rowToProduct row n =
    if Num.lessThan (Num.ofZ (Z.of_nat (length cells))) (Num.ofZ 2)
    then inr (None, n)
    else (r <- lift (project (JArray cells)) ;; build r) n.
Proof.
  intros Hc. unfold rowToProduct, bind, lift.
  rewrite Hc. cbn [ToBoolean negb Get].
  rewrite bool_decide_eq_true_2 by reflexivity.
  unfold lessThan. cbn [ToNumber bindR].
  destruct (Num.lessThan _ _); reflexivity.
Qed.

(** A row of at least two cells is built from the record read off it. *)
Lemma rowToProduct_kept (row : JSValue) (cells : list JSValue) (r : RawRecord) (n : nat) :
  Get row (lit "c") = inr (JArray cells) ->
  2 <= length cells ->
  (Z.of_nat (length cells) < 2 ^ 53)%Z ->
  project (JArray cells) = inr r ->
  rowToProduct row n = build r n.
Proof.
  intros Hc Hlen Hmax Hp. rewrite (rowToProduct_array _ _ _ Hc).
  rewrite lessThan_ofZ_2 by lia.
  destruct (Z.ltb_spec (Z.of_nat (length cells)) 2); [lia|].
  unfold bind, lift. by rewrite Hp.
Qed.

(** Such a row, when its record passes the header test and its unit
    count is one [Array] accepts, yields one product, named as the row. *)
Lemma rowToProduct_survivor (row : JSValue) (cells : list JSValue) (r : RawRecord)
    (n len : nat) :
  Get row (lit "c") = inr (JArray cells) ->
  2 <= length cells ->
  (Z.of_nat (length cells) < 2 ^ 53)%Z ->
  project (JArray cells) = inr r ->
  skipped r = false ->
  Array_ (Num.Math_floor (stockQtyOf (rawStock r))) = inr len ->
  exists p n', rowToProduct row n = inr (Some p, n') /\ name p = rawName r.
Proof.
  intros Hc Hlen Hmax Hp Hs Ha.
  rewrite (rowToProduct_kept row cells r n Hc Hlen Hmax Hp).
  eexists _, _. split; [by eapply build_kept | reflexivity].
Qed.



(** What [rows.map] returns lines up with the rows, one outcome a row. *)
Lemma Array_map_outcomes (rows : list JSValue) (n : nat)
    (outcomes : list (option Product)) (n' : nat) :
  Array_map rowToProduct rows n = inr (outcomes, n') ->
  Forall2 (fun row o => exists m m', rowToProduct row m = inr (o, m')) rows outcomes.
Proof.
  revert n n' outcomes. induction rows as [|row rows IH]; intros n n' outcomes; simpl.
  - unfold ret. intros [= <- _]. constructor.
  - unfold bind, ret.
    destruct (rowToProduct row n) as [e|[o n1]] eqn:Hrow; [discriminate|].
    destruct (Array_map rowToProduct rows n1) as [e|[os n2]] eqn:Hrest; [discriminate|].
    intros [= <- _]. constructor; [by eexists _, _ | by eapply IH].
Qed.


End Rows.

(** The header row is left out and the two products come in row order. *)
Example parseGvizData_in_row_order :
  exists ps n',
    parseGvizData (H := Sample.host) (Sample.table [headerRow; shirtRow; capRow]) 0
      = inr (ps, n')
    /\ map name ps = [JS.lit "Camisa"; JS.lit "Gorra"].
Proof. eexists _, _. split; reflexivity. Qed.

(** *** Where the builder returns *)

Section Totality.
Context `{Host}.
Import JS Value.

Lemma getVal_scalar (cells : list JSValue) (i : nat) :
  forallb scalarCell cells = true -> exists s, getVal (JArray cells) i = inr s.
Proof.
  intros Hall. unfold getVal. cbn [GetIndex bindR].
  destruct (cells !! i) as [cell|] eqn:Hi; cbn [default]; [|by eexists].
  assert (Hcell : scalarCell cell = true).
  { rewrite forallb_forall in Hall. apply Hall, list_elem_of_In.
    by eapply list_elem_of_lookup_2. }
  destruct cell as [| |b|x|s|items|fields]; try discriminate; cbn; [by eexists|].
  cbn in Hcell. destruct (ownProperty (lit "v") fields) as [v|]; cbn; [|by eexists].
  destruct v; try discriminate; cbn; by eexists.
Qed.

Lemma project_scalar (cells : list JSValue) :
  forallb scalarCell cells = true -> exists r, project (JArray cells) = inr r.
Proof.
  intros Hall. unfold project.
  destruct (getVal_scalar cells 0 Hall) as [s0 ->].
  destruct (getVal_scalar cells 1 Hall) as [s1 ->].
  destruct (getVal_scalar cells 2 Hall) as [s2 ->].
  destruct (getVal_scalar cells 3 Hall) as [s3 ->].
  destruct (getVal_scalar cells 4 Hall) as [s4 ->].
  destruct (getVal_scalar cells 5 Hall) as [s5 ->].
  destruct (getVal_scalar cells 6 Hall) as [s6 ->].
  cbn. by eexists.
Qed.

Lemma build_returns (r : RawRecord) (n : nat) :
  admissible r -> exists o n', build r n = inr (o, n').
Proof.
  intros [Hs|[Hl|[len Hlen]]].
  - eexists _, _. by apply build_skipped.
  - unfold build. destruct (skipped r); [by eexists _, _|].
    rewrite Hl. unfold bind. rewrite buildSizes_nil.
    destruct (nonEmpty (rawId r)); by eexists _, _.
  - destruct (skipped r) eqn:Hs; [eexists _, _; by apply build_skipped|].
    eexists _, _. by eapply build_kept.
Qed.

Lemma rowToProduct_returns (row : JSValue) (n : nat) :
  goodRow row -> exists o n', rowToProduct row n = inr (o, n').
Proof.
  intros (cells & Hc & Hall & Hadm). rewrite (rowToProduct_array _ _ _ Hc).
  destruct (Num.lessThan _ _); [by eexists _, _|].
  destruct (project_scalar cells Hall) as [r Hr].
  unfold bind, lift. rewrite Hr. apply build_returns. by apply Hadm.
Qed.

(** X5.  Where the builder does return: on a table whose rows have the
    documented shape (an array [c] of cells that are [null] or objects
    with a scalar [v]) and whose records are each skipped, without a size
    label, or with a unit count [Array] accepts, [parseGvizData] returns
    a sequence of products and throws nothing. *)
Lemma parseGvizData_returns (jsonData : JSValue) (rows : list JSValue) (n : nat) :
  rowsOf jsonData = inr rows ->
  Forall goodRow rows ->
  exists ps n', parseGvizData jsonData n = inr (ps, n').
Proof.
  intros Hrows Hgood. unfold parseGvizData, bind, lift, ret. rewrite Hrows.
  assert (Hmap : exists os n', Array_map rowToProduct rows n = inr (os, n')).
  { clear Hrows. revert n. induction Hgood as [|row rows Hrow _ IH]; intros n; simpl.
    - by eexists _, _.
    - unfold bind, ret. destruct (rowToProduct_returns row n Hrow) as (o & n1 & ->).
      destruct (IH n1) as (os & n2 & ->). by eexists _, _. }
  destruct Hmap as (os & n' & ->). by eexists _, _.
Qed.

End Totality.



(** ** [updateProductStock] *)

Section StockFacts.

Lemma lookup_map {A B} (f : A -> B) (l : list A) (k : nat) :
  map f l !! k = f <$> l !! k.
Proof.
  revert k. induction l as [|x l IH]; intros [|k]; simpl; try reflexivity. apply IH.
Qed.

Lemma element_Some {A} (a : list A) (i : number) (k : nat) (x : A) :
  element a i = Some (k, x) ->
  a !! k = Some x /\ Num.integerValue i = Some (Z.of_nat k).
Proof.
  unfold element. destruct (Num.integerValue i) as [z|]; [|discriminate].
  destruct (Z.leb_spec 0 z); [|discriminate].
  destruct (a !! Z.to_nat z) as [y|] eqn:Hy; [|discriminate].
  simpl. intros [= <- <-]. split; [exact Hy|]. f_equal. lia.
Qed.

Lemma mapRes_Forall2 {A B} (f : A -> Res B) (l : list A) (l' : list B) :
  mapRes f l = inr l' -> Forall2 (fun x y => f x = inr y) l l'.
Proof.
  revert l'. induction l as [|x l IH]; intros l'; simpl.
  - intros [= <-]. constructor.
  - destruct (f x) as [e|y] eqn:Hx; simpl; [discriminate|].
    destruct (mapRes f l) as [e|ys]; simpl; [discriminate|].
    intros [= <-]. constructor; [exact Hx | by apply IH].
Qed.

Lemma mapRes_id {A} (f : A -> Res A) (l : list A) :
  Forall (fun x => f x = inr x) l -> mapRes f l = inr l.
Proof.
  induction 1 as [|x l Hx _ IH]; simpl; [reflexivity|]. by rewrite Hx, IH.
Qed.

Lemma setStatus_id (uid : jsstring) (ns : UnitStatus) (us : list StockUnit) :
  Forall (fun u => unitId u <> uid) us -> map (setStatus uid ns) us = us.
Proof.
  induction 1 as [|u us Hu _ IH]; simpl; [reflexivity|].
  unfold setStatus at 1. rewrite bool_decide_eq_false_2 by exact Hu. by rewrite IH.
Qed.

(** What the callback may change in a product. *)
Lemma updateProduct_frame (pid : jsstring) (idx : number) (uid : jsstring)
    (ns : UnitStatus) (p p' : Product) :
  updateProduct pid idx uid ns p = inr p' ->
  productId p' = productId p /\ name p' = name p /\ description p' = description p /\
  gender p' = gender p /\ imageUrl p' = imageUrl p /\ price p' = price p /\
  length (sizes p') = length (sizes p) /\
  (productId p <> pid -> p' = p) /\
  forall j s s', sizes p !! j = Some s -> sizes p' !! j = Some s' ->
    sizeName s' = sizeName s /\ length (units s') = length (units s) /\
    (Num.integerValue idx <> Some (Z.of_nat j) -> s' = s) /\
    forall k u u', units s !! k = Some u -> units s' !! k = Some u' ->
      unitId u' = unitId u /\ (unitId u <> uid -> u' = u) /\
      (status u' = status u \/
       productId p = pid /\ Num.integerValue idx = Some (Z.of_nat j) /\
       unitId u = uid /\ status u' = ns).
Proof.
  unfold updateProduct.
  destruct (bool_decide (productId p = pid)) eqn:Hpid; simpl.
  - apply bool_decide_eq_true in Hpid.
    destruct (element (sizes p) idx) as [[i s0]|] eqn:Hel; [|discriminate].
    apply element_Some in Hel as [Hi Hz].
    intros [= <-]. simpl. repeat (split; [reflexivity|]).
    split; [apply length_insert|]. split; [congruence|].
    intros j s s' Hs Hs'. destruct (decide (i = j)) as [->|Hne].
    + rewrite list_lookup_insert_eq in Hs' by (eapply lookup_lt_Some; eassumption).
      injection Hs' as <-. simpl. assert (s = s0) as -> by congruence.
      split; [reflexivity|]. split; [apply length_map|]. split; [congruence|].
      intros k u u' Hu Hu'. rewrite lookup_map, Hu in Hu'. simpl in Hu'.
      injection Hu' as <-. unfold setStatus.
      destruct (bool_decide (unitId u = uid)) eqn:Hu'; simpl.
      * apply bool_decide_eq_true in Hu'. split; [reflexivity|]. split; [congruence|].
        right. done.
      * split; [reflexivity|]. split; [reflexivity|]. by left.
    + rewrite list_lookup_insert_ne in Hs' by exact Hne.
      assert (s' = s) as -> by congruence.
      split; [reflexivity|]. split; [reflexivity|]. split; [reflexivity|].
      intros k u u' Hu Hu'. assert (u' = u) as -> by congruence.
      split; [reflexivity|]. split; [reflexivity|]. by left.
  - apply bool_decide_eq_false in Hpid. intros [= <-].
    repeat (split; [reflexivity|]).
    intros j s s' Hs Hs'. assert (s' = s) as -> by congruence.
    split; [reflexivity|]. split; [reflexivity|]. split; [reflexivity|].
    intros k u u' Hu Hu'. assert (u' = u) as -> by congruence.
    split; [reflexivity|]. split; [reflexivity|]. by left.
Qed.

(** A product with another identifier is returned as it is. *)
Lemma updateProduct_other (pid : jsstring) (idx : number) (uid : jsstring)
    (ns : UnitStatus) (p : Product) :
  productId p <> pid -> updateProduct pid idx uid ns p = inr p.
Proof.
  intros Hne. unfold updateProduct. by rewrite bool_decide_eq_false_2.
Qed.

(** A product whose bucket at the index holds no unit with the
    identifier is rebuilt equal to itself. *)
Lemma updateProduct_no_unit (pid : jsstring) (idx : number) (uid : jsstring)
    (ns : UnitStatus) (p : Product) (i : nat) (s : ProductSize) :
  element (sizes p) idx = Some (i, s) ->
  Forall (fun u => unitId u <> uid) (units s) ->
  updateProduct pid idx uid ns p = inr p.
Proof.
  intros Hel Hno. unfold updateProduct.
  destruct (bool_decide (productId p = pid)); simpl; [|reflexivity].
  rewrite Hel. rewrite setStatus_id by exact Hno.
  apply element_Some in Hel as [Hi _].
  rewrite list_insert_id; [by destruct p|]. rewrite Hi. by destruct s.
Qed.

Lemma run_same_products (st : AppState) :
  run st [setProducts (products st)] = st.
Proof. by destruct st. Qed.

(** An unknown product identifier: the setter is called with a
    sequence equal to the current one. *)
Lemma toggle_unknown_product (st : AppState) (pid : jsstring) (idx : number)
    (uid : jsstring) (ns : UnitStatus) :
  Forall (fun p => productId p <> pid) (products st) ->
  updateProductStock st pid idx uid ns = ([setProducts (products st)], inr tt)
  /\ run st (fst (updateProductStock st pid idx uid ns)) = st.
Proof.
  intros Hno. unfold updateProductStock.
  rewrite mapRes_id.
  - split; [reflexivity | apply run_same_products].
  - eapply List.Forall_impl; [|exact Hno]. intros p Hp. by apply updateProduct_other.
Qed.

(** An unknown unit identifier, the bucket index resolving in every
    product that carries the product identifier: the same. *)
Lemma toggle_unknown_unit (st : AppState) (pid : jsstring) (idx : number)
    (uid : jsstring) (ns : UnitStatus) :
  Forall (fun p => productId p = pid ->
                   exists i s, element (sizes p) idx = Some (i, s)
                               /\ Forall (fun u => unitId u <> uid) (units s))
         (products st) ->
  updateProductStock st pid idx uid ns = ([setProducts (products st)], inr tt)
  /\ run st (fst (updateProductStock st pid idx uid ns)) = st.
Proof.
  intros Hno. unfold updateProductStock.
  rewrite mapRes_id.
  - split; [reflexivity | apply run_same_products].
  - eapply List.Forall_impl; [|exact Hno]. intros p Hp.
    destruct (decide (productId p = pid)) as [Heq|Hne].
    + destruct (Hp Heq) as (i & s & Hel & Hu). by eapply updateProduct_no_unit.
    + by apply updateProduct_other.
Qed.

Lemma mapRes_throws {A B} (f : A -> Res B) (l : list A) (e : Exn) :
  Forall (fun x => forall e', f x = inl e' -> e' = e) l ->
  Exists (fun x => f x = inl e) l ->
  mapRes f l = inl e.
Proof.
  intros Hall Hex. induction Hex as [x l Hx|x l Hex IH]; simpl.
  - by rewrite Hx.
  - inversion Hall as [|? ? Hx Hl]; subst.
    destruct (f x) as [e'|y] eqn:Hfx; simpl; [by rewrite (Hx e' eq_refl)|].
    by rewrite IH.
Qed.

Lemma updateProduct_only_TypeError (pid : jsstring) (idx : number) (uid : jsstring)
    (ns : UnitStatus) (p : Product) (e : Exn) :
  updateProduct pid idx uid ns p = inl e -> e = TypeError.
Proof.
  unfold updateProduct. destruct (negb _); [discriminate|].
  destruct (element _ _) as [[i s]|]; [discriminate|]. congruence.
Qed.

End StockFacts.

(** *** C4 *)

(** C4, where the code departs from it.  When a product carries the
    product identifier and the bucket index names none of its buckets,
    the toggle is not a silent no-op: reading [units] of [undefined]
    throws a [TypeError], and [setProducts] is not reached. *)
Theorem C4_unresolved_bucket_throws (st : AppState) (pid : jsstring) (idx : number)
    (uid : jsstring) (ns : UnitStatus) (p : Product) :
  p ∈ products st ->
  productId p = pid ->
  element (sizes p) idx = None ->
  updateProductStock st pid idx uid ns = ([], inl TypeError).
Proof.
  intros Hin Hpid Hel. unfold updateProductStock.
  rewrite (mapRes_throws _ _ TypeError); [reflexivity | |].
  - apply Forall_forall. intros q _ e'. apply updateProduct_only_TypeError.
  - apply Exists_exists. exists p. split; [by apply list_elem_of_In|].
    unfold updateProduct. rewrite bool_decide_eq_true_2 by exact Hpid. simpl.
    by rewrite Hel.
Qed.

Lemma C4_unresolved_bucket_throws_witness :
  updateProductStock stocked (JS.lit "A1") (Num.ofZ 5) (JS.lit "u1") sold
  = ([], inl TypeError).
Proof.
  eapply (C4_unresolved_bucket_throws stocked (JS.lit "A1") (Num.ofZ 5) (JS.lit "u1") sold);
    [apply list_elem_of_here | reflexivity | reflexivity].
Defined.

(** *** C10 *)

(** C10.  Whatever the arguments, a toggle leaves [loading], [error] and
    [debugData] alone and keeps the number of products; position by
    position it keeps every field of a product but [sizes], the number
    of buckets, every bucket label, the number of units of every bucket
    and every unit identifier.  A product with another identifier, a
    bucket at another index and a unit with another identifier are
    unchanged, and a status that differs afterwards is the new status of
    a unit with the given identifier, in the bucket at the given index,
    of a product with the given identifier. *)
Theorem C10_toggle_frame (st : AppState) (pid : jsstring) (idx : number)
    (uid : jsstring) (ns : UnitStatus) :
  let st' := run st (fst (updateProductStock st pid idx uid ns)) in
  loading st' = loading st /\ error st' = error st /\ debugData st' = debugData st /\
  length (products st') = length (products st) /\
  forall i p p', products st !! i = Some p -> products st' !! i = Some p' ->
    productId p' = productId p /\ name p' = name p /\ description p' = description p /\
    gender p' = gender p /\ imageUrl p' = imageUrl p /\ price p' = price p /\
    length (sizes p') = length (sizes p) /\
    (productId p <> pid -> p' = p) /\
    forall j s s', sizes p !! j = Some s -> sizes p' !! j = Some s' ->
      sizeName s' = sizeName s /\ length (units s') = length (units s) /\
      (Num.integerValue idx <> Some (Z.of_nat j) -> s' = s) /\
      forall k u u', units s !! k = Some u -> units s' !! k = Some u' ->
        unitId u' = unitId u /\ (unitId u <> uid -> u' = u) /\
        (status u' = status u \/
         productId p = pid /\ Num.integerValue idx = Some (Z.of_nat j) /\
         unitId u = uid /\ status u' = ns).
Proof.
  unfold updateProductStock.
  destruct (mapRes (updateProduct pid idx uid ns) (products st)) as [e|ps] eqn:Hmap; simpl.
  - repeat (split; [reflexivity|]).
    intros i p p' Hp Hp'. assert (p' = p) as -> by congruence.
    repeat (split; [reflexivity|]).
    intros j s s' Hs Hs'. assert (s' = s) as -> by congruence.
    repeat (split; [reflexivity|]).
    intros k u u' Hu Hu'. assert (u' = u) as -> by congruence.
    split; [reflexivity|]. split; [reflexivity|]. by left.
  - apply mapRes_Forall2 in Hmap.
    repeat (split; [reflexivity|]).
    split; [symmetry; by eapply Forall2_length|].
    intros i p p' Hp Hp'.
    apply (updateProduct_frame pid idx uid ns).
    eapply Forall2_lookup_lr in Hmap; eassumption.
Qed.

Lemma C10_toggle_frame_witness :
  let st' := run stocked (fst (updateProductStock stocked (JS.lit "A1") (Num.ofZ 0)
                                 (JS.lit "u1") sold)) in
  products st' !! 1 = products stocked !! 1 /\
  (forall p', products st' !! 0 = Some p' ->
     forall s', sizes p' !! 0 = Some s' ->
       forall u', units s' !! 1 = Some u' ->
         u' = {| unitId := JS.lit "u2"; status := available |}).
Proof.
  pose proof (C10_toggle_frame stocked (JS.lit "A1") (Num.ofZ 0) (JS.lit "u1") sold)
    as (_ & _ & _ & _ & Hframe).
  split; [reflexivity|].
  intros p' Hp' s' Hs' u' Hu'.
  destruct (Hframe 0 _ p' eq_refl Hp') as (_ & _ & _ & _ & _ & _ & _ & _ & Hsizes).
  destruct (Hsizes 0 _ s' eq_refl Hs') as (_ & _ & _ & Hunits).
  destruct (Hunits 1 _ u' eq_refl Hu') as (_ & Hsame & _).
  apply Hsame. discriminate.
Defined.

(** ** What [indexOf], [lastIndexOf] and [substring] compute *)

Section IndexFacts.
Import JS.
Local Open Scope Z_scope.

Lemma isPrefixOf_app (p s : jsstring) :
  isPrefixOf p s = true -> exists rest, s = p ++ rest.
Proof.
  revert s. induction p as [|a p IH]; intros s; simpl.
  - intros _. by exists s.
  - destruct s as [|b s]; [discriminate|].
    intros [Hab Hp]%andb_true_iff. apply N.eqb_eq in Hab as ->.
    destruct (IH _ Hp) as [rest ->]. by exists rest.
Qed.

(** A found index is the length of what precedes an occurrence. *)
Lemma indexOfFrom_found (needle s : jsstring) (i j : Z) :
  indexOfFrom needle s i = j -> 0 <= i -> j <> -1 ->
  exists pre rest, s = pre ++ needle ++ rest /\ i + Z.of_nat (length pre) = j.
Proof.
  revert i. induction s as [|c s IH]; intros i; simpl.
  - destruct (isPrefixOf needle []) eqn:Hp; [|intros <- _ Hj; congruence].
    intros <- _ _. apply isPrefixOf_app in Hp as [rest Hr].
    exists [], rest. simpl. split; [exact Hr | lia].
  - destruct (isPrefixOf needle (c :: s)) eqn:Hp.
    + intros <- _ _. apply isPrefixOf_app in Hp as [rest Hr].
      exists [], rest. simpl. split; [exact Hr | lia].
    + intros Hj Hi Hne. destruct (IH (i + 1) Hj ltac:(lia) Hne) as (pre & rest & -> & Hlen).
      exists (c :: pre), rest. simpl. split; [reflexivity | lia].
Qed.

Lemma indexOf_found (s needle : jsstring) (j : Z) :
  indexOf s needle = j -> j <> -1 ->
  exists pre rest, s = pre ++ needle ++ rest /\ Z.of_nat (length pre) = j.
Proof.
  intros Hj Hne. destruct (indexOfFrom_found needle s 0 j Hj ltac:(lia) Hne)
    as (pre & rest & Hs & Hlen).
  exists pre, rest. split; [exact Hs | lia].
Qed.

Lemma lastIndexOfFrom_none (c : N) (s : jsstring) (i : Z) :
  lastIndexOfFrom [c] s i = -1 -> 0 <= i -> Forall (fun x => x <> c) s.
Proof.
  revert i. induction s as [|x s IH]; intros i; simpl; [constructor|].
  destruct (lastIndexOfFrom [c] s (i + 1) =? -1) eqn:Hr.
  - apply Z.eqb_eq in Hr. destruct (c =? x)%N eqn:Hcx; simpl; [lia|].
    intros _ Hi. constructor; [|eapply IH; [exact Hr | lia]].
    apply N.eqb_neq in Hcx. congruence.
  - apply Z.eqb_neq in Hr. intros Hr'. congruence.
Qed.

(** The last index of a code unit: nothing after it is that code unit. *)
Lemma lastIndexOfFrom_found (c : N) (s : jsstring) (i p : Z) :
  lastIndexOfFrom [c] s i = p -> 0 <= i -> p <> -1 ->
  exists a b, s = a ++ c :: b /\ i + Z.of_nat (length a) = p /\ Forall (fun x => x <> c) b.
Proof.
  revert i. induction s as [|x s IH]; intros i; simpl; [intros <- _ Hp; congruence|].
  destruct (lastIndexOfFrom [c] s (i + 1) =? -1) eqn:Hr.
  - apply Z.eqb_eq in Hr. destruct (c =? x)%N eqn:Hcx; simpl; [|intros <- _ Hp; congruence].
    apply N.eqb_eq in Hcx as <-. intros <- Hi _. exists [], s. simpl.
    split; [reflexivity|]. split; [lia|]. eapply lastIndexOfFrom_none; [exact Hr | lia].
  - apply Z.eqb_neq in Hr. intros Hp Hi Hne.
    destruct (IH (i + 1) Hp ltac:(lia) Hne) as (a & b & -> & Hlen & Hb).
    exists (x :: a), b. simpl. split; [reflexivity|]. split; [lia | exact Hb].
Qed.

Lemma lastIndexOf_found (s : jsstring) (c : N) (p : Z) :
  lastIndexOf s [c] = p -> p <> -1 ->
  exists a b, s = a ++ c :: b /\ Z.of_nat (length a) = p /\ Forall (fun x => x <> c) b.
Proof.
  intros Hp Hne. destruct (lastIndexOfFrom_found c s 0 p Hp ltac:(lia) Hne)
    as (a & b & Hs & Hlen & Hb).
  exists a, b. split; [exact Hs|]. split; [lia | exact Hb].
Qed.

(** [substring] between two indices in order and in range. *)
Lemma substring_in_range (s : jsstring) (a b : Z) :
  0 <= a <= b -> b <= Z.of_nat (length s) ->
  substring s a b = take (Z.to_nat (b - a)) (drop (Z.to_nat a) s).
Proof.
  intros Hab Hb. unfold substring, clampIndex.
  rewrite (Z.max_l a 0), (Z.max_l b 0) by lia.
  rewrite (Z.min_l a), (Z.min_l b) by lia.
  by rewrite Z.min_l, Z.max_r by lia.
Qed.

End IndexFacts.

(** ** One ingestion cycle *)

Section IngestionFacts.
Context `{Host}.
Import JS Value.

Lemma encodeURIComponent_plain (s : jsstring) :
  isPlain s = true -> exists u, encodeURIComponent s = inr u.
Proof.
  induction s as [|c s IH]; simpl; [by exists []|].
  intros [Hc Hs]%andb_true_iff. destruct (IH Hs) as [u Hu]. rewrite Hu. simpl.
  destruct (isUnreserved c); [by eexists|].
  apply N.ltb_lt in Hc.
  unfold isTrailSurrogate, isLeadSurrogate.
  destruct (N.leb_spec 56320 c); [lia|]. destruct (N.leb_spec 55296 c); [lia|].
  simpl. by eexists.
Qed.

(** On such text the encoding goes piece by piece. *)
Lemma encodeURIComponent_app (a b : jsstring) (ea eb : jsstring) :
  isPlain a = true ->
  encodeURIComponent a = inr ea ->
  encodeURIComponent b = inr eb ->
  encodeURIComponent (a ++ b) = inr (ea ++ eb).
Proof.
  revert ea. induction a as [|c a IH]; intros ea Hp Ha Hb; simpl in *.
  - injection Ha as <-. exact Hb.
  - apply andb_true_iff in Hp as [Hc Hp]. apply N.ltb_lt in Hc.
    assert (Ht : isTrailSurrogate c = false).
    { unfold isTrailSurrogate. destruct (N.leb_spec 56320 c); [lia | reflexivity]. }
    assert (Hl : isLeadSurrogate c = false).
    { unfold isLeadSurrogate. destruct (N.leb_spec 55296 c); [lia | reflexivity]. }
    rewrite Ht, Hl in *.
    destruct (encodeURIComponent a) as [e|ra] eqn:Hra;
      [destruct (isUnreserved c); discriminate|].
    rewrite (IH ra Hp eq_refl Hb). simpl in *.
    destruct (isUnreserved c); injection Ha as <-; [reflexivity|].
    by rewrite <- app_assoc.
Qed.

Lemma digitsOf_plain (fuel : nat) (z : Z) (acc : jsstring) :
  isPlain acc = true -> isPlain (digitsOf fuel z acc) = true.
Proof.
  revert z acc. induction fuel as [|fuel IH]; intros z acc Hacc; simpl; [exact Hacc|].
  assert (Hd : isPlain ((Z.to_N (z mod 10) + 48)%N :: acc) = true).
  { simpl. rewrite Hacc, andb_true_r. apply N.ltb_lt.
    pose proof (Z.mod_pos_bound z 10 ltac:(lia)). lia. }
  destruct (z <? 10)%Z; [exact Hd | by apply IH].
Qed.

Lemma noCacheUrl_plain (t : Z) : isPlain (noCacheUrl t) = true.
Proof.
  unfold noCacheUrl, isPlain. rewrite !forallb_app.
  assert (Hd : forall z, isPlain (decimalString z) = true).
  { intros z. by apply digitsOf_plain. }
  assert (Hi : isPlain (integerString t) = true).
  { unfold integerString. destruct (t <? 0)%Z; [|apply Hd].
    unfold isPlain. cbn [forallb]. apply andb_true_iff. split; [reflexivity | apply Hd]. }
  unfold isPlain in Hi. rewrite Hi. reflexivity.
Qed.

Lemma noCacheUrl_encodes (t : Z) :
  exists u, encodeURIComponent (noCacheUrl t) = inr u.
Proof. apply encodeURIComponent_plain, noCacheUrl_plain. Qed.

(** The encoded address is the encoded feed address followed by the
    encoded time stamp parameter. *)
Lemma noCacheUrl_encoded (t : Z) (g u : jsstring) :
  encodeURIComponent gvizUrl = inr g ->
  encodeURIComponent (noCacheUrl t) = inr u ->
  exists stamp, encodeURIComponent (lit "&_=" ++ integerString t) = inr stamp
                /\ u = g ++ stamp.
Proof.
  intros Hg Hu.
  pose proof (noCacheUrl_plain t) as Hp. unfold noCacheUrl, isPlain in Hp.
  rewrite forallb_app in Hp. apply andb_true_iff in Hp as [Hpg Hps].
  destruct (encodeURIComponent_plain _ Hps) as [stamp Hstamp].
  exists stamp. split; [exact Hstamp|].
  unfold noCacheUrl in Hu.
  rewrite (encodeURIComponent_app _ _ g stamp Hpg Hg Hstamp) in Hu. congruence.
Qed.

(** Each strategy issues exactly one request. *)
Lemma primary_shape (W : World) (u : jsstring) :
  encodeURIComponent (noCacheUrl (now W 0)) = inr u ->
  primary W = ([fetch (allOrigins ++ u)], snd (primary W)).
Proof.
  intros Hu. unfold primary. rewrite Hu.
  unfold bindIO, liftR, emit, throw, pure. cbn.
  destruct (respond W (allOrigins ++ u)) as [e|resp]; cbn; [reflexivity|].
  destruct (ok resp); cbn; [|reflexivity].
  destruct (json resp) as [e|data]; cbn; [reflexivity|].
  destruct (Get data (lit "contents")) as [e|contents]; cbn; [reflexivity|].
  destruct (ToBoolean contents); reflexivity.
Qed.

Lemma backup_shape (W : World) (u : jsstring) :
  encodeURIComponent (noCacheUrl (now W 1)) = inr u ->
  backup W = ([fetch (corsProxy ++ u)], snd (backup W)).
Proof.
  intros Hu. unfold backup. rewrite Hu.
  unfold bindIO, liftR, emit, throw, pure. cbn.
  destruct (respond W (corsProxy ++ u)) as [e|resp]; cbn; [reflexivity|].
  destruct (ok resp); cbn; [|reflexivity].
  destruct (body resp) as [e|text]; reflexivity.
Qed.

(** The three ways [retrieve] can go. *)
Lemma retrieve_cases (W : World) (u1 u2 : jsstring) :
  encodeURIComponent (noCacheUrl (now W 0)) = inr u1 ->
  encodeURIComponent (noCacheUrl (now W 1)) = inr u2 ->
  retrieve W =
    match snd (primary W) with
    | inr v => ([fetch (allOrigins ++ u1)], inr v)
    | inl e1 =>
        match snd (backup W) with
        | inr v =>
            ([fetch (allOrigins ++ u1); consoleWarn e1; fetch (corsProxy ++ u2)], inr v)
        | inl e2 =>
            ([fetch (allOrigins ++ u1); consoleWarn e1; fetch (corsProxy ++ u2);
              consoleError e2], inl (Error retrievalMessage))
        end
    end.
Proof.
  intros H1 H2. unfold retrieve.
  pose proof (primary_shape W u1 H1) as Hp. pose proof (backup_shape W u2 H2) as Hb.
  destruct (primary W) as [ev1 r1]. destruct (backup W) as [ev2 r2].
  cbn [snd] in *. injection Hp as ->. injection Hb as ->.
  destruct r1 as [e1|v]; [|reflexivity]. destruct r2 as [e2|v]; reflexivity.
Qed.

Lemma run_app (st : AppState) (a b : list Event) :
  run st (a ++ b) = run (run st a) b.
Proof. apply fold_left_app. Qed.

Lemma run_quiet (st : AppState) (evs : list Event) :
  forallb quiet evs = true -> run st evs = st.
Proof.
  revert st. induction evs as [|e evs IH]; intros st; simpl; [reflexivity|].
  intros [He Hevs]%andb_true_iff. rewrite <- (IH st Hevs) at 2.
  unfold run. simpl. by destruct e.
Qed.

Lemma quiet_no_setProducts (evs : list Event) (ps : list Product) :
  forallb quiet evs = true -> ~ In (setProducts ps) evs.
Proof.
  intros Hq Hin. rewrite forallb_forall in Hq. by specialize (Hq _ Hin).
Qed.

Lemma retrieve_quiet (W : World) : forallb quiet (fst (retrieve W)) = true.
Proof.
  destruct (noCacheUrl_encodes (now W 0)) as [u1 H1].
  destruct (noCacheUrl_encodes (now W 1)) as [u2 H2].
  rewrite (retrieve_cases W u1 u2 H1 H2).
  destruct (snd (primary W)); [destruct (snd (backup W))|]; reflexivity.
Qed.

Lemma fetchSheet_unfold (W : World) (n : nat) :
  fetchSheet W n =
    [setLoading true; setError None] ++ fst (retrieve W)
    ++ match snd (retrieve W) with
       | inl err => caught err
       | inr jsonText =>
           fst (ingest jsonText n)
           ++ match snd (ingest jsonText n) with
              | inl err => caught err
              | inr _ => []
              end
       end
    ++ [setLoading false].
Proof.
  unfold fetchSheet, andFinally, tryCatch, bindIO, emit, caught.
  destruct (retrieve W) as [evR [err|jsonText]]; cbn.
  - by rewrite <- !app_assoc.
  - destruct (ingest jsonText n) as [evI [err|[]]]; cbn;
      by rewrite <- ?app_assoc, ?app_nil_r.
Qed.

(** What [store] and [ingest] emit. *)
Lemma store_cases (parsed : JSValue) (n : nat) :
  store parsed n =
    match parseGvizData parsed n with
    | inl e => ([], inl e)
    | inr (ps, _) =>
        if (0 <? length ps)%nat then ([setProducts ps; setError None], inr tt)
        else ([consoleLog parsed; setError (Some emptyMessage)], inr tt)
    end.
Proof.
  unfold store, bindIO, liftR, emit.
  destruct (parseGvizData parsed n) as [e|[ps n']]; cbn; [reflexivity|].
  destruct ps; reflexivity.
Qed.

Lemma ingest_cases (text : jsstring) (n : nat) :
  ingest (JString text) n =
    let debug := setDebugData (substring text 0 500 ++ lit "...") in
    if (indexOf text MARKER =? -1)%Z then ([debug; setError (Some formatMessage)], inr tt)
    else
      match JSON_parse (cleanJsonOf text (indexOf text MARKER)) with
      | inl e => ([debug], inl e)
      | inr parsed => (debug :: fst (store parsed n), snd (store parsed n))
      end.
Proof.
  unfold ingest, bindIO, liftR, emit. cbn.
  destruct (indexOf text MARKER =? -1)%Z; cbn; [reflexivity|].
  destruct (JSON_parse _) as [e|parsed]; cbn; [reflexivity|].
  destruct (parseGvizData parsed n) as [e|[[|p ps] n']]; reflexivity.
Qed.

End IngestionFacts.

(** *** C7 *)

(** C7.  Both relay addresses wrap the same encoded feed address
    [gvizUrl], each followed by its own time stamp.  The first request
    always goes to the first relay.  When the first strategy fails (the
    request throws, the status is not a success, the body does not
    decode, or [contents] is missing or empty) the failure is only logged
    and the second relay is asked next; nothing in the retrieval touches
    the error state.  [retrieve] throws only when both strategies have
    failed, and what it throws is the fixed message about connectivity
    and sharing, whatever the two underlying exceptions were; the
    snapshot is kept and the error shown is that message. *)
Theorem C7_retrieval_fallback `{Host} (W : World) (n : nat) (st : AppState) :
  exists u1 u2 feed stamp1 stamp2 : jsstring,
    encodeURIComponent (gvizUrl ++ JS.lit "&_=" ++ JS.integerString (now W 0)) = inr u1 /\
    encodeURIComponent (gvizUrl ++ JS.lit "&_=" ++ JS.integerString (now W 1)) = inr u2 /\
    encodeURIComponent gvizUrl = inr feed /\
    u1 = feed ++ stamp1 /\ u2 = feed ++ stamp2 /\
    let url1 := allOrigins ++ u1 in
    let url2 := corsProxy ++ u2 in
    (forall e, respond W url1 = inl e -> snd (primary W) = inl e) /\
    (forall resp, respond W url1 = inr resp -> ok resp = false ->
       snd (primary W) = inl (Error (JS.lit "AllOrigins Error"))) /\
    (forall resp e, respond W url1 = inr resp -> ok resp = true -> json resp = inl e ->
       snd (primary W) = inl e) /\
    (forall resp data e, respond W url1 = inr resp -> ok resp = true ->
       json resp = inr data -> Value.Get data (JS.lit "contents") = inl e ->
       snd (primary W) = inl e) /\
    (forall resp data contents, respond W url1 = inr resp -> ok resp = true ->
       json resp = inr data -> Value.Get data (JS.lit "contents") = inr contents ->
       Value.ToBoolean contents = false ->
       snd (primary W) = inl (Error (JS.lit "No content"))) /\
    (forall v, snd (primary W) = inr v -> retrieve W = ([fetch url1], inr v)) /\
    (forall e1 v, snd (primary W) = inl e1 -> snd (backup W) = inr v ->
       retrieve W = ([fetch url1; consoleWarn e1; fetch url2], inr v)) /\
    (forall e1 e2, snd (primary W) = inl e1 -> snd (backup W) = inl e2 ->
       retrieve W = ([fetch url1; consoleWarn e1; fetch url2; consoleError e2],
                     inl (Error retrievalMessage)) /\
       products (run st (fetchSheet W n)) = products st /\
       error (run st (fetchSheet W n)) = Some (connectionPrefix ++ retrievalMessage)) /\
    (forall e, snd (retrieve W) = inl e ->
       e = Error retrievalMessage /\
       exists e1 e2, snd (primary W) = inl e1 /\ snd (backup W) = inl e2).
Proof.
  destruct (noCacheUrl_encodes (now W 0)) as [u1 H1].
  destruct (noCacheUrl_encodes (now W 1)) as [u2 H2].
  assert (Hfeed : exists feed, encodeURIComponent gvizUrl = inr feed)
    by (apply encodeURIComponent_plain; reflexivity).
  destruct Hfeed as [feed Hfeed].
  destruct (noCacheUrl_encoded _ feed u1 Hfeed H1) as (stamp1 & _ & Hu1).
  destruct (noCacheUrl_encoded _ feed u2 Hfeed H2) as (stamp2 & _ & Hu2).
  exists u1, u2, feed, stamp1, stamp2.
  split; [exact H1|]. split; [exact H2|]. split; [exact Hfeed|].
  split; [exact Hu1|]. split; [exact Hu2|]. clear Hu1 Hu2 Hfeed. cbn zeta.
  pose proof (retrieve_cases W u1 u2 H1 H2) as Hr.
  assert (Hprim : snd (primary W) =
            match respond W (allOrigins ++ u1) with
            | inl e => inl e
            | inr resp =>
                if ok resp then
                  match json resp with
                  | inl e => inl e
                  | inr data =>
                      match Value.Get data (JS.lit "contents") with
                      | inl e => inl e
                      | inr contents =>
                          if Value.ToBoolean contents then inr contents
                          else inl (Error (JS.lit "No content"))
                      end
                  end
                else inl (Error (JS.lit "AllOrigins Error"))
            end).
  { unfold primary. rewrite H1. unfold bindIO, liftR, emit, throw, pure. cbn.
    destruct (respond W (allOrigins ++ u1)) as [e|resp]; cbn; [reflexivity|].
    destruct (ok resp); cbn; [|reflexivity].
    destruct (json resp) as [e|data]; cbn; [reflexivity|].
    destruct (Value.Get data (JS.lit "contents")) as [e|contents]; cbn; [reflexivity|].
    destruct (Value.ToBoolean contents); reflexivity. }
  split; [|split; [|split; [|split; [|split; [|split; [|split; [|split]]]]]]].
  - intros e He. by rewrite Hprim, He.
  - intros resp Hresp Hok. by rewrite Hprim, Hresp, Hok.
  - intros resp e Hresp Hok Hj. by rewrite Hprim, Hresp, Hok, Hj.
  - intros resp data e Hresp Hok Hj Hg. by rewrite Hprim, Hresp, Hok, Hj, Hg.
  - intros resp data contents Hresp Hok Hj Hg Hb.
    by rewrite Hprim, Hresp, Hok, Hj, Hg, Hb.
  - intros v Hv. by rewrite Hr, Hv.
  - intros e1 v He1 Hv. by rewrite Hr, He1, Hv.
  - intros e1 e2 He1 He2. split; [|split].
    + by rewrite Hr, He1, He2.
    + rewrite fetchSheet_unfold, Hr, He1, He2. reflexivity.
    + rewrite fetchSheet_unfold, Hr, He1, He2. reflexivity.
  - intros e He. rewrite Hr in He.
    destruct (snd (primary W)) as [e1|]; [|discriminate].
    destruct (snd (backup W)) as [e2|]; [|discriminate].
    cbn in He. split; [congruence | by exists e1, e2].
Qed.

Lemma C7_retrieval_fallback_witness :
  (exists u1 u2 : jsstring,
     fetchSheet (H := Sample.host) SampleWorld.offline 0
       = [ setLoading true; setError None;
           fetch (allOrigins ++ u1); consoleWarn TypeError;
           fetch (corsProxy ++ u2); consoleError TypeError;
           consoleError (Error retrievalMessage);
           setError (Some (connectionPrefix ++ retrievalMessage));
           setLoading false ]) /\
  error (run stocked (fetchSheet (H := Sample.host) SampleWorld.offline 0))
    = Some (connectionPrefix ++ retrievalMessage).
Proof.
  destruct (C7_retrieval_fallback (H := Sample.host) SampleWorld.offline 0 stocked)
    as (u1 & u2 & feed & stamp1 & stamp2 & H1 & H2 & _ & _ & _
        & Hthrow & _ & _ & _ & _ & _ & _ & Hboth & _).
  destruct (Hboth TypeError TypeError) as (Hr & _ & Herr).
  - apply Hthrow. reflexivity.
  - reflexivity.
  - split; [|exact Herr].
    exists u1, u2. rewrite (fetchSheet_unfold (H := Sample.host)), Hr. reflexivity.
Defined.

(** *** C5 *)

Section Snapshot.
Context `{Host}.
Import JS Value.

Lemma not_in_quiet_frame (evR : list Event) (ps : list Product) (a b : list Event) :
  forallb quiet evR = true ->
  ~ In (setProducts ps) a -> ~ In (setProducts ps) b ->
  ~ In (setProducts ps) (a ++ evR ++ b).
Proof.
  intros Hq Ha Hb. rewrite !in_app_iff. intros [?|[?|?]]; [done| |done].
  by eapply quiet_no_setProducts.
Qed.

(** The only [setProducts] of a cycle is the one [store] makes, with a
    sequence that is not empty. *)
Lemma fetchSheet_setProducts (W : World) (n : nat) (ps : list Product) :
  In (setProducts ps) (fetchSheet W n) ->
  ps <> [] /\
  exists evR debug,
    forallb quiet evR = true /\
    fetchSheet W n =
      [setLoading true; setError None] ++ evR
      ++ [setDebugData debug; setProducts ps; setError None; setLoading false].
Proof.
  rewrite fetchSheet_unfold.
  pose proof (retrieve_quiet W) as Hq. revert Hq.
  generalize (fst (retrieve W)). intros evR Hq.
  destruct (snd (retrieve W)) as [err|jsonText].
  { intros Hin. exfalso. revert Hin. apply not_in_quiet_frame; [exact Hq | |];
      cbn; intuition discriminate. }
  assert (Hthrow : forall v, ingest v n = ([], inl TypeError) ->
            In (setProducts ps)
               ([setLoading true; setError None] ++ evR
                ++ (fst (ingest v n)
                    ++ match snd (ingest v n) with
                       | inl err => caught err
                       | inr _ => []
                       end) ++ [setLoading false]) -> False).
  { intros v ->. apply not_in_quiet_frame; [exact Hq | |]; cbn; intuition discriminate. }
  destruct jsonText as [| |b|x|text|items|fields];
    try (intros Hin; exfalso; refine (Hthrow _ _ Hin); reflexivity).
  clear Hthrow. rewrite ingest_cases. cbn zeta.
  destruct (indexOf text MARKER =? -1)%Z.
  { intros Hin. exfalso. revert Hin. apply not_in_quiet_frame; [exact Hq | |];
      cbn; intuition discriminate. }
  destruct (JSON_parse _) as [e|parsed].
  { intros Hin. exfalso. revert Hin. apply not_in_quiet_frame; [exact Hq | |];
      cbn; intuition discriminate. }
  rewrite store_cases.
  destruct (parseGvizData parsed n) as [e|[ps' n']].
  { intros Hin. exfalso. revert Hin. apply not_in_quiet_frame; [exact Hq | |];
      cbn; intuition discriminate. }
  destruct ps' as [|p ps'].
  { intros Hin. exfalso. revert Hin. apply not_in_quiet_frame; [exact Hq | |];
      cbn; intuition discriminate. }
  cbn [length Nat.ltb Nat.leb fst snd].
  intros Hin.
  assert (Hps : ps = p :: ps').
  { rewrite !in_app_iff in Hin. cbn [In] in Hin.
    decompose [or] Hin; try discriminate; try contradiction;
      [exfalso; by eapply quiet_no_setProducts | congruence]. }
  subst ps. split; [discriminate|].
  eexists evR, _. split; [exact Hq | reflexivity].
Qed.

End Snapshot.

(** C5.  (1) A cycle that retrieves a text with the marker, decodes it
    and builds no product calls [setProducts] not at all: the products of
    before stay, and the error shown is the "connected, but no product
    rows" message.  (2) Whenever a cycle does call [setProducts], it is
    with a sequence that is not empty, and that sequence is the whole
    snapshot afterwards, with no error shown.  (3) The message of (1) is
    none of the messages the other failures show. *)
Theorem C5_empty_result_keeps_snapshot `{Host} (W : World) (n : nat) (st : AppState) :
  (forall (text : jsstring) (parsed : JSValue) (n' : nat),
     snd (retrieve W) = inr (JString text) ->
     JS.indexOf text MARKER <> (-1)%Z ->
     JSON_parse (cleanJsonOf text (JS.indexOf text MARKER)) = inr parsed ->
     parseGvizData parsed n = inr ([], n') ->
     (forall ps, ~ In (setProducts ps) (fetchSheet W n)) /\
     products (run st (fetchSheet W n)) = products st /\
     error (run st (fetchSheet W n)) = Some emptyMessage) /\
  (forall ps : list Product,
     In (setProducts ps) (fetchSheet W n) ->
     ps <> [] /\
     products (run st (fetchSheet W n)) = ps /\
     error (run st (fetchSheet W n)) = None) /\
  emptyMessage <> formatMessage /\
  (forall err : Exn, emptyMessage <> connectionPrefix ++ messageOf err).
Proof.
  split; [|split; [|split]].
  - intros text parsed n' Hretr Hmark Hparse Hbuild.
    assert (Hev : fetchSheet W n =
              [setLoading true; setError None] ++ fst (retrieve W)
              ++ [setDebugData (JS.substring text 0 500 ++ JS.lit "...");
                  consoleLog parsed; setError (Some emptyMessage); setLoading false]).
    { rewrite fetchSheet_unfold, Hretr, ingest_cases. cbn zeta.
      apply Z.eqb_neq in Hmark. rewrite Hmark, Hparse, store_cases, Hbuild.
      reflexivity. }
    pose proof (retrieve_quiet W) as Hq.
    split; [|split].
    + intros ps. rewrite Hev. apply not_in_quiet_frame; [exact Hq | |];
        cbn; intuition discriminate.
    + rewrite Hev, !run_app, (run_quiet _ (fst (retrieve W)) Hq). reflexivity.
    + rewrite Hev, !run_app, (run_quiet _ (fst (retrieve W)) Hq). reflexivity.
  - intros ps Hin.
    destruct (fetchSheet_setProducts W n ps Hin) as (Hne & evR & debug & Hq & Hev).
    split; [exact Hne|].
    rewrite Hev, !run_app, (run_quiet _ evR Hq). split; reflexivity.
  - intros Heq. vm_compute in Heq. discriminate.
  - intros err Heq. vm_compute in Heq. discriminate.
Qed.

Lemma C5_empty_result_keeps_snapshot_witness :
  let W := SampleWorld.viaBackup (SampleWorld.envelope (JS.lit "{}")) in
  products (run stocked (fetchSheet (H := Sample.host) W 0)) = products stocked /\
  error (run stocked (fetchSheet (H := Sample.host) W 0)) = Some emptyMessage.
Proof.
  intros W.
  destruct (C5_empty_result_keeps_snapshot (H := Sample.host) W 0 stocked) as (Hempty & _).
  destruct (Hempty (SampleWorld.envelope (JS.lit "{}")) (JObject []) 0)
    as (_ & Hproducts & Herror);
    [reflexivity | discriminate | reflexivity | reflexivity |].
  split; [exact Hproducts | exact Herror].
Defined.

(** A cycle that builds one product replaces the snapshot with it. *)
Example fetchSheet_replaces :
  let W := SampleWorld.viaBackup (SampleWorld.envelope Sample.shirtJson) in
  map name (products (run stocked (fetchSheet (H := Sample.host) W 0))) = [JS.lit "Camisa"]
  /\ error (run stocked (fetchSheet (H := Sample.host) W 0)) = None.
Proof. split; reflexivity. Qed.

(** *** C6 *)

(** C6 as stated fails: in [truncated] the marker is present, yet what
    is handed to the decoder cannot lie between the marker and a last
    closing parenthesis, for the text has none; it is the marker
    itself. *)
Lemma C6_counterexample :
  cleanJsonOf truncated (JS.indexOf truncated MARKER) = MARKER /\
  ~ (forall (text : jsstring) (j : Z),
       JS.indexOf text MARKER = j -> j <> (-1)%Z ->
       exists before payload after : jsstring,
         text = before ++ MARKER ++ payload ++ JS.lit ")" ++ after /\
         cleanJsonOf text j = payload).
Proof.
  split; [reflexivity|].
  intros Hall.
  destruct (Hall truncated 0%Z eq_refl ltac:(discriminate))
    as (before & payload & after & Htext & _).
  assert (Hin : In 41%N truncated).
  { rewrite Htext, !in_app_iff. right. right. right. left. by left. }
  vm_compute in Hin. decompose [or] Hin; try discriminate; contradiction.
Qed.

Section Envelope.
Context `{Host}.
Import JS Value.

(** The text between the marker and the last closing parenthesis, when
    that parenthesis comes after the marker. *)
Lemma cleanJsonOf_payload (text : jsstring) (j p : Z) :
  indexOf text MARKER = j -> j <> (-1)%Z ->
  lastIndexOf text (lit ")") = p -> (j + 39 <= p)%Z ->
  exists before after : jsstring,
    text = before ++ MARKER ++ cleanJsonOf text j ++ lit ")" ++ after /\
    Z.of_nat (length before) = j /\
    Forall (fun c => c <> 41%N) after.
Proof.
  intros Hj Hne Hp Hle.
  destruct (indexOf_found text MARKER j Hj Hne) as (before & rest & Htext & Hlen).
  assert (Hp' : p <> (-1)%Z) by lia.
  destruct (lastIndexOf_found text 41%N p Hp Hp') as (a & after & Ha & Hlena & Hafter).
  assert (Hm : length MARKER = 39%nat) by reflexivity.
  assert (Hsplit : exists payload, a = (before ++ MARKER) ++ payload
                                   /\ rest = payload ++ 41%N :: after).
  { rewrite app_assoc in Htext. rewrite Htext in Ha.
    apply app_eq_app in Ha as [l [[H1 H2]|[H1 H2]]].
    - assert (l = []) as ->.
      { apply (f_equal length) in H1. rewrite !length_app, Hm in H1.
        destruct l; [reflexivity|]. simpl in H1. lia. }
      rewrite app_nil_r in H1. simpl in H2. exists [].
      rewrite app_nil_r. split; by symmetry.
    - exists l. split; [exact H1 | exact H2]. }
  destruct Hsplit as (payload & Hapay & Hrest).
  assert (Hclean : cleanJsonOf text j = payload).
  { unfold cleanJsonOf. rewrite Hp.
    assert (Hlp : Z.of_nat (length payload) = (p - (j + 39))%Z).
    { rewrite <- Hlena, Hapay, !length_app, Hm. lia. }
    rewrite substring_in_range.
    - replace (Z.to_nat (j + 39)) with (length (before ++ MARKER))
        by (rewrite length_app, Hm; lia).
      rewrite Htext, app_assoc, drop_app_length, Hrest.
      replace (Z.to_nat (p - (j + 39))) with (length payload) by lia.
      by rewrite take_app_length.
    - lia.
    - rewrite Ha, length_app. simpl. lia. }
  exists before, after. rewrite Hclean.
  split; [|split; [exact Hlen | exact Hafter]].
  rewrite Htext, Hrest. reflexivity.
Qed.

End Envelope.

(** C6, amended.  (1) A text without the marker is never decoded:
    whatever it holds, the error shown is the "unexpected response" one
    and the snapshot stays.  (2) When the marker is present and the last
    closing parenthesis of the text lies at or after the end of the
    marker's first occurrence, the text handed to the decoder is exactly
    what stands between that occurrence, 39 code units long, and that
    parenthesis. *)
Theorem C6_envelope `{Host} :
  (forall (text : jsstring) (n : nat),
     JS.indexOf text MARKER = (-1)%Z ->
     ingest (JString text) n
       = ([ setDebugData (JS.substring text 0 500 ++ JS.lit "...");
            setError (Some formatMessage) ], inr tt)) /\
  (forall (W : World) (n : nat) (st : AppState) (text : jsstring),
     snd (retrieve W) = inr (JString text) ->
     JS.indexOf text MARKER = (-1)%Z ->
     products (run st (fetchSheet W n)) = products st /\
     error (run st (fetchSheet W n)) = Some formatMessage) /\
  (forall (text : jsstring) (n : nat) (j p : Z),
     JS.indexOf text MARKER = j -> j <> (-1)%Z ->
     JS.lastIndexOf text (JS.lit ")") = p -> (j + 39 <= p)%Z ->
     exists before payload after : jsstring,
       text = before ++ MARKER ++ payload ++ JS.lit ")" ++ after /\
       Z.of_nat (length before) = j /\
       length MARKER = 39 /\
       Forall (fun c => c <> 41%N) after /\
       cleanJsonOf text j = payload /\
       ingest (JString text) n
         = (emit (setDebugData (JS.substring text 0 500 ++ JS.lit "...")) ;;;
            parsed <~ liftR (JSON_parse payload) ;;
            store parsed n)).
Proof.
  split; [|split].
  - intros text n Hj. rewrite ingest_cases, Hj. reflexivity.
  - intros W n st text Hretr Hj. pose proof (retrieve_quiet W) as Hq.
    rewrite fetchSheet_unfold, Hretr, ingest_cases, Hj. cbn [snd fst Z.eqb].
    rewrite !run_app, (run_quiet _ (fst (retrieve W)) Hq). split; reflexivity.
  - intros text n j p Hj Hne Hp Hle.
    destruct (cleanJsonOf_payload text j p Hj Hne Hp Hle) as (before & after & Ht & Hl & Ha).
    exists before, (cleanJsonOf text j), after.
    split; [exact Ht|]. split; [exact Hl|]. split; [reflexivity|]. split; [exact Ha|].
    split; [reflexivity|]. unfold ingest. rewrite Hj. apply Z.eqb_neq in Hne. rewrite Hne. reflexivity.
Qed.

Lemma C6_envelope_witness :
  (let W := SampleWorld.viaBackup (JS.lit "<!DOCTYPE html>") in
   error (run stocked (fetchSheet (H := Sample.host) W 0)) = Some formatMessage) /\
  (exists before after : jsstring,
     SampleWorld.envelope Sample.shirtJson
       = before ++ MARKER ++ Sample.shirtJson ++ JS.lit ")" ++ after).
Proof.
  destruct (C6_envelope (H := Sample.host)) as (_ & Hformat & Hpayload).
  split.
  - apply (Hformat (SampleWorld.viaBackup (JS.lit "<!DOCTYPE html>")) 0 stocked
             (JS.lit "<!DOCTYPE html>")); reflexivity.
  - destruct (Hpayload (SampleWorld.envelope Sample.shirtJson) 0 8%Z 130%Z)
      as (before & payload & after & Htext & _ & _ & _ & Hclean & _);
      [reflexivity | discriminate | reflexivity | lia |].
    exists before, after.
    assert (Hp : payload = Sample.shirtJson) by (rewrite <- Hclean; reflexivity).
    rewrite Hp in Htext. exact Htext.
Defined.

(** * Further properties

    What the same code shows beyond the statements above: the quantity
    field and the identifiers of the builder, the outcomes of an
    ingestion cycle and the addresses it requests, and what the views
    do with the snapshot. *)

(** ** The builder: quantities, identifiers and cells *)

Section ParserMore.
Context `{Host}.
Import JS Value.
Local Open Scope Z_scope.

Lemma unitIds_bucketsFrom (n len : nat) (labels : list jsstring) :
  concat (map (fun s => map unitId (units s)) (bucketsFrom n len labels))
  = map randomId (seq n (len * length labels)).
Proof.
  revert n. induction labels as [|l labels IH]; intros n; simpl.
  - by rewrite Nat.mul_0_r.
  - rewrite IH. unfold unitsFrom. rewrite map_map. cbn [unitId].
    replace (len * S (length labels))%nat with (len + len * length labels)%nat by lia.
    by rewrite seq_app, map_app.
Qed.

Lemma digitsValue_app (a : Z) (x y : jsstring) :
  Num.digitsValue a (x ++ y) = Num.digitsValue (Num.digitsValue a x) y.
Proof. revert a. induction x as [|d x IH]; intros a; simpl; [reflexivity | apply IH]. Qed.

Lemma digitsOf_S (f : nat) (z : Z) (acc : jsstring) :
  digitsOf (S f) z acc
  = if z <? 10 then (Z.to_N (z mod 10) + 48)%N :: acc
    else digitsOf f (z / 10) ((Z.to_N (z mod 10) + 48)%N :: acc).
Proof. reflexivity. Qed.

(** The digits [digitsOf] writes, given fuel enough. *)
Lemma digitsOf_spec (f : nat) (z : Z) (acc : jsstring) :
  0 <= z < 2 ^ Z.of_nat (S f) ->
  exists ds, digitsOf (S f) z acc = ds ++ acc /\ ds <> [] /\
             Forall (fun d => Num.isDigit d = true) ds /\
             forall a, Num.digitsValue a ds = a * 10 ^ Z.of_nat (length ds) + z.
Proof.
  revert z acc. induction f as [|f IH]; intros z acc Hz.
  - assert (Hz10 : z < 10) by (change (2 ^ Z.of_nat 1) with 2 in Hz; lia).
    rewrite digitsOf_S. destruct (Z.ltb_spec z 10); [|lia].
    exists [(Z.to_N (z mod 10) + 48)%N]. split; [reflexivity|]. split; [done|].
    rewrite Z.mod_small by lia. split.
    + constructor; [|constructor]. unfold Num.isDigit.
      apply andb_true_iff. split; apply N.leb_le; lia.
    + intros a. cbn [Num.digitsValue length]. change (10 ^ Z.of_nat 1) with 10. lia.
  - rewrite digitsOf_S.
    pose proof (Z.mod_pos_bound z 10 ltac:(lia)) as Hmod.
    assert (Hd : Num.isDigit (Z.to_N (z mod 10) + 48)%N = true).
    { unfold Num.isDigit. apply andb_true_iff. split; apply N.leb_le; lia. }
    destruct (Z.ltb_spec z 10) as [Hlt|Hge].
    + exists [(Z.to_N (z mod 10) + 48)%N]. split; [reflexivity|]. split; [done|].
      split; [by repeat constructor|].
      intros a. cbn [Num.digitsValue length]. change (10 ^ Z.of_nat 1) with 10.
      rewrite Z.mod_small by lia. lia.
    + assert (Hq : 0 <= z / 10 < 2 ^ Z.of_nat (S f)).
      { split; [apply Z.div_pos; lia|].
        apply Z.div_lt_upper_bound; [lia|].
        rewrite (Nat2Z.inj_succ (S f)), Z.pow_succ_r in Hz by lia. lia. }
      destruct (IH (z / 10) ((Z.to_N (z mod 10) + 48)%N :: acc) Hq)
        as (ds & Heq & Hne & Hall & Hval).
      exists (ds ++ [(Z.to_N (z mod 10) + 48)%N]).
      split; [by rewrite Heq, <- app_assoc|].
      split; [by destruct ds|].
      split; [apply Forall_app; split; [exact Hall | by repeat constructor]|].
      intros a. rewrite digitsValue_app, Hval. cbn [Num.digitsValue].
      rewrite length_app. cbn [length]. rewrite Nat.add_1_r, Nat2Z.inj_succ, Z.pow_succ_r by lia.
      pose proof (Z.div_mod z 10 ltac:(lia)). lia.
Qed.

Lemma decimalString_spec (z : Z) :
  0 <= z ->
  exists ds, decimalString z = ds /\ ds <> [] /\
             Forall (fun d => Num.isDigit d = true) ds /\
             Num.digitsValue 0 ds = z.
Proof.
  intros Hz. unfold decimalString.
  destruct (digitsOf_spec (Z.to_nat (Z.log2 z)) z []) as (ds & Heq & Hne & Hall & Hval).
  - split; [exact Hz|]. rewrite Nat2Z.inj_succ, Z2Nat.id by apply Z.log2_nonneg.
    destruct (Z.eq_dec z 0) as [->|Hnz]; [reflexivity|].
    apply Z.log2_spec. lia.
  - exists ds. rewrite Heq, app_nil_r. split; [reflexivity|]. split; [exact Hne|].
    split; [exact Hall|]. rewrite Hval. lia.
Qed.

Lemma digit_cases (d : N) :
  Num.isDigit d = true ->
  (d = 48 \/ d = 49 \/ d = 50 \/ d = 51 \/ d = 52 \/ d = 53 \/ d = 54 \/ d = 55 \/ d = 56
   \/ d = 57)%N.
Proof.
  unfold Num.isDigit. intros [Hlo Hhi]%andb_true_iff. apply N.leb_le in Hlo, Hhi. lia.
Qed.

Lemma takeWhile_Forall {A} (f : A -> bool) (l : list A) :
  Forall (fun x => f x = true) l -> takeWhile f l = l /\ dropWhile f l = [].
Proof.
  induction 1 as [|x l Hx _ [IH1 IH2]]; simpl; [done|]. rewrite Hx. by rewrite IH1, IH2.
Qed.

(** A run of digits scans as the integer it writes. *)
Lemma scanUnsigned_digits (neg : bool) (ds : jsstring) :
  ds <> [] -> Forall (fun d => Num.isDigit d = true) ds ->
  Num.scanUnsigned neg ds = Some (Num.SDecimal neg (Num.digitsValue 0 ds) 0, []).
Proof.
  intros Hne Hall. unfold Num.scanUnsigned.
  destruct (takeWhile_Forall _ _ Hall) as [-> ->].
  assert (Hinf : isPrefixOf (lit "Infinity") ds = false).
  { destruct ds as [|d ds]; [done|]. inversion Hall as [|? ? Hd _]; subst.
    apply digit_cases in Hd. decompose [or] Hd; subst; reflexivity. }
  rewrite Hinf. destruct ds as [|d ds]; [done|].
  cbn [Num.scanExponent]. by rewrite app_nil_r.
Qed.

(** [parseFloat] of a decimal integer, with or without a minus sign, is
    that integer. *)
Lemma parseFloat_integerString (z : Z) :
  Num.parseFloat (integerString z)
  = if z =? 0 then S754_zero false else binary_normalize 53 1024 z 0 (z <? 0).
Proof.
  unfold integerString. destruct (Z.ltb_spec z 0) as [Hneg|Hpos].
  - destruct (decimalString_spec (- z) ltac:(lia)) as (ds & -> & Hne & Hall & Hval).
    unfold Num.parseFloat, trimStart. cbn [dropWhile isWhiteSpace].
    change (isWhiteSpace 45) with false. cbn [Num.scanStrDecimalLiteral].
    rewrite (scanUnsigned_digits true ds Hne Hall), Hval. cbn [Num.numericValue].
    destruct (Z.eqb_spec (- z) 0); [lia|]. destruct (Z.eqb_spec z 0); [lia|].
    unfold Num.roundDecimal. cbn [Z.leb Z.compare]. f_equal. cbn [cond_Zopp Z.pow]. lia.
  - destruct (decimalString_spec z Hpos) as (ds & -> & Hne & Hall & Hval).
    destruct ds as [|d ds]; [done|].
    assert (Hd : Num.isDigit d = true) by (by inversion Hall).
    assert (Hscan : Num.parseFloat (d :: ds)
                    = match Num.scanUnsigned false (d :: ds) with
                      | Some (l, _) => Num.numericValue l
                      | None => Num.NaN
                      end).
    { apply digit_cases in Hd. decompose [or] Hd; subst; reflexivity. }
    rewrite Hscan, (scanUnsigned_digits false (d :: ds) Hne Hall), Hval.
    cbn [Num.numericValue]. destruct (Z.eqb_spec z 0); [reflexivity|].
    unfold Num.roundDecimal. cbn [Z.leb Z.compare]. f_equal. cbn [cond_Zopp Z.pow]. lia.
Qed.

(** [Math.floor] leaves an integer as it is. *)
Lemma Math_floor_integer (z : Z) (s : bool) :
  - 2 ^ 53 < z < 2 ^ 53 ->
  Num.integerValue (Num.Math_floor (binary_normalize 53 1024 z 0 s)) = Some z.
Proof.
  intros Hz.
  assert (Hpos : forall sx p, Zpos p < 2 ^ 53 ->
            Num.integerValue (Num.Math_floor (binary_round 53 1024 sx p 0))
            = Some (cond_Zopp sx (Zpos p))).
  { intros sx p Hp. pose proof (digits2_pos_bound p) as [Hlo _].
    assert (Hd : Zpos (digits2_pos p) <= 53).
    { destruct (Z.le_gt_cases (Zpos (digits2_pos p)) 53) as [|Hgt]; [done|].
      assert (2 ^ 53 <= 2 ^ (Zpos (digits2_pos p) - 1)) by (apply Z.pow_le_mono_r; lia).
      lia. }
    pose proof (integerValue_binary_normalize (cond_Zopp sx (Zpos p)) sx) as Hiv.
    assert (Hbn : binary_normalize 53 1024 (cond_Zopp sx (Zpos p)) 0 sx
                  = binary_round 53 1024 sx p 0) by (by destruct sx).
    rewrite Hbn in Hiv.
    destruct (binary_round_small sx p Hd) as (mz & Hbr & Hmz). rewrite Hbr in *.
    cbn [Num.Math_floor].
    destruct (Z.leb_spec 0 (Zpos (digits2_pos p) - 53)) as [Hge|Hlt].
    - apply Hiv. destruct sx; simpl; lia.
    - assert (Hfl : Num.floorZ sx mz (Zpos (digits2_pos p) - 53) = cond_Zopp sx (Zpos p)).
      { unfold Num.floorZ. destruct (Z.leb_spec 0 (Zpos (digits2_pos p) - 53)); [lia|].
        rewrite Z.shiftr_div_pow2 by lia.
        replace (- (Zpos (digits2_pos p) - 53)) with (53 - Zpos (digits2_pos p)) by lia.
        destruct sx; cbn [cond_Zopp].
        - rewrite Hmz, <- Z.mul_opp_l, Z.div_mul by lia. reflexivity.
        - rewrite Hmz, Z.div_mul by lia. reflexivity. }
      rewrite Hfl. apply integerValue_binary_normalize. destruct sx; simpl; lia. }
  destruct z as [|p|p]; cbn [binary_normalize].
  - reflexivity.
  - rewrite Hpos; [reflexivity | lia].
  - rewrite Hpos; [reflexivity | lia].
Qed.

(** The length [Array] is called with for a quantity field that is a
    decimal integer. *)
Lemma Array_integerString (z : Z) :
  - 2 ^ 53 < z < 2 ^ 53 ->
  Array_ (Num.Math_floor (stockQtyOf (integerString z)))
  = if (0 <=? z) && (z <? 2 ^ 32) then inr (Z.to_nat z) else inl RangeError.
Proof.
  intros Hz. unfold stockQtyOf. rewrite parseFloat_integerString.
  destruct (Z.eqb_spec z 0) as [->|Hnz]; [reflexivity|].
  assert (Hor : Num.orZero (binary_normalize 53 1024 z 0 (z <? 0))
                = binary_normalize 53 1024 z 0 (z <? 0)).
  { pose proof (integerValue_binary_normalize z (z <? 0) Hz) as Hiv.
    destruct (binary_normalize 53 1024 z 0 (z <? 0)) as [b|b| |b m e]; try reflexivity.
    - cbn in Hiv. congruence.
    - discriminate. }
  rewrite Hor. unfold Array_. by rewrite Math_floor_integer.
Qed.

Lemma getVal_no_value (cells : list JSValue) (idx : nat) (fields : list (jsstring * JSValue)) :
  cells !! idx = Some (JObject fields) ->
  ownProperty (lit "v") fields = None ->
  getVal (JArray cells) idx = inr (lit "undefined").
Proof.
  intros Hc Hv. unfold getVal. cbn [GetIndex bindR]. rewrite Hc. cbn. by rewrite Hv.
Qed.

Lemma project_name (cells : list JSValue) (r : RawRecord) (s : jsstring) :
  getVal (JArray cells) 1 = inr s -> project (JArray cells) = inr r -> rawName r = s.
Proof.
  intros Hs. unfold project. rewrite Hs.
  destruct (getVal (JArray cells) 0) as [e|s0]; [discriminate|].
  destruct (getVal (JArray cells) 2) as [e|s2]; [discriminate|].
  destruct (getVal (JArray cells) 3) as [e|s3]; [discriminate|].
  destruct (getVal (JArray cells) 4) as [e|s4]; [discriminate|].
  destruct (getVal (JArray cells) 5) as [e|s5]; [discriminate|].
  destruct (getVal (JArray cells) 6) as [e|s6]; [discriminate|].
  cbn. by intros [= <-].
Qed.

End ParserMore.

(** X1.  A quantity field that is a decimal integer [z] (digits, with a
    minus sign when negative), on a record that passes the header test:
    for [0 <= z < 2^32] every bucket gets exactly [z] units; for a
    negative [z], and for [z >= 2^32], [Array] refuses the length and,
    as soon as there is one size label, the builder ends in a
    [RangeError]. *)
Theorem quantity_numeral `{Host} (r : RawRecord) (n : nat) (z : Z) :
  skipped r = false ->
  rawStock r = JS.integerString z ->
  (- 2 ^ 53 < z < 2 ^ 53)%Z ->
  ((0 <= z < 2 ^ 32)%Z ->
   exists p n', build r n = inr (Some p, n') /\
     map sizeName (sizes p) = sizeListOf (rawSizes r) /\
     Forall (fun b => length (units b) = Z.to_nat z) (sizes p)) /\
  ((z < 0 \/ 2 ^ 32 <= z)%Z -> sizeListOf (rawSizes r) <> [] ->
   build r n = inl RangeError).
Proof.
  intros Hs Hraw Hz.
  pose proof (Array_integerString z Hz) as Hlen. rewrite <- Hraw in Hlen.
  split.
  - intros Hrange.
    destruct (Z.leb_spec 0 z); [|lia]. destruct (Z.ltb_spec z (2 ^ 32)); [|lia].
    cbn [andb] in Hlen.
    eexists _, _. split; [by apply build_kept|]. cbn [sizes].
    split; [apply bucketsFrom_names|].
    eapply List.Forall_impl; [|apply bucketsFrom_units]. by intros b [Hb _].
  - intros Hout Hl.
    assert (Hno : ((0 <=? z) && (z <? 2 ^ 32))%Z = false).
    { destruct (Z.leb_spec 0 z); destruct (Z.ltb_spec z (2 ^ 32)); try reflexivity; lia. }
    rewrite Hno in Hlen.
    unfold build. rewrite Hs. unfold bind.
    destruct (sizeListOf (rawSizes r)) as [|l ls]; [congruence|].
    by rewrite (buildSizes_throws _ RangeError).
Qed.

Lemma quantity_numeral_witness :
  exists p n', build (H := Sample.host) adult 0 = inr (Some p, n') /\
    Forall (fun b => length (units b) = 1%nat) (sizes p).
Proof.
  destruct (quantity_numeral (H := Sample.host) adult 0 1) as [Hok _].
  - reflexivity.
  - reflexivity.
  - lia.
  - destruct Hok as (p & n' & Hb & _ & Hu); [lia|].
    exists p, n'. split; [exact Hb | exact Hu].
Defined.

(** *** Numeric cells: [String] and [parseFloat] on integers *)

Section NumericCells.
Context `{Host}.
Import JS Num.
Local Open Scope Z_scope.

(** Two positive integers below [2^53] are the same binary64 value only
    when they are the same integer. *)
Lemma SFeqb_ofZ (a b : Z) :
  0 < a < 2 ^ 53 -> 0 < b < 2 ^ 53 -> SFeqb (ofZ a) (ofZ b) = (a =? b).
Proof.
  intros Ha Hb. destruct a as [|pa|pa]; [lia| |lia]. destruct b as [|pb|pb]; [lia| |lia].
  unfold ofZ. cbn [binary_normalize].
  assert (Hd : forall p, Zpos p < 2 ^ 53 -> Zpos (digits2_pos p) <= 53).
  { intros p Hp. pose proof (digits2_pos_bound p) as [Hlo _].
    destruct (Z.le_gt_cases (Zpos (digits2_pos p)) 53) as [|Hgt]; [done|].
    assert (2 ^ 53 <= 2 ^ (Zpos (digits2_pos p) - 1)) by (apply Z.pow_le_mono_r; lia).
    lia. }
  pose proof (Hd pa ltac:(lia)) as Hda. pose proof (Hd pb ltac:(lia)) as Hdb.
  destruct (binary_round_small false pa Hda) as (ma & -> & Hma).
  destruct (binary_round_small false pb Hdb) as (mb & -> & Hmb).
  pose proof (digits2_pos_bound pa) as [Hla Hua].
  pose proof (digits2_pos_bound pb) as [Hlb Hub].
  unfold SFeqb, SFcompare.
  destruct (Z.compare_spec (Zpos (digits2_pos pa) - 53) (Zpos (digits2_pos pb) - 53))
    as [He|He|He].
  - assert (Hdd : Zpos (digits2_pos pa) = Zpos (digits2_pos pb)) by lia.
    rewrite Pos.compare_cont_spec. cbn [Pos.switch_Eq].
    rewrite Hdd in Hma.
    assert (Hpow : 0 < 2 ^ (53 - Zpos (digits2_pos pb))) by (apply Z.pow_pos_nonneg; lia).
    destruct (Pos.compare_spec ma mb) as [Hc|Hc|Hc].
    + subst mb. symmetry. apply Z.eqb_eq.
      assert (Zpos pa * 2 ^ (53 - Zpos (digits2_pos pb))
              = Zpos pb * 2 ^ (53 - Zpos (digits2_pos pb))) by congruence.
      nia.
    + symmetry. apply Z.eqb_neq. intros Heq. apply Pos2Z.pos_lt_pos in Hc.
      rewrite Hma, Hmb, Heq in Hc. lia.
    + symmetry. apply Z.eqb_neq. intros Heq. apply Pos2Z.pos_lt_pos in Hc.
      rewrite Hma, Hmb, Heq in Hc. lia.
  - symmetry. apply Z.eqb_neq. intros [= ->]. lia.
  - symmetry. apply Z.eqb_neq. intros [= ->]. lia.
Qed.

Lemma pow10_le_scaled (n z c : Z) :
  0 < z -> 0 < c ->
  pow10_le n (z * c) c = if 0 <=? n then 10 ^ n <=? z else true.
Proof.
  intros Hz Hc. unfold pow10_le. destruct (Z.leb_spec 0 n) as [Hn|Hn].
  - destruct (Z.leb_spec (10 ^ n) z) as [Hle|Hgt].
    + apply Z.leb_le. nia.
    + apply Z.leb_gt. nia.
  - apply Z.leb_le. assert (Ht : 0 < 10 ^ (- n)) by (apply Z.pow_pos_nonneg; lia).
    assert (Hzt : 1 <= z * 10 ^ (- n)) by nia.
    rewrite <- Z.mul_assoc, (Z.mul_comm c), Z.mul_assoc.
    rewrite <- (Z.mul_1_l c) at 1. apply Z.mul_le_mono_nonneg_r; lia.
Qed.

Lemma raiseWhile_spec (fuel : nat) (p q n : Z) :
  n <= raiseWhile fuel p q n <= n + Z.of_nat fuel /\
  (forall m, n <= m < raiseWhile fuel p q n -> pow10_le m p q = true) /\
  (raiseWhile fuel p q n < n + Z.of_nat fuel -> pow10_le (raiseWhile fuel p q n) p q = false).
Proof.
  revert n. induction fuel as [|fuel IH]; intros n.
  - cbn [raiseWhile]. split; [lia|]. split; [intros m Hm; lia | lia].
  - cbn [raiseWhile]. destruct (pow10_le n p q) eqn:Hn.
    + destruct (IH (n + 1)) as (Hr & Hbelow & Hstop).
      split; [lia|]. split.
      * intros m Hm. destruct (Z.eq_dec m n) as [->|Hne]; [exact Hn|]. apply Hbelow. lia.
      * intros Hlt. apply Hstop. lia.
    + split; [lia|]. split; [intros m Hm; lia | by intros _].
Qed.

(** The estimate of the decimal exponent is at most seven short, for
    every integer below [2^50]. *)
Lemma exponent_estimate (k : nat) :
  (k < 50)%nat ->
  let L := Z.of_nat k in
  let n0 := L * 30103 / 100000 - 2 in
  ((n0 - 1 <? 0) || (10 ^ (n0 - 1) <=? 2 ^ L)) && (2 ^ (L + 1) <=? 10 ^ (n0 + 7))
  && (0 <=? n0 + 7) = true.
Proof.
  intros Hk. do 50 (destruct k as [|k]; [vm_compute; reflexivity|]). lia.
Qed.

(** The decimal exponent of a positive integer below [10^15], whatever
    power of two scales numerator and denominator. *)
Lemma decimalExponent_integer (z s : Z) :
  0 < z < 10 ^ 15 -> 0 <= s ->
  1 <= decimalExponent (z * 2 ^ s) (2 ^ s) <= 15 /\
  10 ^ (decimalExponent (z * 2 ^ s) (2 ^ s) - 1) <= z
  < 10 ^ decimalExponent (z * 2 ^ s) (2 ^ s).
Proof.
  intros Hz Hs. unfold decimalExponent.
  rewrite Z.log2_mul_pow2, Z.log2_pow2 by lia.
  replace (s + Z.log2 z - s) with (Z.log2 z) by lia.
  assert (Hc : 0 < 2 ^ s) by (apply Z.pow_pos_nonneg; lia).
  pose proof (Z.log2_spec z ltac:(lia)) as [Hlo Hhi].
  pose proof (Z.log2_nonneg z) as HL0.
  assert (HL : Z.log2 z < 50).
  { apply Z.log2_lt_pow2; [lia|]. assert (10 ^ 15 < 2 ^ 50) by reflexivity. lia. }
  pose proof (exponent_estimate (Z.to_nat (Z.log2 z)) ltac:(lia)) as Hest.
  cbn zeta in Hest. rewrite Z2Nat.id in Hest by lia.
  set (n0 := Z.log2 z * 30103 / 100000 - 2) in *.
  apply andb_true_iff in Hest as [Hest Hn7]. apply andb_true_iff in Hest as [Hlow Hup].
  apply Z.leb_le in Hn7, Hup. replace (Z.succ (Z.log2 z)) with (Z.log2 z + 1) in Hhi by lia.
  destruct (raiseWhile_spec 8 (z * 2 ^ s) (2 ^ s) n0) as (Hr & Hbelow & Hstop).
  set (N := raiseWhile 8 (z * 2 ^ s) (2 ^ s) n0) in *.
  change (Z.of_nat 8) with 8 in *.
  assert (HP : forall m, pow10_le m (z * 2 ^ s) (2 ^ s) = if 0 <=? m then 10 ^ m <=? z else true).
  { intros m. apply pow10_le_scaled; lia. }
  assert (Hlt : N < n0 + 8).
  { destruct (Z.eq_dec N (n0 + 8)) as [HN|HN]; [|lia].
    specialize (Hbelow (n0 + 7) ltac:(lia)). rewrite HP in Hbelow.
    destruct (Z.leb_spec 0 (n0 + 7)); [|lia]. apply Z.leb_le in Hbelow. lia. }
  specialize (Hstop Hlt). rewrite HP in Hstop.
  destruct (Z.leb_spec 0 N) as [HN0|HN0]; [|discriminate]. apply Z.leb_gt in Hstop.
  assert (HN1 : 1 <= N).
  { destruct (Z.eq_dec N 0) as [HN|HN]; [|lia]. rewrite HN in Hstop. simpl in Hstop. lia. }
  assert (Hbase : 10 ^ (N - 1) <= z).
  { destruct (Z.eq_dec N n0) as [HN|HN].
    - apply orb_true_iff in Hlow as [Hneg|Hle].
      + apply Z.ltb_lt in Hneg. lia.
      + apply Z.leb_le in Hle. rewrite HN. lia.
    - specialize (Hbelow (N - 1) ltac:(lia)). rewrite HP in Hbelow.
      destruct (Z.leb_spec 0 (N - 1)); [|lia]. by apply Z.leb_le in Hbelow. }
  split; [|split; [exact Hbase | exact Hstop]].
  split; [exact HN1|].
  destruct (Z.le_gt_cases N 15) as [|Hbig]; [done|].
  assert (10 ^ 15 <= 10 ^ (N - 1)) by (apply Z.pow_le_mono_r; lia). lia.
Qed.

(** Whether an integer candidate [s * 10^j] is read back as [z]. *)
Lemma roundsTo_integer (z s n k : Z) :
  0 < z < 2 ^ 53 -> 0 <= n - k -> 0 < s * 10 ^ (n - k) < 2 ^ 53 ->
  roundsTo (ofZ z) s n k = (s * 10 ^ (n - k) =? z).
Proof.
  intros Hz Hj Hs. unfold roundsTo, roundDecimal.
  destruct (Z.leb_spec 0 (n - k)); [|lia]. cbn [cond_Zopp].
  change (binary_normalize 53 1024 (s * 10 ^ (n - k)) 0 false) with (ofZ (s * 10 ^ (n - k))).
  by apply SFeqb_ofZ.
Qed.

(** With [k] digits, the only candidate that can be read back as an
    integer [z] of [N] digits is [z] without its last [N - k] digits. *)
Lemma candidate_choice (z N k r sq : Z) (next : Z * Z * Z) :
  0 < z < 10 ^ 15 -> 1 <= N <= 15 -> 10 ^ (N - 1) <= z < 10 ^ N -> 1 <= k <= N ->
  let lo := z / 10 ^ (N - k) in
  (let '(hi, hn) :=
     if lo + 1 =? 10 ^ k then (10 ^ (k - 1), N + 1) else (lo + 1, N) in
   match roundsTo (ofZ z) lo N k, roundsTo (ofZ z) hi hn k with
   | true, true =>
       match 2 * r ?= sq with
       | Lt => (lo, N, k)
       | Gt => (hi, hn, k)
       | Eq => if Z.even lo then (lo, N, k) else (hi, hn, k)
       end
   | true, false => (lo, N, k)
   | false, true => (hi, hn, k)
   | false, false => next
   end) = if lo * 10 ^ (N - k) =? z then (lo, N, k) else next.
Proof.
  intros Hz HN Hdig Hk lo.
  assert (H53 : 10 ^ 15 < 2 ^ 53) by reflexivity.
  assert (Hj : 0 < 10 ^ (N - k)) by (apply Z.pow_pos_nonneg; lia).
  assert (HpN : 10 ^ N = 10 ^ k * 10 ^ (N - k)).
  { rewrite <- Z.pow_add_r by lia. f_equal. lia. }
  assert (HpN1 : 10 ^ (N - 1) = 10 ^ (k - 1) * 10 ^ (N - k)).
  { rewrite <- Z.pow_add_r by lia. f_equal. lia. }
  assert (HN15 : 10 ^ N <= 10 ^ 15) by (apply Z.pow_le_mono_r; lia).
  assert (Hk1 : 0 < 10 ^ (k - 1)) by (apply Z.pow_pos_nonneg; lia).
  pose proof (Z.div_mod z (10 ^ (N - k)) ltac:(lia)) as Hdm.
  pose proof (Z.mod_pos_bound z (10 ^ (N - k)) Hj) as Hmod.
  fold lo in Hdm.
  assert (Hlo1 : 10 ^ (k - 1) <= lo).
  { apply Z.div_le_lower_bound; [lia|]. rewrite Z.mul_comm. lia. }
  assert (Hlo2 : lo < 10 ^ k).
  { apply Z.div_lt_upper_bound; [lia|]. rewrite Z.mul_comm. lia. }
  assert (Hlow : lo * 10 ^ (N - k) <= z) by lia.
  assert (Hup : z < (lo + 1) * 10 ^ (N - k)) by lia.
  assert (Hlo : roundsTo (ofZ z) lo N k = (lo * 10 ^ (N - k) =? z)).
  { apply roundsTo_integer; [lia | lia | nia]. }
  assert (Hhi : forall hi hn, hn - k >= 0 -> z < hi * 10 ^ (hn - k) <= 10 ^ N ->
                  roundsTo (ofZ z) hi hn k = false).
  { intros hi hn Hge Hval. rewrite roundsTo_integer by lia. apply Z.eqb_neq. lia. }
  destruct (Z.eqb_spec (lo + 1) (10 ^ k)) as [Heq|Hne].
  - rewrite Hlo, (Hhi (10 ^ (k - 1)) (N + 1)).
    + by destruct (lo * 10 ^ (N - k) =? z).
    + lia.
    + replace (N + 1 - k) with (1 + (N - k)) by lia.
      rewrite Z.pow_add_r by lia. change (10 ^ 1) with 10.
      assert (10 ^ k = 10 * 10 ^ (k - 1)).
      { rewrite <- (Z.pow_succ_r 10 (k - 1)) by lia. f_equal. lia. }
      nia.
  - rewrite Hlo, (Hhi (lo + 1) N).
    + by destruct (lo * 10 ^ (N - k) =? z).
    + lia.
    + nia.
Qed.

(** The search for the shortest digits of a positive integer [z] below
    [10^15] ends with the digits of [z] without trailing zeros. *)
Lemma shortestDigits_integer (z c N : Z) (fuel : nat) (k : Z) :
  0 < z < 10 ^ 15 -> 0 < c -> 1 <= N <= 15 -> 10 ^ (N - 1) <= z < 10 ^ N ->
  1 <= k <= N -> N - k < Z.of_nat fuel ->
  exists k', k <= k' <= N /\ z / 10 ^ (N - k') * 10 ^ (N - k') = z /\
             shortestDigits fuel (ofZ z) (z * c) c N k = (z / 10 ^ (N - k'), N, k').
Proof.
  intros Hz Hc HN Hdig. revert k. induction fuel as [|f IH]; intros k Hk Hf; [lia|].
  assert (Hj : 0 < 10 ^ (N - k)) by (apply Z.pow_pos_nonneg; lia).
  assert (Hstep : shortestDigits (S f) (ofZ z) (z * c) c N k
                  = if z / 10 ^ (N - k) * 10 ^ (N - k) =? z then (z / 10 ^ (N - k), N, k)
                    else shortestDigits f (ofZ z) (z * c) c N (k + 1)).
  { cbn [shortestDigits]. destruct (Z.leb_spec 0 (k - N)) as [Hkn|Hkn].
    - assert (k = N) by lia. subst k.
      replace (N - N) with 0 by lia. change (10 ^ 0) with 1.
      rewrite Z.mul_1_r, Z.div_mul by lia.
      pose proof (candidate_choice z N N (z * c mod c) c
                    (shortestDigits f (ofZ z) (z * c) c N (N + 1)) Hz HN Hdig Hk) as Hcc.
      cbn zeta in Hcc. replace (N - N) with 0 in Hcc by lia. change (10 ^ 0) with 1 in Hcc.
      rewrite Z.div_1_r in Hcc. rewrite Z.div_1_r. exact Hcc.
    - assert (Hdiv : z * c / (c * 10 ^ (N - k)) = z / 10 ^ (N - k)).
      { rewrite (Z.mul_comm c (10 ^ (N - k))). apply Z.div_mul_cancel_r; lia. }
      rewrite Hdiv.
      exact (candidate_choice z N k (z * c mod (c * 10 ^ (N - k))) (c * 10 ^ (N - k))
               (shortestDigits f (ofZ z) (z * c) c N (k + 1)) Hz HN Hdig Hk). }
  rewrite Hstep. destruct (Z.eqb_spec (z / 10 ^ (N - k) * 10 ^ (N - k)) z) as [Heq|Hne].
  - exists k. split; [lia|]. split; [exact Heq | reflexivity].
  - assert (Hlt : k < N).
    { destruct (Z.eq_dec k N) as [->|]; [|lia]. exfalso. apply Hne.
      replace (N - N) with 0 by lia. change (10 ^ 0) with 1. rewrite Z.div_1_r. lia. }
    destruct (IH (k + 1) ltac:(lia) ltac:(lia)) as (k' & Hk' & Hexact & Hres).
    exists k'. split; [lia|]. split; [exact Hexact | exact Hres].
Qed.

Lemma zeros_digits (j : Z) (a : Z) :
  0 <= j ->
  Forall (fun d => isDigit d = true) (zeros j) /\ digitsValue a (zeros j) = a * 10 ^ j.
Proof.
  intros Hj. unfold zeros.
  assert (Hrep : forall (m : nat) (b : Z),
            Forall (fun d => isDigit d = true) (repeat 48%N m)
            /\ digitsValue b (repeat 48%N m) = b * 10 ^ Z.of_nat m).
  { induction m as [|m IH]; intros b.
    - split; [constructor | simpl; lia].
    - destruct (IH (10 * b + 0)) as [Hall Hval]. split.
      + constructor; [reflexivity | exact Hall].
      + cbn [repeat digitsValue]. change (Z.of_N (48 - 48)) with 0. rewrite Hval.
        rewrite Nat2Z.inj_succ, Z.pow_succ_r by lia. lia. }
  destruct (Hrep (Z.to_nat j) a) as [Hall Hval]. rewrite Z2Nat.id in Hval by exact Hj.
  by split.
Qed.

(** [parseFloat] of a run of digits, and of one after a minus sign. *)
Lemma parseFloat_digits (ds : jsstring) :
  ds <> [] -> Forall (fun d => isDigit d = true) ds -> 0 < digitsValue 0 ds ->
  parseFloat ds = binary_normalize 53 1024 (digitsValue 0 ds) 0 false /\
  parseFloat (45%N :: ds) = binary_normalize 53 1024 (- digitsValue 0 ds) 0 true.
Proof.
  intros Hne Hall Hpos. split.
  - destruct ds as [|d ds]; [done|].
    assert (Hd : isDigit d = true) by (by inversion Hall).
    assert (Hscan : parseFloat (d :: ds)
                    = match scanUnsigned false (d :: ds) with
                      | Some (l, _) => numericValue l
                      | None => NaN
                      end).
    { apply digit_cases in Hd. decompose [or] Hd; subst; reflexivity. }
    rewrite Hscan, (scanUnsigned_digits false (d :: ds) Hne Hall).
    cbn [numericValue]. destruct (Z.eqb_spec (digitsValue 0 (d :: ds)) 0); [lia|].
    unfold roundDecimal. cbn [Z.leb Z.compare]. f_equal. cbn [cond_Zopp Z.pow]. lia.
  - unfold parseFloat, trimStart. cbn [dropWhile isWhiteSpace].
    change (isWhiteSpace 45) with false. cbn [scanStrDecimalLiteral].
    rewrite (scanUnsigned_digits true ds Hne Hall). cbn [numericValue].
    destruct (Z.eqb_spec (digitsValue 0 ds) 0); [lia|].
    unfold roundDecimal. cbn [Z.leb Z.compare]. f_equal. cbn [cond_Zopp Z.pow]. lia.
Qed.

(** The text of a positive integer below [10^15]: its digits without
    the trailing zeros, then the zeros. *)
Lemma toString_finite_integer (sx : bool) (p : positive) :
  Zpos p < 10 ^ 15 ->
  exists sd j,
    0 <= j /\ 0 < sd /\ sd * 10 ^ j = Zpos p /\
    toString (binary_round 53 1024 sx p 0)
    = (if sx then lit "-" else []) ++ decimalString sd ++ zeros j.
Proof.
  intros Hp.
  assert (H53 : 10 ^ 15 < 2 ^ 53) by reflexivity.
  pose proof (digits2_pos_bound p) as [Hlo _].
  assert (Hd : Zpos (digits2_pos p) <= 53).
  { destruct (Z.le_gt_cases (Zpos (digits2_pos p)) 53) as [|Hgt]; [done|].
    assert (2 ^ 53 <= 2 ^ (Zpos (digits2_pos p) - 1)) by (apply Z.pow_le_mono_r; lia).
    lia. }
  destruct (binary_round_small sx p Hd) as (mz & Hbr & Hmz).
  destruct (binary_round_small false p Hd) as (mz' & Hbr' & Hmz').
  assert (mz' = mz) as -> by (apply Pos2Z.inj; congruence).
  rewrite Hbr. set (s := 53 - Zpos (digits2_pos p)) in *.
  assert (Hx : S754_finite false mz (Zpos (digits2_pos p) - 53) = ofZ (Zpos p)).
  { unfold ofZ. cbn [binary_normalize]. by rewrite Hbr'. }
  assert (Hpq : (if 0 <=? Zpos (digits2_pos p) - 53
                 then (Zpos mz * 2 ^ (Zpos (digits2_pos p) - 53), 1)
                 else (Zpos mz, 2 ^ (- (Zpos (digits2_pos p) - 53))))
                = (Zpos p * 2 ^ s, 2 ^ s)).
  { destruct (Z.leb_spec 0 (Zpos (digits2_pos p) - 53)) as [He|He].
    - assert (Hs0 : s = 0) by (subst s; lia). rewrite Hmz, Hs0.
      replace (Zpos (digits2_pos p) - 53) with 0 by lia. change (2 ^ 0) with 1.
      f_equal. lia.
    - rewrite Hmz. f_equal. f_equal. subst s. lia. }
  cbn [toString]. rewrite Hpq, Hx.
  assert (Hs : 0 <= s) by (subst s; lia).
  destruct (decimalExponent_integer (Zpos p) s ltac:(lia) Hs) as (HN & Hdig).
  set (N := decimalExponent (Zpos p * 2 ^ s) (2 ^ s)) in *.
  assert (Hc : 0 < 2 ^ s) by (apply Z.pow_pos_nonneg; lia).
  destruct (shortestDigits_integer (Zpos p) (2 ^ s) N 17 1 ltac:(lia) Hc HN Hdig
              ltac:(lia) ltac:(lia)) as (k & Hk & Hexact & Hres).
  rewrite Hres.
  exists (Zpos p / 10 ^ (N - k)), (N - k).
  assert (Hj : 0 < 10 ^ (N - k)) by (apply Z.pow_pos_nonneg; lia).
  split; [lia|]. split; [nia|]. split; [exact Hexact|].
  unfold formatDigits.
  destruct (Z.leb_spec k N); [|lia]. destruct (Z.leb_spec N 21); [|lia]. reflexivity.
Qed.

(** [String] and [parseFloat] on an integer below [10^15] in size: the
    number comes back. *)
Lemma parseFloat_toString_ofZ (z : Z) :
  - 10 ^ 15 < z < 10 ^ 15 -> parseFloat (toString (ofZ z)) = ofZ z.
Proof.
  intros Hz. destruct z as [|p|p]; [reflexivity| |].
  - unfold ofZ. cbn [binary_normalize].
    destruct (toString_finite_integer false p ltac:(lia)) as (sd & j & Hj & Hsd & Hval & ->).
    cbn [app].
    destruct (decimalString_spec sd ltac:(lia)) as (ds & -> & Hne & Hall & Hds).
    destruct (zeros_digits j (digitsValue 0 ds) Hj) as [Hzall Hzval].
    assert (Hv : digitsValue 0 (ds ++ zeros j) = Zpos p).
    { rewrite digitsValue_app, Hzval, Hds. exact Hval. }
    destruct (parseFloat_digits (ds ++ zeros j)) as [-> _].
    + by destruct ds.
    + by apply Forall_app.
    + lia.
    + by rewrite Hv.
  - unfold ofZ. cbn [binary_normalize].
    destruct (toString_finite_integer true p ltac:(lia)) as (sd & j & Hj & Hsd & Hval & ->).
    change (lit "-") with [45%N]. cbn [app].
    destruct (decimalString_spec sd ltac:(lia)) as (ds & -> & Hne & Hall & Hds).
    destruct (zeros_digits j (digitsValue 0 ds) Hj) as [Hzall Hzval].
    assert (Hv : digitsValue 0 (ds ++ zeros j) = Zpos p).
    { rewrite digitsValue_app, Hzval, Hds. exact Hval. }
    destruct (parseFloat_digits (ds ++ zeros j)) as [_ ->].
    + by destruct ds.
    + by apply Forall_app.
    + lia.
    + by rewrite Hv.
Qed.

(** The length [Array] is called with for a quantity cell that holds
    an integer as a number. *)
Lemma Array_numeric (z : Z) :
  - 10 ^ 15 < z < 10 ^ 15 ->
  Array_ (Math_floor (stockQtyOf (toString (ofZ z))))
  = if (0 <=? z) && (z <? 2 ^ 32) then inr (Z.to_nat z) else inl RangeError.
Proof.
  intros Hz. assert (H53 : 10 ^ 15 < 2 ^ 53) by reflexivity.
  rewrite <- (Array_integerString z) by lia.
  unfold stockQtyOf. rewrite parseFloat_toString_ofZ, parseFloat_integerString by exact Hz.
  by destruct z.
Qed.

End NumericCells.

Section StockCell.
Context `{Host}.
Import JS Value.

Lemma project_stock (cells : list JSValue) (r : RawRecord) (s : jsstring) :
  getVal (JArray cells) 6 = inr s -> project (JArray cells) = inr r -> rawStock r = s.
Proof.
  intros Hs. unfold project. rewrite Hs.
  destruct (getVal (JArray cells) 0) as [e|s0]; [discriminate|].
  destruct (getVal (JArray cells) 1) as [e|s1]; [discriminate|].
  destruct (getVal (JArray cells) 2) as [e|s2]; [discriminate|].
  destruct (getVal (JArray cells) 3) as [e|s3]; [discriminate|].
  destruct (getVal (JArray cells) 4) as [e|s4]; [discriminate|].
  destruct (getVal (JArray cells) 5) as [e|s5]; [discriminate|].
  cbn. by intros [= <-].
Qed.

Lemma getVal_number (cells : list JSValue) (idx : nat) (fields : list (jsstring * JSValue))
    (x : number) :
  cells !! idx = Some (JObject fields) ->
  ownProperty (lit "v") fields = Some (JNumber x) ->
  getVal (JArray cells) idx = inr (Num.toString x).
Proof.
  intros Hc Hv. unfold getVal. cbn [GetIndex bindR]. rewrite Hc. cbn. by rewrite Hv.
Qed.

End StockCell.

(** X24.  A stock cell that holds an integer [z] as a number (the way
    the feed delivers numeric cells), [|z| < 10^15], in a row whose
    record passes the header test: [String] writes the number and
    [parseFloat] reads the same number back, so for [0 <= z < 2^32]
    every bucket gets exactly [z] units, and for a negative [z] or
    [z >= 2^32] the builder ends in a [RangeError] as soon as there is
    one size label. *)
Theorem numeric_stock_cell `{Host} (cells : list JSValue)
    (fields : list (jsstring * JSValue)) (r : RawRecord) (n : nat) (z : Z) :
  cells !! 6 = Some (JObject fields) ->
  Value.ownProperty (JS.lit "v") fields = Some (JNumber (Num.ofZ z)) ->
  project (JArray cells) = inr r ->
  skipped r = false ->
  (- 10 ^ 15 < z < 10 ^ 15)%Z ->
  rawStock r = Num.toString (Num.ofZ z) /\
  ((0 <= z < 2 ^ 32)%Z ->
   exists p n', build r n = inr (Some p, n') /\
     map sizeName (sizes p) = sizeListOf (rawSizes r) /\
     Forall (fun b => length (units b) = Z.to_nat z) (sizes p)) /\
  ((z < 0 \/ 2 ^ 32 <= z)%Z -> sizeListOf (rawSizes r) <> [] ->
   build r n = inl RangeError).
Proof.
  intros Hcell Hv Hp Hs Hz.
  pose proof (project_stock cells r _ (getVal_number cells 6 fields _ Hcell Hv) Hp) as Hraw.
  split; [exact Hraw|].
  pose proof (Array_numeric z Hz) as Hlen. rewrite <- Hraw in Hlen.
  split.
  - intros Hrange.
    destruct (Z.leb_spec 0 z); [|lia]. destruct (Z.ltb_spec z (2 ^ 32)); [|lia].
    cbn [andb] in Hlen.
    eexists _, _. split; [by apply build_kept|]. cbn [sizes].
    split; [apply bucketsFrom_names|].
    eapply List.Forall_impl; [|apply bucketsFrom_units]. by intros b [Hb _].
  - intros Hout Hl.
    assert (Hno : ((0 <=? z) && (z <? 2 ^ 32))%Z = false).
    { destruct (Z.leb_spec 0 z); destruct (Z.ltb_spec z (2 ^ 32)); try reflexivity; lia. }
    rewrite Hno in Hlen.
    unfold build. rewrite Hs. unfold bind.
    destruct (sizeListOf (rawSizes r)) as [|l ls]; [congruence|].
    by rewrite (buildSizes_throws _ RangeError).
Qed.

Lemma numeric_stock_cell_witness :
  exists p n',
    rowToProduct (H := Sample.host) (Sample.row numericCells) 0 = inr (Some p, n') /\
    map sizeName (sizes p) = [JS.lit "S"; JS.lit "M"] /\
    Forall (fun b => length (units b) = 3%nat) (sizes p).
Proof.
  destruct (numeric_stock_cell (H := Sample.host) numericCells
              [(JS.lit "v", JNumber (Num.ofZ 3))]
              {| rawId := JS.lit "G7"; rawName := JS.lit "Falda"; rawDesc := [];
                 rawGender := []; rawUrl := []; rawSizes := JS.lit "S, M";
                 rawStock := JS.lit "3" |} 0 3) as (_ & Hok & _).
  - reflexivity.
  - reflexivity.
  - reflexivity.
  - reflexivity.
  - lia.
  - destruct Hok as (p & n' & Hb & Hn & Hu); [lia|].
    exists p, n'. split; [|split; [exact Hn | exact Hu]].
    rewrite <- Hb. reflexivity.
Defined.

(** X2.  The identifiers of a built product.  The unit identifiers,
    read bucket by bucket, are the draws [n], [n + 1], ... of
    [generateId], one per unit; a non-empty first cell is the product
    identifier as it is and draws nothing more; an empty one makes the
    product identifier the next draw.  So when the draws are pairwise
    distinct, no bucket holds two units with the same identifier. *)
Theorem build_identifiers `{Host} (r : RawRecord) (n len : nat) :
  skipped r = false ->
  Array_ (Num.Math_floor (stockQtyOf (rawStock r))) = inr len ->
  let drawn := (len * length (sizeListOf (rawSizes r)))%nat in
  exists p n',
    build r n = inr (Some p, n') /\
    concat (map (fun s => map unitId (units s)) (sizes p)) = map randomId (seq n drawn) /\
    (rawId r <> [] -> productId p = rawId r /\ n' = (n + drawn)%nat) /\
    (rawId r = [] -> productId p = randomId (n + drawn) /\ n' = S (n + drawn)) /\
    ((forall a b, randomId a = randomId b -> a = b) ->
     Forall (fun s => NoDup (map unitId (units s))) (sizes p)).
Proof.
  intros Hs Hlen drawn. subst drawn.
  eexists _, _. split; [by apply build_kept|]. cbn [sizes productId].
  split; [apply unitIds_bucketsFrom|].
  split; [intros Hid; by destruct (rawId r)|].
  split; [by intros ->|].
  intros Hinj. generalize n. induction (sizeListOf (rawSizes r)) as [|l ls IH]; intros m;
    simpl; constructor; [|apply IH].
  cbn [units]. unfold unitsFrom. rewrite map_map. cbn [unitId].
  apply NoDup_fmap_2; [intros a b; apply Hinj | apply NoDup_seq].
Qed.

Lemma build_identifiers_witness :
  exists p n',
    build (H := Sample.host) shirt 0 = inr (Some p, n') /\
    concat (map (fun s => map unitId (units s)) (sizes p))
    = map (randomId (Host := Sample.host)) (seq 0 9) /\
    productId p = JS.lit "A1" /\ n' = 9%nat.
Proof.
  destruct (build_identifiers (H := Sample.host) shirt 0 3) as (p & n' & Hb & Hu & Hid & _).
  - reflexivity.
  - reflexivity.
  - exists p, n'. split; [exact Hb|]. split; [exact Hu|]. apply Hid. discriminate.
Defined.

(** X3.  A name cell that is an object without a [v] property is not
    read as empty: [String(undefined)] makes the raw name the text
    "undefined", the record passes the header test (the upper-cased text
    does not contain the header caption) and the row becomes a product
    named "undefined". *)
Theorem cell_without_value `{Host} (row : JSValue) (cells : list JSValue)
    (fields : list (jsstring * JSValue)) (r : RawRecord) (n len : nat) :
  Value.Get row (JS.lit "c") = inr (JArray cells) ->
  cells !! 1 = Some (JObject fields) ->
  Value.ownProperty (JS.lit "v") fields = None ->
  (Z.of_nat (length cells) < 2 ^ 53)%Z ->
  project (JArray cells) = inr r ->
  JS.includes (toUpperCase (JS.lit "undefined")) NOMBRE_PRODUCTO = false ->
  Array_ (Num.Math_floor (stockQtyOf (rawStock r))) = inr len ->
  rawName r = JS.lit "undefined" /\
  exists p n', rowToProduct row n = inr (Some p, n') /\ name p = JS.lit "undefined".
Proof.
  intros Hc Hcell Hv Hmax Hp Hup Hlen.
  pose proof (project_name cells r _ (getVal_no_value cells 1 fields Hcell Hv) Hp) as Hname.
  split; [exact Hname|].
  assert (Hs : skipped r = false).
  { unfold skipped. rewrite Hname, Hup. reflexivity. }
  assert (H2 : 2 <= length cells).
  { apply lookup_lt_Some in Hcell. lia. }
  rewrite (rowToProduct_kept row cells r n Hc H2 Hmax Hp).
  eexists _, _. split; [by eapply build_kept|]. exact Hname.
Qed.

Lemma cell_without_value_witness :
  exists p n',
    rowToProduct (H := Sample.host) (Sample.row namelessCells) 0 = inr (Some p, n')
    /\ name p = JS.lit "undefined".
Proof.
  destruct (cell_without_value (H := Sample.host) (Sample.row namelessCells) namelessCells []
              {| rawId := JS.lit "E5"; rawName := JS.lit "undefined"; rawDesc := [];
                 rawGender := []; rawUrl := []; rawSizes := JS.lit "S";
                 rawStock := JS.lit "1" |} 0 1) as (_ & Hp).
  - reflexivity.
  - reflexivity.
  - reflexivity.
  - reflexivity.
  - reflexivity.
  - reflexivity.
  - reflexivity.
  - exact Hp.
Defined.

(** X4.  A decoded document without a table ([table] absent or [null],
    or its [rows] absent, [null] or otherwise falsy) is not an error for
    the builder: it returns no product and draws no identifier, and the
    cycle reports the empty-inventory message after logging the
    document. *)
Theorem document_without_table `{Host} (parsed table : JSValue) (n : nat) :
  Value.Get parsed (JS.lit "table") = inr table ->
  (table = JUndefined \/ table = JNull \/
   exists rows, Value.Get table (JS.lit "rows") = inr rows /\ Value.ToBoolean rows = false) ->
  parseGvizData parsed n = inr ([], n) /\
  store parsed n = ([consoleLog parsed; setError (Some emptyMessage)], inr tt).
Proof.
  intros Ht Hcase.
  assert (Hr : rowsOf parsed = inr []).
  { unfold rowsOf. rewrite Ht. cbn [bindR].
    destruct Hcase as [->|[->|(rows & Hrows & Hfalsy)]]; [reflexivity | reflexivity|].
    destruct table; try (rewrite Hrows; cbn [bindR]; by rewrite Hfalsy).
    - cbn in Hrows. discriminate.
    - cbn in Hrows. discriminate. }
  assert (Hp : parseGvizData parsed n = inr ([], n)).
  { unfold parseGvizData, bind, lift, ret. by rewrite Hr. }
  split; [exact Hp|]. by rewrite store_cases, Hp.
Qed.

Lemma document_without_table_witness :
  store (H := Sample.host) (JObject []) 0
  = ([consoleLog (JObject []); setError (Some emptyMessage)], inr tt).
Proof.
  apply (document_without_table (H := Sample.host) (JObject []) JUndefined 0 eq_refl).
  by left.
Defined.

Lemma parseGvizData_returns_witness :
  exists ps n', parseGvizData (H := Sample.host) (Sample.table [shirtRow]) 0 = inr (ps, n').
Proof.
  apply (parseGvizData_returns (H := Sample.host) (Sample.table [shirtRow]) [shirtRow] 0 eq_refl).
  constructor; [|constructor].
  eexists. split; [reflexivity|]. split; [reflexivity|].
  intros r Hr. vm_compute in Hr. injection Hr as <-.
  right. right. exists 3%nat. reflexivity.
Defined.

(** *** What the builder establishes *)

Section FreshFacts.
Context `{Host}.
Import JS Value.

Lemma buildSizes_inv (q : number) (labels : list jsstring) (n n1 : nat)
    (ss : list ProductSize) :
  buildSizes q labels n = inr (ss, n1) ->
  exists len, ss = bucketsFrom n len labels.
Proof.
  destruct labels as [|l labels].
  - intros [= <- _]. by exists 0%nat.
  - destruct (Array_ (Num.Math_floor q)) as [e|len] eqn:Hlen.
    + by rewrite (buildSizes_throws q e l labels n Hlen).
    + rewrite (buildSizes_eq q len (l :: labels) n Hlen). intros [= <- _]. by exists len.
Qed.

Lemma sizeListOf_labels (rawSizes : jsstring) :
  Forall (fun l => l <> []
                   /\ Forall (fun c => isSeparator c = false) l
                   /\ (forall c t, l = c :: t -> isWhiteSpace c = false)
                   /\ (forall c t, l = t ++ [c] -> isWhiteSpace c = false))
         (sizeListOf rawSizes).
Proof.
  unfold sizeListOf. apply Forall_forall. intros l Hl.
  apply filter_In in Hl as [Hl Hne]. apply in_map_iff in Hl as (piece & <- & Hpiece).
  split; [by destruct (trim piece)|].
  destruct (trim_decompose piece) as (a & b & Hdec & _ & _ & Hfirst & Hlast).
  split; [|split; [exact Hfirst | exact Hlast]].
  pose proof (split_pieces isSeparator rawSizes) as Hall.
  rewrite Forall_forall in Hall. specialize (Hall piece Hpiece).
  rewrite Hdec in Hall. apply Forall_app in Hall as [_ Hall].
  by apply Forall_app in Hall as [Hall _].
Qed.

Lemma build_fresh (r : RawRecord) (n n' : nat) (p : Product) :
  build r n = inr (Some p, n') -> freshProduct p.
Proof.
  unfold build. destruct (skipped r) eqn:Hs; [discriminate|]. unfold bind.
  destruct (buildSizes _ _ n) as [e|[ss n1]] eqn:Hb; [discriminate|].
  apply buildSizes_inv in Hb as [len ->].
  unfold skipped in Hs. apply orb_false_iff in Hs as [Hname Hcap].
  apply negb_false_iff in Hname.
  intros Hp.
  assert (Hpe : name p = rawName r /\ gender p = genderOf (rawGender r) /\ price p = Some []
                /\ sizes p = bucketsFrom n len (sizeListOf (rawSizes r))).
  { destruct (nonEmpty (rawId r)); cbn in Hp; injection Hp as <- _; done. }
  destruct Hpe as (Hn & Hg & Hpr & Hsz). unfold freshProduct. rewrite Hn, Hg, Hpr, Hsz.
  split; [by destruct (rawName r)|]. split; [exact Hcap|].
  split; [unfold genderOf; by destruct (toLowerCase (rawGender r))|].
  split; [reflexivity|]. split; [exists len; apply bucketsFrom_units|].
  apply Forall_forall. intros s Hs.
  pose proof (sizeListOf_labels (rawSizes r)) as Hlab. rewrite Forall_forall in Hlab.
  apply Hlab. rewrite <- (bucketsFrom_names n len). by apply in_map.
Qed.

Lemma rowToProduct_fresh (row : JSValue) (m m' : nat) (p : Product) :
  rowToProduct row m = inr (Some p, m') -> freshProduct p.
Proof.
  unfold rowToProduct, bind, lift, ret.
  destruct (Get row (lit "c")) as [e|c]; [discriminate|].
  destruct (negb (ToBoolean c)); [discriminate|].
  destruct (Get c (lit "length")) as [e|len]; [discriminate|].
  destruct (lessThan len 2) as [e|[]]; [discriminate|discriminate|].
  destruct (project c) as [e|r]; [discriminate|]. apply build_fresh.
Qed.

Lemma outcomes_fresh (rows : list JSValue) (n n1 : nat) (os : list (option Product)) :
  Array_map rowToProduct rows n = inr (os, n1) -> Forall freshProduct (nonNull os).
Proof.
  intros Hmap. apply Array_map_outcomes in Hmap.
  induction Hmap as [|row o rows os (m & m' & Hrow) _ IH]; [constructor|].
  destruct o as [p|]; simpl; [|exact IH].
  constructor; [by eapply rowToProduct_fresh | exact IH].
Qed.

Lemma parseGvizData_rows (jsonData : JSValue) (n n' : nat) (ps : list Product) :
  parseGvizData jsonData n = inr (ps, n') ->
  exists rows os, Array_map rowToProduct rows n = inr (os, n') /\ ps = nonNull os.
Proof.
  unfold parseGvizData, bind, lift, ret.
  destruct (rowsOf jsonData) as [e|rows]; [discriminate|].
  destruct (Array_map rowToProduct rows n) as [e|[os n1]] eqn:Hmap; [discriminate|].
  intros [= <- <-]. by exists rows, os.
Qed.

(** What a cycle passes to [setProducts] is what the builder returned. *)
Lemma fetchSheet_built (W : World) (n : nat) (ps : list Product) :
  In (setProducts ps) (fetchSheet W n) ->
  exists parsed n', parseGvizData parsed n = inr (ps, n').
Proof.
  rewrite fetchSheet_unfold.
  pose proof (retrieve_quiet W) as Hq. revert Hq.
  generalize (fst (retrieve W)). intros evR Hq.
  destruct (snd (retrieve W)) as [err|jsonText].
  { intros Hin. exfalso. revert Hin. apply not_in_quiet_frame; [exact Hq | |];
      cbn; intuition discriminate. }
  assert (Hthrow : forall v, ingest v n = ([], inl TypeError) ->
            In (setProducts ps)
               ([setLoading true; setError None] ++ evR
                ++ (fst (ingest v n)
                    ++ match snd (ingest v n) with
                       | inl err => caught err
                       | inr _ => []
                       end) ++ [setLoading false]) -> False).
  { intros v ->. apply not_in_quiet_frame; [exact Hq | |]; cbn; intuition discriminate. }
  destruct jsonText as [| |b|x|text|items|fields];
    try (intros Hin; exfalso; refine (Hthrow _ _ Hin); reflexivity).
  clear Hthrow. rewrite ingest_cases. cbn zeta.
  destruct (indexOf text MARKER =? -1)%Z.
  { intros Hin. exfalso. revert Hin. apply not_in_quiet_frame; [exact Hq | |];
      cbn; intuition discriminate. }
  destruct (JSON_parse _) as [e|parsed].
  { intros Hin. exfalso. revert Hin. apply not_in_quiet_frame; [exact Hq | |];
      cbn; intuition discriminate. }
  rewrite store_cases.
  destruct (parseGvizData parsed n) as [e|[ps' n']] eqn:Hparse.
  { intros Hin. exfalso. revert Hin. apply not_in_quiet_frame; [exact Hq | |];
      cbn; intuition discriminate. }
  destruct ps' as [|p ps'].
  { intros Hin. exfalso. revert Hin. apply not_in_quiet_frame; [exact Hq | |];
      cbn; intuition discriminate. }
  cbn [length Nat.ltb Nat.leb fst snd].
  intros Hin.
  assert (Hps : ps = p :: ps').
  { rewrite !in_app_iff in Hin. cbn [In] in Hin.
    decompose [or] Hin; try discriminate; try contradiction;
      [exfalso; by eapply quiet_no_setProducts | congruence]. }
  subst ps. by exists parsed, n'.
Qed.

End FreshFacts.

(** X25.  Every product [parseGvizData] returns is fresh: its name is
    not empty and, upper-cased, does not hold the header caption; its
    category is not empty; its price is the empty text; its size labels
    are not empty, hold no comma or slash and neither start nor end in
    white space; its buckets all hold the same number of units, and every
    unit is available. *)
Theorem built_products_are_fresh `{Host} (jsonData : JSValue) (n n' : nat)
    (ps : list Product) :
  parseGvizData jsonData n = inr (ps, n') -> Forall freshProduct ps.
Proof.
  intros Hparse. destruct (parseGvizData_rows _ _ _ _ Hparse) as (rows & os & Hmap & ->).
  by eapply outcomes_fresh.
Qed.

Lemma built_products_are_fresh_witness :
  exists ps n',
    parseGvizData (H := Sample.host) (Sample.table [headerRow; shirtRow; capRow]) 0
      = inr (ps, n')
    /\ Forall (freshProduct (H := Sample.host)) ps.
Proof.
  destruct (parseGvizData (H := Sample.host) (Sample.table [headerRow; shirtRow; capRow]) 0)
    as [e|[ps n']] eqn:Hparse; [vm_compute in Hparse; discriminate|].
  exists ps, n'. split; [reflexivity|].
  exact (built_products_are_fresh (H := Sample.host) _ _ _ _ Hparse).
Defined.

(** ** The ingestion cycle: outcomes and requests *)

Section UriFacts.
Import JS.

Lemma hexDigit_unreserved (n : N) : (n < 16)%N -> isUnreserved (hexDigit n) = true.
Proof.
  intros Hn. unfold hexDigit, isUnreserved.
  destruct (N.ltb_spec n 10) as [Hdec|Hhex].
  - assert (Hlo : (48 <=? n + 48)%N = true) by (apply N.leb_le; lia).
    assert (Hhi : (n + 48 <=? 57)%N = true) by (apply N.leb_le; lia).
    rewrite Hlo, Hhi. cbn [andb]. by rewrite orb_true_r.
  - assert (Hlo : (65 <=? n + 55)%N = true) by (apply N.leb_le; lia).
    assert (Hhi : (n + 55 <=? 90)%N = true) by (apply N.leb_le; lia).
    by rewrite Hlo, Hhi.
Qed.

Lemma percent_safe (b : N) : (b < 256)%N -> Forall (fun c => urlSafe c = true) (percent b).
Proof.
  intros Hb. unfold percent, urlSafe. repeat constructor.
  - rewrite hexDigit_unreserved; [reflexivity|]. apply N.Div0.div_lt_upper_bound. lia.
  - rewrite hexDigit_unreserved; [reflexivity|]. apply N.mod_lt. lia.
Qed.

Lemma escape_safe (cp : N) : (cp < 1114112)%N -> Forall (fun c => urlSafe c = true) (escape cp).
Proof.
  intros Hcp. unfold escape, utf8.
  assert (Hm : forall x, (128 + x mod 64 < 256)%N).
  { intros x. pose proof (N.mod_lt x 64 ltac:(lia)). lia. }
  destruct (N.ltb_spec cp 128) as [H1|H1];
    [|destruct (N.ltb_spec cp 2048) as [H2|H2];
      [|destruct (N.ltb_spec cp 65536) as [H3|H3]]];
    cbn [map concat]; rewrite ?app_nil_r; repeat (apply Forall_app; split);
    apply percent_safe; try apply Hm.
  - lia.
  - assert (cp / 64 < 32)%N by (apply N.Div0.div_lt_upper_bound; lia). lia.
  - assert (cp / 4096 < 16)%N by (apply N.Div0.div_lt_upper_bound; lia). lia.
  - assert (cp / 262144 < 5)%N by (apply N.Div0.div_lt_upper_bound; lia). lia.
Qed.

(** Whatever [encodeURIComponent] returns is made of unreserved code
    units and escapes. *)
Lemma encodeURIComponent_safe (s u : jsstring) :
  Forall (fun c => (c < 65536)%N) s ->
  encodeURIComponent s = inr u -> Forall (fun c => urlSafe c = true) u.
Proof.
  remember (length s) as k eqn:Hk. revert s u Hk.
  induction k as [k IH] using lt_wf_ind. intros s u Hk Hs.
  destruct s as [|c s]; simpl; [intros [= <-]; constructor|].
  inversion Hs as [|? ? Hc Hs']; subst.
  destruct (isUnreserved c) eqn:Hun.
  - destruct (encodeURIComponent s) as [e|r] eqn:Hr; simpl; [discriminate|].
    intros [= <-]. constructor; [unfold urlSafe; by rewrite Hun|].
    eapply (IH (length s)); [simpl; lia | reflexivity | exact Hs' | exact Hr].
  - destruct (isTrailSurrogate c) eqn:Ht; [discriminate|].
    destruct (isLeadSurrogate c) eqn:Hl.
    + destruct s as [|lo s]; [discriminate|].
      destruct (isTrailSurrogate lo) eqn:Hlo; [|discriminate].
      destruct (encodeURIComponent s) as [e|r] eqn:Hr; simpl; [discriminate|].
      intros [= <-]. inversion Hs' as [|? ? _ Hs'']; subst.
      apply Forall_app. split.
      * apply escape_safe. unfold isLeadSurrogate, isTrailSurrogate in Hl, Hlo.
        apply andb_true_iff in Hl as [_ Hl]. apply andb_true_iff in Hlo as [_ Hlo].
        apply N.leb_le in Hl, Hlo. lia.
      * eapply (IH (length s)); [simpl; lia | reflexivity | exact Hs'' | exact Hr].
    + destruct (encodeURIComponent s) as [e|r] eqn:Hr; simpl; [discriminate|].
      intros [= <-]. apply Forall_app. split; [apply escape_safe; lia|].
      eapply (IH (length s)); [simpl; lia | reflexivity | exact Hs' | exact Hr].
Qed.

Lemma isPlain_units (s : jsstring) : isPlain s = true -> Forall (fun c => (c < 65536)%N) s.
Proof.
  unfold isPlain. rewrite forallb_forall. intros Hs. apply Forall_forall.
  intros c Hc. specialize (Hs c Hc). apply N.ltb_lt in Hs. lia.
Qed.

(** A code unit that is no surrogate is one of sixteen bits, and
    neither half of a pair. *)
Lemma nonSurrogate_spec (c : N) :
  nonSurrogate c = true ->
  isLeadSurrogate c = false /\ isTrailSurrogate c = false /\ (c < 65536)%N.
Proof.
  unfold nonSurrogate, isLeadSurrogate, isTrailSurrogate. intros Hc.
  assert (Hr : (c < 55296 \/ 57343 < c < 65536)%N).
  { apply orb_true_iff in Hc as [Hc|Hc]; [left; by apply N.ltb_lt|].
    apply andb_true_iff in Hc as [Hlo Hhi]. apply N.ltb_lt in Hlo, Hhi. by right. }
  split; [|split; [|lia]].
  - destruct (N.leb_spec 55296 c); [|reflexivity].
    destruct (N.leb_spec c 56319); [lia | reflexivity].
  - destruct (N.leb_spec 56320 c); [|reflexivity].
    destruct (N.leb_spec c 57343); [lia | reflexivity].
Qed.

Lemma surrogateFree_units (s : jsstring) :
  surrogateFree s = true -> Forall (fun c => (c < 65536)%N) s.
Proof.
  unfold surrogateFree. rewrite forallb_forall. intros Hs. apply Forall_forall.
  intros c Hc. by apply nonSurrogate_spec, Hs.
Qed.

(** Text without surrogates is encoded, whatever it holds. *)
Lemma encodeURIComponent_surrogateFree (s : jsstring) :
  surrogateFree s = true -> exists u, encodeURIComponent s = inr u.
Proof.
  induction s as [|c s IH]; [by exists []|]. cbn [surrogateFree forallb encodeURIComponent].
  intros [Hc Hs]%andb_true_iff. destruct (IH Hs) as [u Hu]. rewrite Hu.
  destruct (nonSurrogate_spec c Hc) as (Hl & Ht & _). rewrite Hl, Ht.
  destruct (isUnreserved c); by eexists.
Qed.

(** A surrogate that is not half of a pair makes the encoding throw. *)
Lemma encodeURIComponent_lone (a : jsstring) (c : N) (b : jsstring) :
  surrogateFree a = true ->
  isTrailSurrogate c = true \/
  isLeadSurrogate c = true /\ match b with lo :: _ => isTrailSurrogate lo = false | [] => True end ->
  encodeURIComponent (a ++ c :: b) = inl URIError.
Proof.
  intros Ha Hc. induction a as [|x a IH].
  - simpl.
    assert (Hun : isUnreserved c = false).
    { unfold isUnreserved, isTrailSurrogate, isLeadSurrogate in *.
      destruct Hc as [Hc|[Hc _]]; apply andb_true_iff in Hc as [Hlo Hhi];
        apply N.leb_le in Hlo, Hhi;
        repeat match goal with
               | |- context [(?a <=? ?b)%N] => destruct (N.leb_spec a b); try lia
               | |- context [(?a =? ?b)%N] => destruct (N.eqb_spec a b); try lia
               end; reflexivity. }
    rewrite Hun. destruct Hc as [->|[Hl Hb]]; [reflexivity|].
    destruct (isTrailSurrogate c); [reflexivity|]. rewrite Hl.
    destruct b as [|lo b]; [reflexivity|]. by rewrite Hb.
  - cbn [surrogateFree forallb] in Ha. apply andb_true_iff in Ha as [Hx Ha].
    destruct (nonSurrogate_spec x Hx) as (Hl & Ht & _).
    cbn [app encodeURIComponent]. rewrite (IH Ha), Hl, Ht.
    destruct (isUnreserved x); reflexivity.
Qed.

End UriFacts.

Section RequestFacts.
Import JS.
Local Open Scope Z_scope.

Lemma encodeURIComponent_unreserved (s : jsstring) :
  Forall (fun c => isUnreserved c = true) s -> encodeURIComponent s = inr s.
Proof.
  induction 1 as [|c s Hc _ IH]; simpl; [reflexivity|]. by rewrite Hc, IH.
Qed.

Lemma digit_unreserved (d : N) : Num.isDigit d = true -> isUnreserved d = true.
Proof. intros Hd. apply digit_cases in Hd. decompose [or] Hd; subst; reflexivity. Qed.

Lemma integerString_unreserved (t : Z) :
  Forall (fun c => isUnreserved c = true) (integerString t).
Proof.
  unfold integerString. destruct (Z.ltb_spec t 0).
  - destruct (decimalString_spec (- t) ltac:(lia)) as (ds & -> & _ & Hall & _).
    constructor; [reflexivity|].
    eapply List.Forall_impl; [|exact Hall]. apply digit_unreserved.
  - destruct (decimalString_spec t ltac:(lia)) as (ds & -> & _ & Hall & _).
    eapply List.Forall_impl; [|exact Hall]. apply digit_unreserved.
Qed.

Lemma integerString_inj (t1 t2 : Z) : integerString t1 = integerString t2 -> t1 = t2.
Proof.
  unfold integerString.
  assert (Hmix : forall a b, 0 <= a -> 0 <= b -> 45%N :: decimalString a <> decimalString b).
  { intros a b Ha Hb Heq.
    destruct (decimalString_spec b Hb) as (ds & Hds & _ & Hall & _). rewrite Hds in Heq.
    subst ds. inversion Hall as [|? ? Hd _]; subst. discriminate. }
  assert (Hsame : forall a b, 0 <= a -> 0 <= b -> decimalString a = decimalString b -> a = b).
  { intros a b Ha Hb Heq.
    destruct (decimalString_spec a Ha) as (da & Hda & _ & _ & Hva).
    destruct (decimalString_spec b Hb) as (db & Hdb & _ & _ & Hvb). congruence. }
  destruct (Z.ltb_spec t1 0), (Z.ltb_spec t2 0); intros Heq.
  - injection Heq as Heq. apply Hsame in Heq; lia.
  - by apply Hmix in Heq; [|lia|lia].
  - symmetry in Heq. by apply Hmix in Heq; [|lia|lia].
  - by apply Hsame.
Qed.

(** The encoded address, written out. *)
Lemma noCacheUrl_encoded_stamp (t : Z) :
  exists feed amp,
    encodeURIComponent gvizUrl = inr feed /\
    encodeURIComponent (lit "&_=") = inr amp /\
    encodeURIComponent (noCacheUrl t) = inr (feed ++ amp ++ integerString t).
Proof.
  assert (Hg : isPlain gvizUrl = true) by reflexivity.
  assert (Ha : isPlain (lit "&_=") = true) by reflexivity.
  destruct (encodeURIComponent_plain _ Hg) as [feed Hfeed].
  destruct (encodeURIComponent_plain _ Ha) as [amp Hamp].
  exists feed, amp. split; [exact Hfeed|]. split; [exact Hamp|].
  unfold noCacheUrl.
  apply encodeURIComponent_app; [exact Hg | exact Hfeed|].
  apply encodeURIComponent_app; [exact Ha | exact Hamp|].
  apply encodeURIComponent_unreserved, integerString_unreserved.
Qed.

End RequestFacts.

Section CycleFacts.
Context `{Host}.
Import JS Value.

Lemma run_cycle (st : AppState) (evR X : list Event) :
  forallb quiet evR = true ->
  run st ([setLoading true; setError None] ++ evR ++ X ++ [setLoading false])
  = run {| products := products st; loading := true; error := None;
           debugData := debugData st |} (X ++ [setLoading false]).
Proof.
  intros Hq. rewrite run_app. rewrite (run_app _ evR). by rewrite (run_quiet _ evR Hq).
Qed.

(** [substring(0, k)] is the first [k] code units, or the whole text
    when it is shorter. *)
Lemma substring_prefix (s : jsstring) (k : nat) :
  substring s 0 (Z.of_nat k) = take k s.
Proof.
  unfold substring, clampIndex.
  pose proof (Nat2Z.is_nonneg (length s)) as Hlen.
  remember (Z.of_nat (length s)) as len eqn:Elen.
  assert (Hfrom : Z.min (Z.min (Z.max 0 0) len) (Z.min (Z.max (Z.of_nat k) 0) len) = 0%Z)
    by lia.
  assert (Hto : Z.max (Z.min (Z.max 0 0) len) (Z.min (Z.max (Z.of_nat k) 0) len)
                = Z.min (Z.of_nat k) len) by lia.
  rewrite Hfrom, Hto.
  change (Z.to_nat 0) with 0%nat. rewrite drop_0, Z.sub_0_r.
  destruct (Z.min_spec (Z.of_nat k) len) as [[Hlt ->]|[Hle ->]].
  - by rewrite Nat2Z.id.
  - subst len. rewrite Nat2Z.id. rewrite firstn_all. symmetry. apply firstn_all2. lia.
Qed.

End CycleFacts.

(** X6.  How a cycle ends, whatever the relays answer.  The loading
    flag is off.  Either the snapshot was replaced, by a non-empty
    sequence the cycle passed to [setProducts], and no error is shown;
    or an error message is shown and the snapshot is the one the cycle
    started with.  A cycle never ends without an error and without a new
    snapshot. *)
Theorem cycle_outcome `{Host} (W : World) (n : nat) (st : AppState) :
  let st' := run st (fetchSheet W n) in
  loading st' = false /\
  ((error st' = None /\ products st' <> [] /\ In (setProducts (products st')) (fetchSheet W n))
   \/ (exists m, error st' = Some m) /\ products st' = products st).
Proof.
  cbn zeta. rewrite fetchSheet_unfold.
  rewrite (run_cycle st _ _ (retrieve_quiet W)).
  set (evR := fst (retrieve W)).
  destruct (snd (retrieve W)) as [err|jsonText].
  { split; [reflexivity|]. right. split; [by eexists | reflexivity]. }
  destruct jsonText as [| | | |text| |];
    try (split; [reflexivity|]; right; split; [by eexists | reflexivity]).
  rewrite ingest_cases. cbn zeta.
  destruct (JS.indexOf text MARKER =? -1)%Z.
  { split; [reflexivity|]. right. split; [by eexists | reflexivity]. }
  destruct (JSON_parse _) as [e|parsed].
  { split; [reflexivity|]. right. split; [by eexists | reflexivity]. }
  rewrite store_cases.
  destruct (parseGvizData parsed n) as [e|[[|p ps] n']].
  - split; [reflexivity|]. right. split; [by eexists | reflexivity].
  - split; [reflexivity|]. right. split; [by eexists | reflexivity].
  - split; [reflexivity|]. left. split; [reflexivity|]. split; [done|].
    cbn [Nat.ltb Nat.leb length fst snd app run fold_left apply products].
    right. right. apply in_app_iff. right. right. by left.
Qed.

(** X7.  The diagnostic preview.  When the retrieval yields a text, the
    preview becomes the first 500 code units of it (all of it when it is
    shorter) followed by "...", and stays so whatever happens next in the
    cycle (no marker, a decoding failure, a builder exception, an empty or
    a non-empty result).  When the retrieval fails or yields something
    that is not a text, the preview is left as it was. *)
Theorem cycle_preview `{Host} (W : World) (n : nat) (st : AppState) :
  let st' := run st (fetchSheet W n) in
  match snd (retrieve W) with
  | inr (JString text) =>
      debugData st' = Some (take 500 text ++ JS.lit "...") /\
      In (setDebugData (take 500 text ++ JS.lit "...")) (fetchSheet W n)
  | _ => debugData st' = debugData st
  end.
Proof.
  cbn zeta. rewrite fetchSheet_unfold.
  rewrite (run_cycle st _ _ (retrieve_quiet W)).
  set (evR := fst (retrieve W)).
  destruct (snd (retrieve W)) as [err|jsonText]; [reflexivity|].
  destruct jsonText as [| | | |text| |]; try reflexivity.
  rewrite ingest_cases. cbn zeta.
  change 500%Z with (Z.of_nat 500). rewrite substring_prefix.
  assert (Hin : forall X Y : list Event,
            In (setDebugData (take 500 text ++ JS.lit "..."))
               ([setLoading true; setError None] ++ evR
                ++ ((setDebugData (take 500 text ++ JS.lit "...") :: X) ++ Y) ++ [setLoading false])).
  { intros X Y. rewrite !in_app_iff. right. right. left. left. by left. }
  destruct (JS.indexOf text MARKER =? -1)%Z; [split; [reflexivity | apply (Hin [_] [])]|].
  destruct (JSON_parse _) as [e|parsed]; [split; [reflexivity | apply (Hin [] (caught e))]|].
  rewrite store_cases.
  destruct (parseGvizData parsed n) as [e|[[|p ps] n']].
  - split; [reflexivity | apply (Hin [] (caught e))].
  - split; [reflexivity | apply (Hin [_; _] [])].
  - split; [reflexivity | apply (Hin [_; _] [])].
Qed.

(** X8.  When the first relay answers with a [contents] that is truthy
    but not a text, the first strategy counts as successful: the second
    relay is not asked, [substring] is called on something that has no
    such method, and the cycle ends in the connection error carrying the
    engine's [TypeError] message, with snapshot and preview untouched. *)
Theorem contents_not_text `{Host} (W : World) (n : nat) (st : AppState) (v : JSValue) :
  snd (primary W) = inr v ->
  (forall text, v <> JString text) ->
  exists u1,
    encodeURIComponent (noCacheUrl (now W 0)) = inr u1 /\
    fetchSheet W n =
      [ setLoading true; setError None; fetch (allOrigins ++ u1);
        consoleError TypeError;
        setError (Some (connectionPrefix ++ engineMessage TypeError));
        setLoading false ] /\
    products (run st (fetchSheet W n)) = products st /\
    debugData (run st (fetchSheet W n)) = debugData st.
Proof.
  intros Hv Hnot.
  destruct (noCacheUrl_encodes (now W 0)) as [u1 H1].
  destruct (noCacheUrl_encodes (now W 1)) as [u2 H2].
  exists u1. split; [exact H1|].
  assert (Hf : fetchSheet W n =
      [ setLoading true; setError None; fetch (allOrigins ++ u1);
        consoleError TypeError;
        setError (Some (connectionPrefix ++ engineMessage TypeError));
        setLoading false ]).
  { rewrite fetchSheet_unfold, (retrieve_cases W u1 u2 H1 H2), Hv. cbn [fst snd].
    destruct v as [| | | |text| |]; try reflexivity. by destruct (Hnot text). }
  split; [exact Hf|]. by rewrite Hf.
Qed.

Lemma contents_not_text_witness :
  exists u1,
    fetchSheet (H := relayHost) relayWorld 0 =
      [ setLoading true; setError None; fetch (allOrigins ++ u1);
        consoleError TypeError;
        setError (Some (connectionPrefix ++ JS.lit "jsonText.substring is not a function"));
        setLoading false ].
Proof.
  destruct (contents_not_text (H := relayHost) relayWorld 0 stocked (JObject []))
    as (u1 & _ & Hf & _).
  - reflexivity.
  - discriminate.
  - exists u1. exact Hf.
Defined.

(** X9.  Every request of a cycle goes to one of the two relays, the
    first relay with the first clock reading and the second with the
    second, and what follows the relay prefix is the encoded feed
    address: only unreserved code units and percent escapes, so none of
    the feed address's own [:], [/], [?], [&] or [=] reaches the relay
    unescaped. *)
Theorem requests_are_escaped `{Host} (W : World) (n : nat) (url : jsstring) :
  In (fetch url) (fetchSheet W n) ->
  exists u k,
    encodeURIComponent (noCacheUrl (now W k)) = inr u /\
    Forall (fun c => urlSafe c = true) u /\
    (url = allOrigins ++ u /\ k = 0%nat \/ url = corsProxy ++ u /\ k = 1%nat).
Proof.
  intros Hin.
  destruct (noCacheUrl_encodes (now W 0)) as [u1 H1].
  destruct (noCacheUrl_encodes (now W 1)) as [u2 H2].
  assert (Hretr : In (fetch url) (fst (retrieve W))).
  { rewrite fetchSheet_unfold in Hin.
    assert (Hrest : forall X, (forall e, In e X -> quiet e = false \/ forall u, e <> fetch u) ->
                      In (fetch url) ([setLoading true; setError None] ++ fst (retrieve W)
                                      ++ X ++ [setLoading false]) ->
                      In (fetch url) (fst (retrieve W))).
    { intros X HX Hi. rewrite !in_app_iff in Hi. cbn [In] in Hi.
      destruct Hi as [[Hi|[Hi|[]]]|[Hi|[Hi|[Hi|[]]]]].
      - discriminate Hi.
      - discriminate Hi.
      - exact Hi.
      - destruct (HX _ Hi) as [Hq|Hq]; [discriminate Hq | by destruct (Hq url)].
      - discriminate Hi. }
    revert Hin. apply Hrest. intros e He. right. intros u ->.
    destruct (snd (retrieve W)) as [err|jsonText].
    { cbn in He. intuition discriminate. }
    assert (Hthrown : forall v, (forall text, v <> JString text) ->
              In (fetch u) (fst (ingest v n)
                            ++ match snd (ingest v n) with
                               | inl err => caught err
                               | inr _ => []
                               end) -> False).
    { intros v Hv Hi. destruct v as [| | | |text| |]; try by destruct (Hv text).
      all: cbn [ingest throw fst snd app caught In] in Hi.
      all: destruct Hi as [Hi|[Hi|[]]]; discriminate Hi. }
    destruct jsonText as [| |b|x|text|items|fields].
    1-4: exfalso; eapply Hthrown; [|exact He]; intros t; discriminate.
    2-3: exfalso; eapply Hthrown; [|exact He]; intros t; discriminate.
    clear Hthrown. rewrite ingest_cases in He. cbn zeta in He.
    destruct (JS.indexOf text MARKER =? -1)%Z; [cbn in He; intuition discriminate|].
    destruct (JSON_parse _) as [e|parsed]; [cbn in He; intuition discriminate|].
    rewrite store_cases in He.
    destruct (parseGvizData parsed n) as [e|[[|p ps] n']]; cbn in He; intuition discriminate. }
  rewrite (retrieve_cases W u1 u2 H1 H2) in Hretr.
  assert (S1 : Forall (fun c => urlSafe c = true) u1).
  { eapply encodeURIComponent_safe; [|exact H1]. apply isPlain_units, noCacheUrl_plain. }
  assert (S2 : Forall (fun c => urlSafe c = true) u2).
  { eapply encodeURIComponent_safe; [|exact H2]. apply isPlain_units, noCacheUrl_plain. }
  assert (Hone : fetch url = fetch (allOrigins ++ u1) \/ fetch url = fetch (corsProxy ++ u2)).
  { destruct (snd (primary W)) as [e1|v]; [destruct (snd (backup W)) as [e2|v]|];
      cbn [fst In] in Hretr.
    - destruct Hretr as [Hr|[Hr|[Hr|[Hr|[]]]]];
        [by left | discriminate Hr | by right | discriminate Hr].
    - destruct Hretr as [Hr|[Hr|[Hr|[]]]]; [by left | discriminate Hr | by right].
    - destruct Hretr as [Hr|[]]. by left. }
  destruct Hone as [[= ->]|[= ->]].
  - exists u1, 0%nat. split; [exact H1|]. split; [exact S1|]. left. split; reflexivity.
  - exists u2, 1%nat. split; [exact H2|]. split; [exact S2|]. right. split; reflexivity.
Qed.

Lemma requests_are_escaped_witness :
  exists u k,
    encodeURIComponent (noCacheUrl (SampleWorld.clock k)) = inr u /\
    Forall (fun c => urlSafe c = true) u /\ k = 0%nat.
Proof.
  destruct (noCacheUrl_encodes 1700000000000) as [u0 H0].
  destruct (requests_are_escaped (H := Sample.host) SampleWorld.offline 0 (allOrigins ++ u0))
    as (u & k & Hu & Hsafe & [[Heq Hk]|[Heq Hk]]).
  - rewrite (fetchSheet_unfold (H := Sample.host)).
    apply in_app_iff. right. apply in_app_iff. left.
    rewrite (retrieve_cases (H := Sample.host) SampleWorld.offline u0 _ H0 eq_refl).
    left. reflexivity.
  - exists u, k. split; [exact Hu|]. split; [exact Hsafe | exact Hk].
  - exfalso. clear - Heq. vm_compute in Heq. discriminate Heq.
Defined.

(** X10.  The time stamp does its work: two different clock readings
    give different encoded addresses, hence different requests to either
    relay. *)
Theorem time_stamp_separates_requests (t1 t2 : Z) (u1 u2 : jsstring) :
  encodeURIComponent (noCacheUrl t1) = inr u1 ->
  encodeURIComponent (noCacheUrl t2) = inr u2 ->
  t1 <> t2 ->
  u1 <> u2 /\ allOrigins ++ u1 <> allOrigins ++ u2 /\ corsProxy ++ u1 <> corsProxy ++ u2.
Proof.
  intros H1 H2 Hne.
  destruct (noCacheUrl_encoded_stamp t1) as (feed & amp & Hfeed & Hamp & E1).
  destruct (noCacheUrl_encoded_stamp t2) as (feed' & amp' & Hfeed' & Hamp' & E2).
  assert (feed' = feed) as -> by congruence. assert (amp' = amp) as -> by congruence.
  assert (Hu : u1 <> u2).
  { intros Heq. apply Hne, integerString_inj.
    rewrite E1 in H1. rewrite E2 in H2. injection H1 as <-. injection H2 as <-.
    by apply app_inv_head in Heq; apply app_inv_head in Heq. }
  split; [exact Hu|]. split; intros Heq; apply Hu; by apply app_inv_head in Heq.
Qed.

Lemma time_stamp_separates_requests_witness :
  exists u1 u2,
    encodeURIComponent (noCacheUrl 1) = inr u1 /\
    encodeURIComponent (noCacheUrl 2) = inr u2 /\
    allOrigins ++ u1 <> allOrigins ++ u2.
Proof.
  destruct (noCacheUrl_encodes 1) as [u1 H1]. destruct (noCacheUrl_encodes 2) as [u2 H2].
  exists u1, u2. split; [exact H1|]. split; [exact H2|].
  apply (time_stamp_separates_requests 1 2 u1 u2 H1 H2). lia.
Defined.

(** X26.  What a cycle stores is what the builder returned.  After a
    cycle that calls [setProducts], the snapshot is the sequence passed,
    whatever the state was before; every product of it is fresh and every
    unit available.  So the statuses set with the unit buttons do not
    survive a reload, be it the one on mount or [resetData]. *)
Theorem reload_forgets_toggles `{Host} (W : World) (n : nat) (st : AppState)
    (ps : list Product) :
  In (setProducts ps) (fetchSheet W n) ->
  products (run st (fetchSheet W n)) = ps /\
  Forall freshProduct ps /\
  forall p s u, In p ps -> In s (sizes p) -> In u (units s) -> status u = available.
Proof.
  intros Hin.
  assert (Hfresh : Forall freshProduct ps).
  { destruct (fetchSheet_built W n ps Hin) as (parsed & n' & Hparse).
    destruct (parseGvizData_rows _ _ _ _ Hparse) as (rows & os & Hmap & ->).
    by eapply outcomes_fresh. }
  split; [|split; [exact Hfresh|]].
  - destruct (fetchSheet_setProducts W n ps Hin) as (_ & evR & debug & Hq & ->).
    rewrite run_app, (run_app _ evR), (run_quiet _ evR Hq). reflexivity.
  - intros p s u Hp Hs Hu. rewrite Forall_forall in Hfresh.
    destruct (Hfresh p Hp) as (_ & _ & _ & _ & (len & Hunits) & _).
    rewrite Forall_forall in Hunits. destruct (Hunits s Hs) as [_ Hav].
    rewrite Forall_forall in Hav. by apply Hav.
Qed.

Lemma reload_forgets_toggles_witness :
  let W := SampleWorld.viaBackup (SampleWorld.envelope Sample.shirtJson) in
  exists ps,
    products (run stocked (fetchSheet (H := Sample.host) W 0)) = ps /\
    Forall (freshProduct (H := Sample.host)) ps.
Proof.
  intros W. eexists.
  destruct (reload_forgets_toggles (H := Sample.host) W 0 stocked
              (products (run stocked (fetchSheet (H := Sample.host) W 0))))
    as (Hps & Hfresh & _).
  - vm_compute. do 6 right. left. reflexivity.
  - split; [reflexivity | exact Hfresh].
Defined.

(** ** [App]: the password gate and the rejected actions *)

Section GateFacts.

Lemma gestures_snoc (sh : Shell) (gs : list Gesture) (g : Gesture) :
  gestures sh (gs ++ [g]) = fst (gesture (gestures sh gs) g).
Proof. unfold gestures. by rewrite fold_left_app. Qed.

Lemma empty_field : [] <> ADMIN_PASSWORD.
Proof. discriminate. Qed.

End GateFacts.

(** X11.  From the initial state, whatever the visitor does (logo,
    Admin/Tienda button, typing, Enter or "Entrar", "Cancelar" or the
    backdrop, in any order and number), the admin view is shown only if
    the exact text of [ADMIN_PASSWORD] was typed into the field at some
    point; and whenever the admin view is shown the password modal is
    closed. *)
Theorem admin_needs_the_password (gs : list Gesture) :
  let sh := gestures initialShell gs in
  (view sh = admin -> In (typePassword ADMIN_PASSWORD) gs) /\
  (view sh = admin -> showAuthModal sh = false).
Proof.
  cbn zeta.
  enough (Hinv : (view (gestures initialShell gs) = admin -> In (typePassword ADMIN_PASSWORD) gs)
                 /\ (view (gestures initialShell gs) = admin ->
                     showAuthModal (gestures initialShell gs) = false)
                 /\ (showAuthModal (gestures initialShell gs) = true ->
                     password (gestures initialShell gs) = ADMIN_PASSWORD ->
                     In (typePassword ADMIN_PASSWORD) gs)) by tauto.
  induction gs as [|g gs IH] using rev_ind.
  - cbn. repeat split; discriminate.
  - rewrite gestures_snoc. destruct IH as (Hview & Hmodal & Hfield).
    destruct (gestures initialShell gs) as [v m pw]. cbn [view showAuthModal password] in *.
    setoid_rewrite in_app_iff.
    destruct g as [| |text| |]; cbn [gesture view showAuthModal password fst].
    + repeat split; try discriminate. intros Hm Hp. left. by apply Hfield.
    + destruct v; cbn [fst view showAuthModal password].
      * repeat split; try discriminate. intros _ Hp. destruct m.
        -- left. by apply Hfield.
        -- by destruct empty_field.
      * repeat split; try discriminate. intros Hm. rewrite Hmodal in Hm by reflexivity.
        discriminate.
    + destruct m; cbn [fst view showAuthModal password].
      * split; [intros Hv; left; by apply Hview|].
        split; [exact Hmodal|].
        intros _ ->. right. by left.
      * split; [intros Hv; left; by apply Hview|]. split; [done|]. discriminate.
    + destruct m; cbn [fst view showAuthModal password].
      * unfold handleAdminAuth. cbn [password].
        destruct (bool_decide_reflect (pw = ADMIN_PASSWORD)) as [Hpw|Hpw];
          cbn [fst view showAuthModal password].
        -- split; [intros _; left; by apply Hfield|]. split; [done|]. discriminate.
        -- split; [intros Hv; left; by apply Hview|]. split; [exact Hmodal|].
           intros _ Hp. left. by apply Hfield.
      * split; [intros Hv; left; by apply Hview|]. split; [done|]. discriminate.
    + destruct m; cbn [fst view showAuthModal password].
      * split; [intros Hv; left; by apply Hview|]. split; [done|]. discriminate.
      * split; [intros Hv; left; by apply Hview|]. split; [done|]. discriminate.
Qed.

Section AdminFacts.
Import JS.
Local Open Scope Z_scope.

Lemma element_index {A} (a : list A) (j : nat) (x : A) :
  a !! j = Some x -> Z.of_nat j < 2 ^ 53 ->
  element a (Num.ofZ (Z.of_nat j)) = Some (j, x).
Proof.
  intros Hx Hj. unfold element, Num.ofZ.
  rewrite integerValue_binary_normalize by lia.
  destruct (Z.leb_spec 0 (Z.of_nat j)); [|lia]. by rewrite Nat2Z.id, Hx.
Qed.

Lemma element_index_None {A} (a : list A) (j : nat) :
  (length a <= j)%nat -> Z.of_nat j < 2 ^ 53 ->
  element a (Num.ofZ (Z.of_nat j)) = None.
Proof.
  intros Hx Hj. unfold element, Num.ofZ.
  rewrite integerValue_binary_normalize by lia.
  destruct (Z.leb_spec 0 (Z.of_nat j)); [|lia].
  rewrite Nat2Z.id. by rewrite (lookup_ge_None_2 a j).
Qed.

Lemma mapRes_at {A} (f : A -> Res A) (l : list A) (i : nat) (x y : A) :
  l !! i = Some x -> f x = inr y ->
  (forall k z, l !! k = Some z -> k <> i -> f z = inr z) ->
  mapRes f l = inr (<[i := y]> l).
Proof.
  revert i. induction l as [|a l IH]; intros [|i] Hx Hy Hrest; try discriminate.
  - simpl in Hx. injection Hx as ->. simpl. rewrite Hy. simpl.
    rewrite mapRes_id; [reflexivity|].
    apply Forall_lookup. intros k z Hz. by apply (Hrest (S k)).
  - simpl in Hx. simpl. rewrite (Hrest 0%nat a) by done. simpl.
    rewrite (IH i Hx Hy); [reflexivity|].
    intros k z Hz Hk. apply (Hrest (S k)); [exact Hz | lia].
Qed.

Lemma map_at {A} (f : A -> A) (l : list A) (i : nat) (x : A) :
  l !! i = Some x ->
  (forall k z, l !! k = Some z -> k <> i -> f z = z) ->
  map f l = <[i := f x]> l.
Proof.
  revert i. induction l as [|a l IH]; intros [|i] Hx Hrest; try discriminate.
  - simpl in Hx. injection Hx as ->. simpl. f_equal.
    transitivity (map id l); [|apply map_id].
    apply map_ext_in. intros z Hz. apply list_elem_of_In, list_elem_of_lookup_1 in Hz as [k Hk].
    by apply (Hrest (S k)).
  - simpl in Hx. simpl. rewrite (Hrest 0%nat a) by done. f_equal.
    apply IH; [exact Hx|]. intros k z Hz Hk. apply (Hrest (S k)); [exact Hz | lia].
Qed.

Lemma NoDup_map_lookup {A B} (f : A -> B) (l : list A) (i k : nat) (x z : A) :
  NoDup (map f l) -> l !! i = Some x -> l !! k = Some z -> k <> i -> f z <> f x.
Proof.
  intros Hnd Hx Hz Hk Heq. apply Hk.
  eapply (NoDup_lookup (map f l) k i (f x)); [exact Hnd| |].
  - rewrite lookup_map, Hz. simpl. by rewrite Heq.
  - by rewrite lookup_map, Hx.
Qed.

(** The callback on the product and bucket a button belongs to, the
    unit identifiers of the bucket being distinct. *)
Lemma updateProduct_at (p : Product) (j k : nat) (s : ProductSize) (u : StockUnit)
    (ns : UnitStatus) :
  sizes p !! j = Some s -> units s !! k = Some u ->
  NoDup (map unitId (units s)) -> Z.of_nat j < 2 ^ 53 ->
  updateProduct (productId p) (Num.ofZ (Z.of_nat j)) (unitId u) ns p
  = inr {| productId := productId p; name := name p; description := description p;
           gender := gender p; imageUrl := imageUrl p; price := price p;
           sizes := <[j := {| sizeName := sizeName s;
                              units := <[k := {| unitId := unitId u; status := ns |}]> (units s) |}]>
                      (sizes p) |}.
Proof.
  intros Hs Hu Hnd Hj. unfold updateProduct.
  rewrite bool_decide_eq_true_2 by reflexivity. cbn [negb].
  rewrite (element_index _ _ _ Hs Hj).
  rewrite (map_at (setStatus (unitId u) ns) (units s) k u Hu).
  - unfold setStatus at 1. by rewrite bool_decide_eq_true_2.
  - intros k' z Hz Hk. unfold setStatus. rewrite bool_decide_eq_false_2; [reflexivity|].
    by eapply (NoDup_map_lookup unitId).
Qed.

(** A click with distinct identifiers replaces the status of the
    clicked unit and nothing else. *)
Lemma clickUnit_at (st : AppState) (i j k : nat) (p : Product) (s : ProductSize) (u : StockUnit) :
  products st !! i = Some p -> sizes p !! j = Some s -> units s !! k = Some u ->
  NoDup (map productId (products st)) -> NoDup (map unitId (units s)) ->
  Z.of_nat j < 2 ^ 53 ->
  clickUnit st i j k
  = ([setProducts (withUnit (products st) i j k
                            {| unitId := unitId u; status := toggled (status u) |})], inr tt).
Proof.
  intros Hp Hs Hu Hndp Hndu Hj. unfold clickUnit, withUnit. rewrite Hp, Hs, Hu.
  unfold updateProductStock.
  erewrite mapRes_at; [reflexivity | exact Hp | by apply updateProduct_at |].
  intros k' z Hz Hk. apply updateProduct_other. by eapply (NoDup_map_lookup productId).
Qed.

Lemma map_insert_same {A B} (f : A -> B) (l : list A) (i : nat) (x y : A) :
  l !! i = Some x -> f y = f x -> map f (<[i := y]> l) = map f l.
Proof.
  intros Hx Hf. change (f <$> <[i := y]> l = f <$> l).
  rewrite list_fmap_insert, Hf. apply list_insert_id.
  by rewrite list_lookup_fmap, Hx.
Qed.

Lemma withUnit_withUnit (ps : list Product) (i j k : nat) (p : Product) (s : ProductSize)
    (u u' : StockUnit) :
  ps !! i = Some p -> sizes p !! j = Some s -> units s !! k = Some u ->
  withUnit (withUnit ps i j k u') i j k u = ps.
Proof.
  intros Hp Hs Hu. unfold withUnit. rewrite Hp, Hs.
  rewrite list_lookup_insert_eq by (eapply lookup_lt_Some; eassumption). cbn [sizes].
  rewrite list_lookup_insert_eq by (eapply lookup_lt_Some; eassumption).
  cbn [productId name description gender imageUrl price sizeName units].
  rewrite !list_insert_insert_eq.
  rewrite (list_insert_id (units s)) by exact Hu.
  rewrite (list_insert_id (sizes p)) by (rewrite Hs; by destruct s).
  apply list_insert_id. rewrite Hp. by destruct p.
Qed.

(** The number of available units of a bucket after one unit is replaced. *)
Lemma stock_insert (us : list StockUnit) (k : nat) (u u' : StockUnit) (name' : jsstring) :
  us !! k = Some u ->
  (stock {| sizeName := name'; units := <[k := u']> us |} + (if isAvailable u then 1 else 0)
   = stock {| sizeName := name'; units := us |} + (if isAvailable u' then 1 else 0))%nat.
Proof.
  unfold stock. cbn [units]. revert k. induction us as [|a us IH]; intros [|k] Hk; try discriminate.
  - simpl in Hk. injection Hk as ->. simpl.
    destruct (isAvailable u), (isAvailable u'); simpl; lia.
  - simpl in Hk. simpl. specialize (IH k Hk).
    destruct (isAvailable a); simpl; lia.
Qed.

Lemma blank_setStatus (uid : jsstring) (ns : UnitStatus) (us : list StockUnit) :
  map blankUnit (map (setStatus uid ns) us) = map blankUnit us.
Proof.
  rewrite map_map. apply map_ext. intros u. unfold setStatus.
  by destruct (bool_decide _).
Qed.

Lemma updateProduct_skeleton (pid : jsstring) (idx : number) (uid : jsstring)
    (ns : UnitStatus) (p p' : Product) :
  updateProduct pid idx uid ns p = inr p' -> blankProduct p' = blankProduct p.
Proof.
  unfold updateProduct. destruct (negb _); [by intros [= <-]|].
  destruct (element (sizes p) idx) as [[i s]|] eqn:Hel; [|discriminate].
  apply element_Some in Hel as [Hi _]. intros [= <-].
  unfold blankProduct. cbn [productId name description gender imageUrl price sizes].
  f_equal. apply (map_insert_same blankSize _ _ s); [exact Hi|].
  unfold blankSize. cbn [sizeName units]. by rewrite blank_setStatus.
Qed.

Lemma mapRes_skeleton (pid : jsstring) (idx : number) (uid : jsstring)
    (ns : UnitStatus) (ps ps' : list Product) :
  mapRes (updateProduct pid idx uid ns) ps = inr ps' -> skeleton ps' = skeleton ps.
Proof.
  intros Hm. apply mapRes_Forall2 in Hm. unfold skeleton.
  induction Hm as [|p p' ps ps' Hp _ IH]; [reflexivity|].
  simpl. rewrite IH. f_equal. by eapply updateProduct_skeleton.
Qed.

Lemma perform_skeleton (st : AppState) (a : Action) :
  skeleton (products (perform st a)) = skeleton (products st)
  /\ loading (perform st a) = loading st /\ error (perform st a) = error st
  /\ debugData (perform st a) = debugData st.
Proof.
  destruct a; try done. cbn [perform]. unfold updateProductStock.
  destruct (mapRes _ (products st)) as [e|ps'] eqn:Hm; [done|].
  cbn. split; [|done]. by eapply mapRes_skeleton.
Qed.

End AdminFacts.

(** X12.  Whatever sequence of actions the admin view triggers on the
    snapshot ([addProduct], [editProduct], [deleteProduct], the four
    empty handlers, and [updateProductStock] with any arguments, resolved
    or not, throwing or not), the snapshot keeps its skeleton: the same
    products in the same order with the same fields, size labels, unit
    counts and unit identifiers; only statuses can differ.  [loading],
    [error] and [debugData] are untouched. *)
Theorem actions_keep_skeleton (st : AppState) (actions : list Action) :
  let st' := performAll st actions in
  skeleton (products st') = skeleton (products st) /\
  loading st' = loading st /\ error st' = error st /\ debugData st' = debugData st.
Proof.
  unfold performAll. revert st. induction actions as [|a actions IH]; intros st; [done|].
  cbn [fold_left]. destruct (IH (perform st a)) as (H1 & H2 & H3 & H4).
  destruct (perform_skeleton st a) as (K1 & K2 & K3 & K4).
  cbn zeta in *. repeat split; congruence.
Qed.

(** ** [AdminView]: the unit buttons *)

(** X13.  A click on a unit button, when no two products share an
    identifier and no two units of the bucket do: nothing is thrown, the
    setter is called with the snapshot in which the clicked unit has the
    opposite status and everything else is as before, and the other
    state fields are untouched. *)
Theorem click_sets_clicked_unit (st : AppState) (i j k : nat)
    (p : Product) (s : ProductSize) (u : StockUnit) :
  products st !! i = Some p -> sizes p !! j = Some s -> units s !! k = Some u ->
  NoDup (map productId (products st)) -> NoDup (map unitId (units s)) ->
  (Z.of_nat j < 2 ^ 53)%Z ->
  let st' := run st (fst (clickUnit st i j k)) in
  snd (clickUnit st i j k) = inr tt /\
  products st' = withUnit (products st) i j k
                   {| unitId := unitId u; status := toggled (status u) |} /\
  loading st' = loading st /\ error st' = error st /\ debugData st' = debugData st.
Proof.
  intros Hp Hs Hu Hndp Hndu Hj st'. subst st'.
  rewrite (clickUnit_at st i j k p s u) by assumption. done.
Qed.

Lemma click_sets_clicked_unit_witness :
  snd (clickUnit stocked 0 0 0) = inr tt /\
  products (run stocked (fst (clickUnit stocked 0 0 0)))
  = withUnit (products stocked) 0 0 0 {| unitId := JS.lit "u1"; status := sold |}.
Proof.
  destruct (click_sets_clicked_unit stocked 0 0 0 _ _ _ eq_refl eq_refl eq_refl)
    as (H1 & H2 & _).
  - by apply (bool_decide_unpack _).
  - by apply (bool_decide_unpack _).
  - reflexivity.
  - split; [exact H1 | exact H2].
Defined.

(** X14.  Under the same conditions, clicking the same unit button twice
    brings back the state the first click started from. *)
Theorem click_twice_restores (st : AppState) (i j k : nat)
    (p : Product) (s : ProductSize) (u : StockUnit) :
  products st !! i = Some p -> sizes p !! j = Some s -> units s !! k = Some u ->
  NoDup (map productId (products st)) -> NoDup (map unitId (units s)) ->
  (Z.of_nat j < 2 ^ 53)%Z ->
  let st1 := run st (fst (clickUnit st i j k)) in
  let st2 := run st1 (fst (clickUnit st1 i j k)) in
  st2 = st.
Proof.
  intros Hp Hs Hu Hndp Hndu Hj st1 st2. subst st2 st1.
  rewrite (clickUnit_at st i j k p s u) by assumption. cbn [fst run fold_left apply].
  set (u1 := {| unitId := unitId u; status := toggled (status u) |}).
  set (s1 := {| sizeName := sizeName s; units := <[k := u1]> (units s) |}).
  set (p1 := {| productId := productId p; name := name p; description := description p;
                gender := gender p; imageUrl := imageUrl p; price := price p;
                sizes := <[j := s1]> (sizes p) |}).
  assert (Hw : withUnit (products st) i j k u1 = <[i := p1]> (products st)).
  { unfold withUnit. by rewrite Hp, Hs. }
  set (st1 := {| products := withUnit (products st) i j k u1; loading := loading st;
                 error := error st; debugData := debugData st |}).
  assert (Hp1 : products st1 !! i = Some p1).
  { cbn [st1 products]. rewrite Hw. apply list_lookup_insert_eq. by eapply lookup_lt_Some. }
  assert (Hs1 : sizes p1 !! j = Some s1).
  { cbn [p1 sizes]. apply list_lookup_insert_eq. by eapply lookup_lt_Some. }
  assert (Hu1 : units s1 !! k = Some u1).
  { cbn [s1 units]. apply list_lookup_insert_eq. by eapply lookup_lt_Some. }
  rewrite (clickUnit_at st1 i j k p1 s1 u1 Hp1 Hs1 Hu1).
  - cbn [fst run fold_left apply st1 products loading error debugData].
    replace {| unitId := unitId u1; status := toggled (status u1) |} with u
      by (destruct u as [? []]; reflexivity).
    rewrite (withUnit_withUnit _ i j k p s u u1 Hp Hs Hu). by destruct st.
  - cbn [st1 products]. rewrite Hw. by rewrite (map_insert_same productId _ _ p).
  - cbn [s1 units]. by rewrite (map_insert_same unitId _ _ u).
  - exact Hj.
Qed.

Lemma click_twice_restores_witness :
  let st1 := run stocked (fst (clickUnit stocked 0 0 1)) in
  run st1 (fst (clickUnit st1 0 0 1)) = stocked.
Proof.
  apply (click_twice_restores stocked 0 0 1 _ _ _ eq_refl eq_refl eq_refl).
  - by apply (bool_decide_unpack _).
  - by apply (bool_decide_unpack _).
  - reflexivity.
Defined.

(** X15.  The buttons themselves can reach the unchecked bucket index.
    When another product carries the same identifier as the product of
    the clicked unit and has no bucket at that bucket's index, the click
    throws a [TypeError], [setProducts] is not called and the state is
    unchanged. *)
Theorem click_throws_on_shared_identifier (st : AppState) (i i' j k : nat)
    (p p' : Product) (s : ProductSize) (u : StockUnit) :
  products st !! i = Some p -> sizes p !! j = Some s -> units s !! k = Some u ->
  products st !! i' = Some p' -> productId p' = productId p ->
  (length (sizes p') <= j)%nat -> (Z.of_nat j < 2 ^ 53)%Z ->
  clickUnit st i j k = ([], inl TypeError)
  /\ run st (fst (clickUnit st i j k)) = st.
Proof.
  intros Hp Hs Hu Hp' Hid Hlen Hj. unfold clickUnit. rewrite Hp, Hs, Hu.
  unfold updateProductStock. rewrite (mapRes_throws _ _ TypeError); [done| |].
  - apply Forall_forall. intros x _ e He. by eapply updateProduct_only_TypeError.
  - apply Exists_exists. exists p'. split; [by eapply list_elem_of_In, list_elem_of_lookup_2|].
    unfold updateProduct. rewrite bool_decide_eq_true_2 by exact Hid. cbn [negb].
    by rewrite element_index_None.
Qed.

Lemma click_throws_on_shared_identifier_witness :
  clickUnit twins 0 1 0 = ([], inl TypeError)
  /\ run twins (fst (clickUnit twins 0 1 0)) = twins.
Proof.
  apply (click_throws_on_shared_identifier twins 0 1 1 0 _ _ _ _
           eq_refl eq_refl eq_refl eq_refl eq_refl).
  - simpl. lia.
  - reflexivity.
Defined.

(** X16.  Under the conditions of X13, a click moves the count of
    available units of the clicked bucket (the number the admin view
    shows before "/ n Disp." and the detail view tests against zero) by
    exactly one: down when the unit was available, up when it was sold.
    The number of units of the bucket, the other products and the other
    buckets of the product are unchanged. *)
Theorem click_moves_stock_by_one (st : AppState) (i j k : nat)
    (p : Product) (s : ProductSize) (u : StockUnit) :
  products st !! i = Some p -> sizes p !! j = Some s -> units s !! k = Some u ->
  NoDup (map productId (products st)) -> NoDup (map unitId (units s)) ->
  (Z.of_nat j < 2 ^ 53)%Z ->
  let st' := run st (fst (clickUnit st i j k)) in
  exists p' s',
    products st' !! i = Some p' /\ sizes p' !! j = Some s' /\
    length (units s') = length (units s) /\
    match status u with
    | available => S (stock s') = stock s
    | sold => stock s' = S (stock s)
    end /\
    (forall i' q, i' <> i -> products st !! i' = Some q -> products st' !! i' = Some q) /\
    (forall j' t, j' <> j -> sizes p !! j' = Some t -> sizes p' !! j' = Some t).
Proof.
  intros Hp Hs Hu Hndp Hndu Hj st'. subst st'.
  rewrite (clickUnit_at st i j k p s u) by assumption. cbn [fst run fold_left apply products].
  unfold withUnit. rewrite Hp, Hs.
  eexists _, _. split; [apply list_lookup_insert_eq; by eapply lookup_lt_Some|].
  cbn [sizes]. split; [apply list_lookup_insert_eq; by eapply lookup_lt_Some|].
  cbn [units]. split; [apply length_insert|]. split.
  - pose proof (stock_insert (units s) k u
                  {| unitId := unitId u; status := toggled (status u) |} (sizeName s) Hu) as Hst.
    replace {| sizeName := sizeName s; units := units s |} with s in Hst by (by destruct s).
    unfold isAvailable in Hst. cbn [status] in Hst.
    destruct (status u); cbn [toggled] in Hst |- *; lia.
  - split.
    + intros i' q Hne Hq. by rewrite list_lookup_insert_ne.
    + intros j' t Hne Ht. by rewrite list_lookup_insert_ne.
Qed.

Lemma click_moves_stock_by_one_witness :
  exists p' s',
    products (run stocked (fst (clickUnit stocked 0 0 0))) !! 0 = Some p' /\
    sizes p' !! 0 = Some s' /\ stock s' = 1%nat.
Proof.
  destruct (click_moves_stock_by_one stocked 0 0 0 _ _ _ eq_refl eq_refl eq_refl)
    as (p' & s' & Hp & Hs & _ & Hst & _).
  - by apply (bool_decide_unpack _).
  - by apply (bool_decide_unpack _).
  - reflexivity.
  - exists p', s'. split; [exact Hp|]. split; [exact Hs|]. cbn in Hst. lia.
Defined.

(** ** [CatalogView]: the filter *)

Section CatalogFacts.
Context `{Host}.
Import JS.
Local Open Scope Z_scope.

Lemma isPrefixOf_here (p rest : jsstring) : isPrefixOf p (p ++ rest) = true.
Proof. induction p as [|a p IH]; simpl; [reflexivity|]. by rewrite N.eqb_refl, IH. Qed.

Lemma indexOfFrom_lower (needle s : jsstring) (i : Z) :
  indexOfFrom needle s i = -1 \/ i <= indexOfFrom needle s i.
Proof.
  revert i. induction s as [|c s IH]; intros i; simpl.
  - destruct (isPrefixOf needle []); [right; lia | by left].
  - destruct (isPrefixOf needle (c :: s)); [right; lia|].
    destruct (IH (i + 1)) as [->|Hle]; [by left | right; lia].
Qed.

Lemma indexOfFrom_occurs (needle pre rest : jsstring) (i : Z) :
  0 <= i -> indexOfFrom needle (pre ++ needle ++ rest) i <> -1.
Proof.
  revert i. induction pre as [|c pre IH]; intros i Hi.
  - simpl app. destruct (needle ++ rest) as [|x l] eqn:E; simpl.
    + rewrite <- E, isPrefixOf_here. lia.
    + rewrite <- E, isPrefixOf_here. lia.
  - simpl. destruct (isPrefixOf needle (c :: pre ++ needle ++ rest)); [lia|].
    apply IH. lia.
Qed.

(** [includes] finds exactly the texts that occur. *)
Lemma includes_spec (s needle : jsstring) :
  includes s needle = true <-> exists pre rest, s = pre ++ needle ++ rest.
Proof.
  unfold includes. split.
  - intros Hi. apply negb_true_iff, Z.eqb_neq in Hi.
    destruct (indexOf_found s needle _ eq_refl Hi) as (pre & rest & Hs & _). by exists pre, rest.
  - intros (pre & rest & ->). apply negb_true_iff, Z.eqb_neq.
    by apply indexOfFrom_occurs.
Qed.

Lemma filter_sublist {A} (f : A -> bool) (l : list A) : sublist (List.filter f l) l.
Proof.
  induction l as [|x l IH]; simpl; [constructor|].
  destruct (f x); by constructor.
Qed.

Lemma gMatch_spec (filter : jsstring) (p : Product) :
  gMatch filter p = true <->
  filter = lit "all" \/ toLowerCase (gender p) = filter \/ toLowerCase (gender p) = lit "unisex".
Proof.
  unfold gMatch. rewrite !orb_true_iff, !bool_decide_eq_true. tauto.
Qed.

End CatalogFacts.

(** X17.  What the catalogue shows: a subsequence of the snapshot, in
    its order, holding exactly the products whose lower-cased category is
    the chosen one or "unisex" (every product under 'all') and whose
    lower-cased name contains the lower-cased search text somewhere. *)
Theorem filtered_shows `{Host} (products : list Product) (filter search : jsstring) :
  sublist (filtered products filter search) products /\
  forall p, In p (filtered products filter search) <->
    In p products /\
    (filter = JS.lit "all" \/ toLowerCase (gender p) = filter
     \/ toLowerCase (gender p) = JS.lit "unisex") /\
    exists pre rest, toLowerCase (name p) = pre ++ toLowerCase search ++ rest.
Proof.
  split; [apply filter_sublist|].
  intros p. unfold filtered. rewrite filter_In, andb_true_iff, gMatch_spec.
  unfold sMatch. by rewrite includes_spec.
Qed.

(** X18.  With the controls as they start ('all', empty search) nothing
    is hidden, on a host whose lower-casing keeps the empty text empty. *)
Theorem filtered_initially_all `{Host} (products : list Product) :
  toLowerCase [] = [] ->
  filtered products (JS.lit "all") [] = products.
Proof.
  intros Hlow. unfold filtered. induction products as [|p ps IH]; [reflexivity|].
  cbn [List.filter]. rewrite IH.
  assert (Hm : gMatch (JS.lit "all") p && sMatch [] p = true).
  { apply andb_true_iff. split; [apply gMatch_spec; by left|].
    unfold sMatch. apply includes_spec. rewrite Hlow. by exists [], (toLowerCase (name p)). }
  by rewrite Hm.
Qed.

Lemma filtered_initially_all_witness :
  filtered (H := Sample.host) (products stocked) (JS.lit "all") [] = products stocked.
Proof. apply (filtered_initially_all (H := Sample.host)). reflexivity. Defined.

(** X19.  The builder's category and the gender buttons.  A product
    built from a record with no category passes the category test under
    every filter value (on a host that lower-cases "unisex" to itself).
    A built product whose lower-cased category is outside the
    enumeration fails it under every value of the enumeration, so it is
    listed under 'all' only. *)
Theorem built_category_and_filter `{Host} (r : RawRecord) (n n' : nat) (p : Product) :
  build r n = inr (Some p, n') ->
  (toLowerCase (rawGender r) = [] -> toLowerCase (JS.lit "unisex") = JS.lit "unisex" ->
   forall filter, gMatch filter p = true) /\
  (toLowerCase (gender p) ∉ Gender ->
   forall filter, filter ∈ Gender -> gMatch filter p = false).
Proof.
  intros Hb. split.
  - intros Hraw Hlow filter. apply gMatch_spec. right. right.
    unfold build in Hb. destruct (skipped r); [discriminate|].
    unfold bind in Hb. destruct (buildSizes _ _ n) as [e|[ss n1]]; [discriminate|].
    assert (Hg : gender p = JS.lit "unisex").
    { destruct (JS.nonEmpty (rawId r)); cbn in Hb; injection Hb as <- _; cbn [gender];
        unfold genderOf; by rewrite Hraw. }
    by rewrite Hg.
  - intros Hout filter Hf. apply not_true_is_false. intros Hm.
    apply gMatch_spec in Hm as [->|[Hm|Hm]].
    + apply list_elem_of_In in Hf. vm_compute in Hf. intuition discriminate.
    + apply Hout. by rewrite Hm.
    + apply Hout. rewrite Hm. unfold Gender. do 2 apply list_elem_of_further. apply list_elem_of_here.
Qed.

Lemma built_category_and_filter_witness :
  exists p n', build (H := Sample.host) adult 0 = inr (Some p, n') /\
               gMatch (H := Sample.host) [110; 105; 241; 97]%N p = false.
Proof.
  eexists _, _. split; [reflexivity|].
  eapply (built_category_and_filter (H := Sample.host) adult 0 _ _ eq_refl).
  - vm_compute. intros Hin. apply list_elem_of_In in Hin. vm_compute in Hin.
    intuition discriminate.
  - apply list_elem_of_further, list_elem_of_here.
Defined.

(** ** [DetailModal]: sizes and the WhatsApp link *)

Section DetailFacts.
Import JS.

Lemma surrogateFree_app (a b : jsstring) :
  surrogateFree (a ++ b) = surrogateFree a && surrogateFree b.
Proof. apply forallb_app. Qed.

(** The message brings no surrogate of its own. *)
Lemma whatsAppMessage_surrogateFree (n s : jsstring) :
  surrogateFree n = true -> surrogateFree s = true ->
  surrogateFree (whatsAppMessage n s) = true.
Proof.
  intros Hn Hs. unfold whatsAppMessage. rewrite !surrogateFree_app, Hn, Hs. reflexivity.
Qed.

Lemma stock_all_available (s : ProductSize) :
  Forall (fun u => status u = available) (units s) -> stock s = length (units s).
Proof.
  unfold stock. induction 1 as [|u us Hu _ IH]; simpl; [reflexivity|].
  unfold isAvailable at 1. rewrite Hu. simpl. by rewrite IH.
Qed.

(** With every size out of stock, no click selects one. *)
Lemma clickSizes_none (product : Product) (js : list nat) :
  Forall (fun s => isOut s = true) (sizes product) ->
  clickSizes product js None = None.
Proof.
  intros Hout. unfold clickSizes. induction js as [|j js IH] using rev_ind; [reflexivity|].
  rewrite fold_left_app. cbn [fold_left]. rewrite IH. unfold clickSize.
  destruct (sizes product !! j) as [s|] eqn:Hs; [|reflexivity].
  rewrite Forall_forall in Hout.
  by rewrite (Hout s (proj1 (list_elem_of_In _ _) (list_elem_of_lookup_2 _ _ _ Hs))).
Qed.

End DetailFacts.

(** X20.  The WhatsApp button.  With no size selected, or an empty one,
    nothing is opened.  With a size selected, and no surrogate among the
    code units of the name and of the size, one window is opened; its
    address is the fixed [wa.me] prefix followed by the encoded message,
    which holds only unreserved code units and percent escapes, so
    nothing in a product name or a size label can add a parameter to the
    link or cut it short. *)
Theorem handleWhatsApp_link (product : Product) (size : jsstring) :
  size <> [] -> surrogateFree (name product) = true -> surrogateFree size = true ->
  handleWhatsApp product None = inr None /\
  handleWhatsApp product (Some []) = inr None /\
  exists query,
    handleWhatsApp product (Some size) = inr (Some (whatsAppLink ++ query)) /\
    encodeURIComponent (whatsAppMessage (name product) size) = inr query /\
    Forall (fun c => urlSafe c = true) query.
Proof.
  intros Hsize Hn Hs. split; [reflexivity|]. split; [reflexivity|].
  pose proof (whatsAppMessage_surrogateFree _ _ Hn Hs) as Hm.
  destruct (encodeURIComponent_surrogateFree _ Hm) as [query Hq].
  exists query. split; [|split; [exact Hq|]].
  - unfold handleWhatsApp. destruct size; [done|]. cbn [JS.nonEmpty negb]. by rewrite Hq.
  - eapply encodeURIComponent_safe; [|exact Hq]. by apply surrogateFree_units.
Qed.

(** A name with the code unit U+FF01, which lies above the surrogates. *)
Lemma handleWhatsApp_link_witness :
  surrogateFree (name fullwidth) = true /\
  exists query,
    handleWhatsApp fullwidth (Some (JS.lit "U")) = inr (Some (whatsAppLink ++ query)) /\
    Forall (fun c => urlSafe c = true) query.
Proof.
  split; [reflexivity|].
  destruct (handleWhatsApp_link fullwidth (JS.lit "U")) as (_ & _ & query & Hq & _ & Hsafe).
  - discriminate.
  - reflexivity.
  - reflexivity.
  - exists query. split; [exact Hq | exact Hsafe].
Defined.

(** X21.  A product name with a surrogate that is not half of a pair (a
    trail surrogate, or a lead surrogate not followed by a trail one,
    after text without surrogates) makes the button throw a [URIError]
    instead of opening a window. *)
Theorem handleWhatsApp_throws (product : Product) (size a b : jsstring) (c : N) :
  size <> [] ->
  name product = a ++ c :: b ->
  surrogateFree a = true ->
  isTrailSurrogate c = true \/
  isLeadSurrogate c = true /\ match b with lo :: _ => isTrailSurrogate lo = false | [] => True end ->
  handleWhatsApp product (Some size) = inl URIError.
Proof.
  intros Hsize Hname Ha Hc. unfold handleWhatsApp.
  destruct size as [|x size]; [done|]. cbn [JS.nonEmpty negb].
  unfold whatsAppMessage. rewrite Hname.
  rewrite <- (app_assoc a), <- app_comm_cons.
  rewrite (app_assoc (JS.lit "Hola, me interesa *")).
  rewrite (encodeURIComponent_lone _ c); [reflexivity| |].
  - rewrite surrogateFree_app, Ha. reflexivity.
  - destruct Hc as [Hc|[Hc Hb]]; [by left|]. right. split; [exact Hc|].
    destruct b; [reflexivity | exact Hb].
Qed.

(** A lead surrogate at the end of a name that starts with U+FF01, and
    a trail surrogate at the end of a name. *)
Lemma handleWhatsApp_throws_witness :
  handleWhatsApp halved (Some (JS.lit "U")) = inl URIError /\
  handleWhatsApp unpaired (Some (JS.lit "U")) = inl URIError.
Proof.
  split.
  - apply (handleWhatsApp_throws halved (JS.lit "U") (65281%N :: JS.lit "Gorra") [] 55357%N).
    + discriminate.
    + reflexivity.
    + reflexivity.
    + right. split; reflexivity.
  - apply (handleWhatsApp_throws unpaired (JS.lit "U") (JS.lit "Gorra") [] 56832%N).
    + discriminate.
    + reflexivity.
    + reflexivity.
    + left. reflexivity.
Defined.

(** X22.  Starting with no size selected, whatever size buttons are
    clicked, a selected size is the label of a bucket of the product that
    holds an available unit, and one of the clicks was on it: a size
    without stock cannot be selected. *)
Theorem selected_size_is_in_stock (product : Product) (js : list nat) (l : jsstring) :
  clickSizes product js None = Some l ->
  exists j s, In j js /\ sizes product !! j = Some s /\ sizeName s = l /\
              exists u, In u (units s) /\ status u = available.
Proof.
  unfold clickSizes. induction js as [|j js IH] using rev_ind; [discriminate|].
  rewrite fold_left_app. cbn [fold_left]. unfold clickSize at 1.
  destruct (sizes product !! j) as [s|] eqn:Hs.
  - destruct (isOut s) eqn:Hout.
    + intros Hsel. destruct (IH Hsel) as (j' & s' & Hj & H'). exists j', s'.
      split; [apply in_app_iff; by left | exact H'].
    + intros [= <-]. exists j, s. split; [apply in_app_iff; right; by left|].
      split; [exact Hs|]. split; [reflexivity|].
      unfold isOut, stock in Hout. apply Nat.eqb_neq in Hout.
      destruct (List.filter isAvailable (units s)) as [|u us] eqn:Hf; [done|].
      assert (Hin : In u (List.filter isAvailable (units s))) by (rewrite Hf; by left).
      apply filter_In in Hin as [Hin Hav]. exists u. split; [exact Hin|].
      unfold isAvailable in Hav. by destruct (status u).
  - intros Hsel. destruct (IH Hsel) as (j' & s' & Hj & H'). exists j', s'.
    split; [apply in_app_iff; by left | exact H'].
Qed.

Lemma selected_size_is_in_stock_witness :
  exists j s, In j [0%nat] /\ sizes camisa !! j = Some s /\ sizeName s = JS.lit "S" /\
              exists u, In u (units s) /\ status u = available.
Proof. apply (selected_size_is_in_stock camisa [0%nat] (JS.lit "S")). reflexivity. Defined.

(** X23.  The stock a fresh product shows.  For a record that passes
    the header test with a unit count [len], every bucket of the built
    product shows [len] available units and is disabled exactly when
    [len] is zero; for [len = 0] (a quantity that is zero, not a number
    or a fraction below one) no click selects a size and the WhatsApp
    button opens nothing. *)
Theorem unstocked_record_cannot_be_ordered `{Host} (r : RawRecord) (n len : nat) :
  skipped r = false ->
  Array_ (Num.Math_floor (stockQtyOf (rawStock r))) = inr len ->
  exists p n',
    build r n = inr (Some p, n') /\
    Forall (fun s => stock s = len /\ isOut s = (len =? 0)%nat) (sizes p) /\
    (len = 0%nat -> forall js,
       clickSizes p js None = None /\
       handleWhatsApp p (clickSizes p js None) = inr None).
Proof.
  intros Hs Hlen. eexists _, _. split; [by apply build_kept|]. cbn [sizes].
  assert (Hst : Forall (fun s => stock s = len /\ isOut s = (len =? 0)%nat)
                       (bucketsFrom n len (sizeListOf (rawSizes r)))).
  { eapply List.Forall_impl; [|apply bucketsFrom_units].
    intros s [Hl Ha]. unfold isOut. rewrite (stock_all_available s Ha), Hl. done. }
  split; [exact Hst|]. intros -> js.
  match goal with
  | |- clickSizes ?p js None = None /\ _ => assert (Hnone : clickSizes p js None = None)
  end.
  { apply clickSizes_none. cbn [sizes].
    eapply List.Forall_impl; [|exact Hst]. by intros s [_ ->]. }
  by rewrite Hnone.
Qed.

Lemma unstocked_record_cannot_be_ordered_witness :
  exists p n',
    build (H := Sample.host) scarf 0 = inr (Some p, n') /\
    Forall (fun s => stock s = 0%nat /\ isOut s = true) (sizes p) /\
    handleWhatsApp p (clickSizes p [0%nat; 0%nat] None) = inr None.
Proof.
  destruct (unstocked_record_cannot_be_ordered (H := Sample.host) scarf 0 0)
    as (p & n' & Hb & Hst & Hno).
  - reflexivity.
  - reflexivity.
  - exists p, n'. split; [exact Hb|]. split; [exact Hst|].
    exact (proj2 (Hno eq_refl [0%nat; 0%nat])).
Defined.
